(** * Shoe inventory (inventory.py): a shallow embedding and its properties

    The program keeps a module-level list [shoe_list] of [Shoe] objects,
    loads it from [inventory.txt], and offers a menu of operations that read
    lines from standard input.

    Modelling choices.
    - Text is ASCII.  A Python [str] is a [list ascii]; classification,
      case mapping, stripping and [int] follow Python on the code points
      below 128.  A statement whose conclusion depends on how a text that
      is typed, stored or read from the file is classified assumes that
      text to be ASCII ([isascii]).
    - Python integers are unbounded: [Z].  The conversions between [int]
      and [str] raise [ValueError] beyond 4300 digits, the default of
      sys.int_max_str_digits, and the rendering of an integer with two
      decimals raises [OverflowError] when the integer does not convert
      to a float.
    - [Shoe] objects live in a heap (a list indexed by object identity) and
      [shoe_list] holds references, so that [sorted] copies references and
      an attribute assignment is seen through every alias.
    - Standard input is the list of the lines still to be read; [input()]
      at its end raises [EOFError].  Standard output is the list of the
      messages printed so far; the characters of a rendered number, shoe
      or table are kept symbolic.
    - [inventory.txt] is [None] when the file does not exist and
      [Some text] otherwise; opening it for writing always succeeds. *)

From Stdlib Require Import ZArith Ascii String List Lia Decimal DecimalZ Sorted.
From stdpp Require Import base decidable tactics option list strings.

Local Open Scope char_scope.
Local Open Scope Z_scope.

(** ** Python strings *)

Module Py.

Definition str := list ascii.

Definition lit (s : string) : str := list_ascii_of_string s.
Arguments lit : simpl never.

Definition ord (c : ascii) : N := N_of_ascii c.

Definition between (lo hi : N) (c : ascii) : bool :=
  ((lo <=? ord c) && (ord c <=? hi))%N.

(** [str.isspace] on one character: tab, line feed, vertical tab, form
    feed, carriage return, the four separators 28..31 and the space. *)
Definition isspace (c : ascii) : bool := between 9 13 c || between 28 32 c.
Definition isdigit (c : ascii) : bool := between 48 57 c.
Definition isupper (c : ascii) : bool := between 65 90 c.
Definition islower (c : ascii) : bool := between 97 122 c.
Definition isalpha_char (c : ascii) : bool := isupper c || islower c.

Definition upper_char (c : ascii) : ascii :=
  if islower c then ascii_of_N (ord c - 32) else c.
Definition lower_char (c : ascii) : ascii :=
  if isupper c then ascii_of_N (ord c + 32) else c.

(** [str.isascii] *)
Definition isascii (s : str) : bool := forallb (fun c => (ord c <? 128)%N) s.

Definition upper (s : str) : str := map upper_char s.
Definition lower (s : str) : str := map lower_char s.

(** [str.title]: a letter that follows a letter is lowered, any other
    letter is raised. *)
Fixpoint title_from (previous_is_cased : bool) (s : str) : str :=
  match s with
  | [] => []
  | c :: s' =>
      (if previous_is_cased then lower_char c else upper_char c)
        :: title_from (isalpha_char c) s'
  end.
Definition title (s : str) : str := title_from false s.

(** [str.isalpha]: at least one character and letters only. *)
Definition isalpha (s : str) : bool :=
  match s with [] => false | _ => forallb isalpha_char s end.

(** [s.replace(" ", "")] *)
Definition remove_spaces (s : str) : str :=
  filter (fun c => c <> " ") s.

Fixpoint lstrip (s : str) : str :=
  match s with
  | [] => []
  | c :: s' => if isspace c then lstrip s' else s
  end.

Fixpoint rstrip (s : str) : str :=
  match s with
  | [] => []
  | c :: s' =>
      match rstrip s' with
      | [] => if isspace c then [] else [c]
      | r => c :: r
      end
  end.

Definition strip (s : str) : str := lstrip (rstrip s).

(** [s.split(",")]: never empty, [""] splits into one empty field. *)
Fixpoint split_comma (s : str) : list str :=
  match s with
  | [] => [[]]
  | c :: s' =>
      if decide (c = ",") then [] :: split_comma s'
      else match split_comma s' with
           | f :: fs => (c :: f) :: fs
           | [] => [[c]]
           end
  end.

(** *** [int(s)] in base ten

    Surrounding white space is skipped, one sign is allowed, and the digits
    may be grouped by single underscores; a numeral of more than 4300
    digits is refused. [None] stands for [ValueError]. *)

(** The white space [int] skips in an ASCII text: tab, line feed, vertical
    tab, form feed, carriage return and the space. The separators 28..31,
    which [str.strip] drops, are not skipped. *)
Definition int_space (c : ascii) : bool := between 9 13 c || between 32 32 c.

Fixpoint int_lstrip (s : str) : str :=
  match s with
  | [] => []
  | c :: s' => if int_space c then int_lstrip s' else s
  end.

Fixpoint int_rstrip (s : str) : str :=
  match s with
  | [] => []
  | c :: s' =>
      match int_rstrip s' with
      | [] => if int_space c then [] else [c]
      | r => c :: r
      end
  end.

Definition int_strip (s : str) : str := int_lstrip (int_rstrip s).

(** sys.int_max_str_digits *)
Definition max_str_digits : Z := 4300.

Definition count_digits (s : str) : Z := Z.of_nat (length (List.filter isdigit s)).

Definition digit_value (c : ascii) : Z := Z.of_N (ord c) - 48.

Fixpoint parse_digits (acc : Z) (after_digit : bool) (s : str) : option Z :=
  match s with
  | [] => if after_digit then Some acc else None
  | c :: s' =>
      if isdigit c then parse_digits (10 * acc + digit_value c) true s'
      else if decide (c = "_") then
        (if after_digit then parse_digits acc false s' else None)
      else None
  end.

Definition int (s : str) : option Z :=
  let numeral := int_strip s in
  if max_str_digits <? count_digits numeral then None
  else match numeral with
       | "+" :: d => parse_digits 0 false d
       | "-" :: d => Z.opp <$> parse_digits 0 false d
       | d => parse_digits 0 false d
       end.

(** *** [str(n)] for an integer *)

Fixpoint uint_chars (u : Decimal.uint) : str :=
  match u with
  | Nil => []
  | D0 u => "0" :: uint_chars u
  | D1 u => "1" :: uint_chars u
  | D2 u => "2" :: uint_chars u
  | D3 u => "3" :: uint_chars u
  | D4 u => "4" :: uint_chars u
  | D5 u => "5" :: uint_chars u
  | D6 u => "6" :: uint_chars u
  | D7 u => "7" :: uint_chars u
  | D8 u => "8" :: uint_chars u
  | D9 u => "9" :: uint_chars u
  end.

Definition str_of_int (n : Z) : str :=
  match Z.to_int n with
  | Decimal.Pos u => uint_chars u
  | Decimal.Neg u => "-" :: uint_chars u
  end.

(** [str(n)] raises [ValueError] when [n] has more digits than
    sys.int_max_str_digits. *)
Definition str_ok (n : Z) : bool := count_digits (str_of_int n) <=? max_str_digits.

(** [format(n, ",.2f")] converts [n] to a float first, which raises
    [OverflowError] when [n] rounds to a value beyond the largest float:
    from 2^1024 - 2^970 on. *)
Definition float_limit : Z := 2 ^ 1024 - 2 ^ 970.
Definition float_ok (n : Z) : bool := Z.abs n <? float_limit.

(** [re.fullmatch(r"SKU\d+", s)] as a test. *)
Definition fullmatch_sku (s : str) : bool :=
  match s with
  | "S" :: "K" :: "U" :: d :: ds => forallb isdigit (d :: ds)
  | _ => false
  end.

End Py.

Import Py.

(** ** Objects, the heap and the program state *)

Record Shoe := mkShoe {
  country : str;
  code : str;
  product : str;
  cost : Z;
  quantity : Z
}.

Definition get_cost (s : Shoe) : Z := cost s.
Definition get_quantity (s : Shoe) : Z := quantity s.

Definition set_quantity (q : Z) (s : Shoe) : Shoe :=
  mkShoe (country s) (code s) (product s) (cost s) q.

(** The exceptions the program can meet. [FileNotFoundError] is absent: its
    only source is the [open] of [read_shoes_data], which handles it. *)
Inductive exn := StopIteration | IndexError | ValueError | EOFError | OverflowError.

(** What [print] is given. The characters of a rendered shoe, table or
    amount are not spelled out. *)
Inductive output :=
| Print (msg : str)
| PrintShoe (shoe : Shoe)
| PrintTable (rows : list Shoe)
| PrintUpdated (q : Z)
| PrintValue (shoe_code : str) (value : Z)
| PrintSale (shoe : Shoe).

Record world := mkWorld {
  heap : list Shoe;
  shoe_list : list nat;
  inventory_txt : option str;
  stdin : list str;
  stdout : list output
}.

Definition set_heap (h : list Shoe) (w : world) : world :=
  mkWorld h (shoe_list w) (inventory_txt w) (stdin w) (stdout w).
Definition set_shoe_list (l : list nat) (w : world) : world :=
  mkWorld (heap w) l (inventory_txt w) (stdin w) (stdout w).
Definition set_inventory_txt (f : option str) (w : world) : world :=
  mkWorld (heap w) (shoe_list w) f (stdin w) (stdout w).
Definition set_stdin (i : list str) (w : world) : world :=
  mkWorld (heap w) (shoe_list w) (inventory_txt w) i (stdout w).
Definition set_stdout (o : list output) (w : world) : world :=
  mkWorld (heap w) (shoe_list w) (inventory_txt w) (stdin w) o.

(** The state of a fresh interpreter: nothing allocated, an empty
    [shoe_list], nothing printed. *)
Definition initial_world (file : option str) (input_lines : list str) : world :=
  mkWorld [] [] file input_lines [].

(** No reference of a Python program dangles; the default only makes the
    lookup total. *)
Definition no_object : Shoe := mkShoe [] [] [] 0 0.
Definition deref (h : list Shoe) (id : nat) : Shoe := default no_object (h !! id).

(** The Records of the store, in store order. *)
Definition store (w : world) : list Shoe := map (deref (heap w)) (shoe_list w).

(** ** A state and exception monad *)

Inductive outcome (A : Type) := Val (a : A) | Exc (e : exn).
Arguments Val {A} a.
Arguments Exc {A} e.

Definition M (A : Type) : Type := world -> outcome A * world.

Definition ret {A} (a : A) : M A := fun w => (Val a, w).
Definition bind {A B} (m : M A) (f : A -> M B) : M B :=
  fun w => match m w with
           | (Val a, w') => f a w'
           | (Exc e, w') => (Exc e, w')
           end.
Definition raise {A} (e : exn) : M A := fun w => (Exc e, w).

#[global] Instance M_ret : MRet M := @ret.
#[global] Instance M_bind : MBind M := fun A B f m => bind m f.

Definition get_world : M world := fun w => (Val w, w).
Definition modify (f : world -> world) : M unit := fun w => (Val tt, f w).

Definition print (o : output) : M unit :=
  modify (fun w => set_stdout (stdout w ++ [o]) w).

(** [input(prompt)]; the prompt text is not recorded. *)
Definition input : M str :=
  fun w => match stdin w with
           | [] => (Exc EOFError, w)
           | x :: rest => (Val x, set_stdin rest w)
           end.

(** [l[i]] *)
Definition getitem {A} (l : list A) (i : nat) : M A :=
  match l !! i with
  | Some a => ret a
  | None => raise IndexError
  end.

(** [int(s)] where a [ValueError] is not handled on the spot. *)
Definition int_or_raise (s : str) : M Z :=
  match int s with
  | Some n => ret n
  | None => raise ValueError
  end.

(** [Shoe(...)]: a new object. *)
Definition new_shoe (s : Shoe) : M nat :=
  fun w => (Val (length (heap w)), set_heap (heap w ++ [s]) w).

(** [shoe_list.append(obj)] *)
Definition shoe_list_append (id : nat) : M unit :=
  modify (fun w => set_shoe_list (shoe_list w ++ [id]) w).

Fixpoint for_each {A} (body : A -> M unit) (l : list A) : M unit :=
  match l with
  | [] => ret tt
  | a :: l' => body a ;; for_each body l'
  end.

(** *** Rendering numbers and shoes

    The texts are symbolic, so what is modelled of a rendering is whether
    it raises. *)

(** [format(n, ",.2f")] *)
Definition format_2f (n : Z) : M unit :=
  if float_ok n then ret tt else raise OverflowError.

(** [str(n)], also as [f"{n}"] *)
Definition str_int (n : Z) : M unit :=
  if str_ok n then ret tt else raise ValueError.

(** [Shoe.__str__]: the cost with two decimals, then the quantity. *)
Definition __str__ (self : Shoe) : M unit :=
  format_2f (cost self);; str_int (quantity self).

(** *** [while True: x = input(...) ...]

    Every input loop of the program reads one line per iteration and then
    either goes round again, leaves the loop with a value, or returns from
    the enclosing function. *)
Inductive ctl (A : Type) := Continue | Break (a : A) | Return.
Arguments Continue {A}.
Arguments Break {A} a.
Arguments Return {A}.

Fixpoint while_input {A} (body : str -> ctl A * list output) (lines : list str)
  : outcome (option A) * list str * list output :=
  match lines with
  | [] => (Exc EOFError, [], [])
  | x :: rest =>
      match body x with
      | (Continue, o) =>
          let '(r, rest', o') := while_input body rest in (r, rest', o ++ o')
      | (Break a, o) => (Val (Some a), rest, o)
      | (Return, o) => (Val None, rest, o)
      end
  end.

(** The loop run on the program state: [Some a] when the loop was left by
    [break], [None] when the function returned from inside it. *)
Definition prompt {A} (body : str -> ctl A * list output) : M (option A) :=
  fun w => let '(r, rest, o) := while_input body (stdin w) in
           (r, set_stdout (stdout w ++ o) (set_stdin rest w)).

(** ** Reading [inventory.txt] *)

Definition LF : ascii := "010".
Definition CR : ascii := "013".

(** A file opened for reading in text mode has its line ends translated:
    a carriage return, with the line feed that may follow it, reads as one
    line feed. *)
Fixpoint universal_newlines (s : str) : str :=
  match s with
  | [] => []
  | c :: s' =>
      if decide (c = CR) then
        match s' with
        | c' :: _ => if decide (c' = LF) then universal_newlines s'
                     else LF :: universal_newlines s'
        | [] => [LF]
        end
      else c :: universal_newlines s'
  end.

(** The lines a file object yields: each keeps its line feed, the last one
    may lack it. *)
Fixpoint file_lines (s : str) : list str :=
  match s with
  | [] => []
  | c :: s' =>
      if decide (c = LF) then [LF] :: file_lines s'
      else match file_lines s' with
           | l :: ls => (c :: l) :: ls
           | [] => [[c]]
           end
  end.

(** The body of [for line in file]. *)
Definition load_line (line : str) : M unit :=
  let line_split_up := split_comma (strip line) in
  country ← getitem line_split_up 0%nat;
  code ← getitem line_split_up 1%nat;
  product ← getitem line_split_up 2%nat;
  cost_field ← getitem line_split_up 3%nat;
  cost ← int_or_raise cost_field;
  quantity_field ← getitem line_split_up 4%nat;
  quantity ← int_or_raise quantity_field;
  obj ← new_shoe (mkShoe country code product cost quantity);
  shoe_list_append obj.

Definition file_not_found : str := lit "The file 'inventory.txt' was not found.".

Definition read_shoes_data : M unit :=
  fun w =>
    match inventory_txt w with
    | None => print (Print file_not_found) w
    | Some text =>
        match file_lines (universal_newlines text) with
        | [] => raise StopIteration w
        | _header :: lines => for_each load_line lines w
        end
    end.

(** ** Capturing a shoe *)

Definition cancel_capture (user_input : str) : bool * list output :=
  if decide (lower user_input = lit "x")
  then (true, [Print (lit "Capture cancelled.")])
  else (false, []).

Definition letters_and_spaces_body (invalid : str) (x : str) : ctl str * list output :=
  let value := title (strip x) in
  let (cancelled, o) := cancel_capture value in
  if cancelled then (Return, o)
  else if bool_decide (value = []) || negb (isalpha (remove_spaces value))
       then (Continue, [Print invalid])
       else (Break value, []).

Definition country_body : str -> ctl str * list output :=
  letters_and_spaces_body
    (lit "Invalid country. Please enter only letters and spaces.").

Definition product_body : str -> ctl str * list output :=
  letters_and_spaces_body
    (lit "Invalid product. Please enter only letters and spaces.").

Definition code_body (x : str) : ctl str * list output :=
  let code := upper (strip x) in
  let (cancelled, o) := cancel_capture code in
  if cancelled then (Return, o)
  else if negb (fullmatch_sku code)
       then (Continue,
             [Print (lit "Invalid code format. Code must start with 'SKU'followed by numbers (e.g., SKU12345).")])
       else (Break code, []).

Definition number_body (negative not_integer : str) (x : str) : ctl Z * list output :=
  let number_input := strip x in
  let (cancelled, o) := cancel_capture number_input in
  if cancelled then (Return, o)
  else match int number_input with
       | Some n => if n <? 0 then (Continue, [Print negative]) else (Break n, [])
       | None => (Continue, [Print not_integer])
       end.

Definition cost_body : str -> ctl Z * list output :=
  number_body (lit "Error: Cost cannot be negative")
              (lit "Error: Please enter a valid integer for cost").

Definition quantity_body : str -> ctl Z * list output :=
  number_body (lit "Error: Quantity cannot be negative.")
              (lit "Error: Please enter a valid integer for quantity.").

(** Run a prompt loop and go on with its value, or return from the
    function when the loop did. *)
Definition or_return {A} (m : M (option A)) (k : A -> M unit) : M unit :=
  r ← m; match r with Some a => k a | None => mret tt end.

Definition capture_shoes : M unit :=
  print (Print (LF :: lit "Enter 'x' at any time to cancel." ++ [LF]));;
  or_return (prompt country_body) (fun country =>
  or_return (prompt code_body) (fun code =>
  or_return (prompt product_body) (fun product =>
  or_return (prompt cost_body) (fun cost =>
  or_return (prompt quantity_body) (fun quantity =>
    obj ← new_shoe (mkShoe country code product cost quantity);
    shoe_list_append obj;;
    print (Print (lit "Shoe successfully captured."))))))).

(** ** Listing *)

(** The rows are built first, each with its cost rendered; [tabulate] then
    turns every cell into text, the quantities among them. *)
Definition view_all : M unit :=
  w ← get_world;
  for_each (fun shoe => format_2f (cost shoe)) (store w);;
  for_each (fun shoe => str_int (quantity shoe)) (store w);;
  print (PrintTable (store w)).

(** ** [sorted(l, key=..., reverse=...)]

    A stable sort that compares keys with [<] only. With [reverse] the list
    is reversed, sorted and reversed again, which keeps equal keys in their
    original order. *)
Section Sorted.
Context {A : Type} (key : A -> Z).

Fixpoint insert_by (x : A) (l : list A) : list A :=
  match l with
  | [] => [x]
  | y :: l' => if key y <? key x then y :: insert_by x l' else x :: y :: l'
  end.

Definition stable_sort (l : list A) : list A := fold_right insert_by [] l.

Definition sorted (l : list A) (reverse : bool) : list A :=
  if reverse then list.reverse (stable_sort (list.reverse l))
  else stable_sort l.
End Sorted.
Arguments sorted {A} key l reverse : simpl never.

(** ** Restocking *)

Definition quantity_of (w : world) (id : nat) : Z := get_quantity (deref (heap w) id).

Definition restock_body (restock_input : str) : ctl Z * list output :=
  if decide (lower restock_input = lit "x")
  then (Return, [Print (lit "Restock cancelled.")])
  else match int restock_input with
       | Some restock_amount =>
           if restock_amount <? 0
           then (Continue, [Print (lit "Error: Restock amount cannot be negative.")])
           else (Break restock_amount, [])
       | None => (Continue, [Print (lit "Error: Please enter a valid integer.")])
       end.

(** [obj.quantity += amount] *)
Definition add_quantity (id : nat) (amount : Z) : M unit :=
  modify (fun w =>
    set_heap (<[id := set_quantity (quantity (deref (heap w) id) + amount)
                                   (deref (heap w) id)]> (heap w)) w).

(** The loop over [enumerate(shoe_list)] that stores [lowest_stock_shoe] at
    the first position whose shoe has its code, and stops. *)
Fixpoint replace_first_match (h : list Shoe) (lowest_stock_shoe : nat) (l : list nat)
  : list nat :=
  match l with
  | [] => []
  | shoe :: l' =>
      if decide (code (deref h shoe) = code (deref h lowest_stock_shoe))
      then lowest_stock_shoe :: l'
      else shoe :: replace_first_match h lowest_stock_shoe l'
  end.

Definition header : str := lit "Country,Code,Product,Cost,Quantity".

Definition file_line (shoe : Shoe) : str :=
  country shoe ++ "," :: code shoe ++ "," :: product shoe ++ ","
    :: str_of_int (cost shoe) ++ "," :: str_of_int (quantity shoe) ++ [LF].

Definition file_text (shoes : list Shoe) : str :=
  header ++ LF :: concat (map file_line shoes).

(** [file.write(text)] on the file opened for writing. *)
Definition file_write (text : str) : M unit :=
  modify (fun w => set_inventory_txt (Some (default [] (inventory_txt w) ++ text)) w).

(** One turn of the loop that writes the shoes: the line is built, with
    both numbers rendered, before it is written. *)
Definition write_shoe (shoe : Shoe) : M unit :=
  str_int (cost shoe);; str_int (quantity shoe);; file_write (file_line shoe).

(** [with open("inventory.txt", "w") as file: ...]: the file is emptied
    when it is opened, and keeps what was written when a line cannot be
    built. *)
Definition write_inventory : M unit :=
  modify (set_inventory_txt (Some []));;
  file_write (header ++ [LF]);;
  w ← get_world;
  for_each write_shoe (store w).

(** What follows the amount loop. *)
Definition restock_commit (lowest_stock_shoe : nat) (restock_amount : Z) : M unit :=
  add_quantity lowest_stock_shoe restock_amount;;
  w ← get_world;
  str_int (quantity (deref (heap w) lowest_stock_shoe));;
  print (PrintUpdated (quantity (deref (heap w) lowest_stock_shoe)));;
  modify (fun w =>
    set_shoe_list (replace_first_match (heap w) lowest_stock_shoe (shoe_list w)) w);;
  write_inventory;;
  print (Print (lit "Inventory file updated successfully")).

(** The branch taken on the answer "Y". *)
Definition restock_confirmed (lowest_stock_shoe : nat) : M unit :=
  or_return (prompt restock_body) (restock_commit lowest_stock_shoe).

Definition lowest_stock_message : str :=
  LF :: lit "The following shoe has the lowest stock: ".

Definition re_stock : M unit :=
  w ← get_world;
  let shoe_list_ascending := sorted (quantity_of w) (shoe_list w) false in
  lowest_stock_shoe ← getitem shoe_list_ascending 0%nat;
  print (Print lowest_stock_message);;
  __str__ (deref (heap w) lowest_stock_shoe);;
  print (PrintShoe (deref (heap w) lowest_stock_shoe));;
  answer ← input;
  let request_restock := upper (strip answer) in
  if decide (request_restock = lit "Y")
  then restock_confirmed lowest_stock_shoe
  else print (Print (lit "Restock cancelled")).

(** ** Searching *)

(** The [for] loop with its [break]; the value is the [found] flag. *)
Fixpoint search_loop (shoe_code_input : str) (shoes : list Shoe) : M bool :=
  match shoes with
  | [] => mret false
  | shoe :: rest =>
      if decide (shoe_code_input = code shoe)
      then print (Print (lit "Shoe found!"));;
           __str__ shoe;;
           print (PrintShoe shoe);;
           mret true
      else search_loop shoe_code_input rest
  end.

Definition not_found : str := lit "Invalid code or shoe not found".

Definition search_shoe : M unit :=
  x ← input;
  let shoe_code_input := upper (strip x) in
  w ← get_world;
  found ← search_loop shoe_code_input (store w);
  if negb found then print (Print not_found) else mret tt.

(** ** Values and the item on sale *)

Definition value_per_item : M unit :=
  w ← get_world;
  for_each (fun shoe =>
              let value := cost shoe * quantity shoe in
              format_2f value;;
              print (PrintValue (code shoe) value))
           (store w).

Definition highest_qty : M unit :=
  w ← get_world;
  let shoe_list_descending := sorted (quantity_of w) (shoe_list w) true in
  first ← getitem shoe_list_descending 0%nat;
  __str__ (deref (heap w) first);;
  print (PrintSale (deref (heap w) first)).

(** ** The menu *)

(** [try: body except ValueError: handler] *)
Definition try_except_ValueError {A} (body handler : M A) : M A :=
  fun w => match body w with
           | (Exc ValueError, w') => handler w'
           | r => r
           end.

Definition dispatch (menu_input : Z) : M bool :=
  if decide (menu_input = 1) then view_all;; mret false
  else if decide (menu_input = 2) then capture_shoes;; mret false
  else if decide (menu_input = 3) then re_stock;; mret false
  else if decide (menu_input = 4) then search_shoe;; mret false
  else if decide (menu_input = 5) then value_per_item;; mret false
  else if decide (menu_input = 6) then highest_qty;; mret false
  else if decide (menu_input = 7) then print (Print (lit "Goodbye!"));; mret true
  else print (Print (lit "Invalid input given. Select a valid number"));; mret false.

(** One turn of the menu loop; [true] when the loop is left. *)
Definition menu_iteration : M bool :=
  try_except_ValueError
    (x ← input; menu_input ← int_or_raise x; dispatch menu_input)
    (print (Print (lit "Invalid input. Select a valid number"));; mret false).

(** The menu loop. Every turn reads at least one line, so a fuel above the
    number of pending lines is never used up ([None]). *)
Fixpoint menu_loop (fuel : nat) (w : world) : option (outcome unit * world) :=
  match fuel with
  | O => None
  | S fuel' =>
      match menu_iteration w with
      | (Val true, w') => Some (Val tt, w')
      | (Val false, w') => menu_loop fuel' w'
      | (Exc e, w') => Some (Exc e, w')
      end
  end.

(** The whole script on a file and the lines typed. *)
Definition program (file : option str) (input_lines : list str)
  : option (outcome unit * world) :=
  match read_shoes_data (initial_world file input_lines) with
  | (Val _, w) => menu_loop (S (length (stdin w))) w
  | (Exc e, w) => Some (Exc e, w)
  end.

(** ** Reachable states

    The states the running program can be in between two menu turns, for
    any file and anything typed. *)
Inductive reachable : world -> Prop :=
| reach_start file lines w :
    read_shoes_data (initial_world file lines) = (Val tt, w) -> reachable w
| reach_turn w lines w' :
    reachable w ->
    menu_iteration (set_stdin lines w) = (Val false, w') -> reachable w'.

(** ** Vocabulary of the statements *)

(** Lines of ASCII text. *)
Definition ascii_lines (lines : list str) : Prop :=
  Forall (fun x => isascii x = true) lines.

(** A Record whose country, code and product are ASCII text. *)
Definition ascii_shoe (shoe : Shoe) : Prop :=
  isascii (country shoe) = true /\ isascii (code shoe) = true /\
  isascii (product shoe) = true.

(** A Record that [str] can render: the cost converts to a float and the
    quantity is within the digit limit. *)
Definition printable (shoe : Shoe) : Prop :=
  float_ok (cost shoe) = true /\ str_ok (quantity shoe) = true.

(** A Record whose line can be written to the file: both numbers are
    within the digit limit. *)
Definition within_digits (shoe : Shoe) : Prop :=
  str_ok (cost shoe) = true /\ str_ok (quantity shoe) = true.

(** [x] sits at index [i] of [l], nothing in [l] has a smaller key, and
    everything before [i] has a larger one: the earliest minimum. *)
Definition first_min {A} (key : A -> Z) (l : list A) (i : nat) (x : A) : Prop :=
  l !! i = Some x /\
  (forall j y, l !! j = Some y -> key x <= key y) /\
  (forall j y, (j < i)%nat -> l !! j = Some y -> key x < key y).

(** The earliest maximum. *)
Definition first_max {A} (key : A -> Z) (l : list A) (i : nat) (x : A) : Prop :=
  l !! i = Some x /\
  (forall j y, l !! j = Some y -> key y <= key x) /\
  (forall j y, (j < i)%nat -> l !! j = Some y -> key y < key x).

(** The state once the lowest-stock shoe was shown and the answer read. *)
Definition restock_shown (lowest_stock_shoe : nat) (rest : list str) (w : world) : world :=
  set_stdin rest
    (set_stdout (stdout w ++ [Print lowest_stock_message;
                              PrintShoe (deref (heap w) lowest_stock_shoe)]) w).

(** Heap, store and file are those of [w]; only the streams may differ. *)
Definition unchanged (w w' : world) : Prop :=
  heap w' = heap w /\ shoe_list w' = shoe_list w /\
  inventory_txt w' = inventory_txt w.

(** A line that the amount loop of [re_stock] answers with an error
    message and a new prompt: not the cancel sentinel, and not a
    non-negative integer. *)
Definition restock_retry (x : str) : Prop :=
  lower x <> lit "x" /\ (int x = None \/ exists n, int x = Some n /\ n < 0).

(** The state a [restock_commit] that goes through leaves. *)
Definition restocked (lowest_stock_shoe : nat) (restock_amount : Z) (w : world) : world :=
  let shoe := deref (heap w) lowest_stock_shoe in
  let h := <[lowest_stock_shoe := set_quantity (quantity shoe + restock_amount) shoe]> (heap w) in
  let l := replace_first_match h lowest_stock_shoe (shoe_list w) in
  mkWorld h l (Some (file_text (map (deref h) l))) (stdin w)
    (stdout w ++ [PrintUpdated (quantity (deref h lowest_stock_shoe));
                  Print (lit "Inventory file updated successfully")]).

(** A Record that [re_stock] can show, raise by [a] and write: its numbers
    can be rendered, the quantity also once [a] is added. *)
Definition restockable (a : Z) (shoe : Shoe) : Prop :=
  printable shoe /\ within_digits shoe /\ str_ok (quantity shoe + a) = true.

(** ** Sample data *)

Definition nike : Shoe := mkShoe (lit "South Africa") (lit "SKU1") (lit "Nike") 100 5.
Definition adidas : Shoe := mkShoe (lit "USA") (lit "SKU1") (lit "Adidas") 200 1.

(** Two lines with the same code, the second with the lower stock. *)
Definition same_code_file : str :=
  header ++ LF :: lit "South Africa,SKU1,Nike,100,5" ++ LF
    :: lit "USA,SKU1,Adidas,200,1" ++ [LF].

(** A store with the quantities 5, 1, 9, 9. *)
Definition four_shoes : world :=
  mkWorld [mkShoe (lit "South Africa") (lit "SKU1") (lit "Nike") 100 5;
           mkShoe (lit "USA") (lit "SKU2") (lit "Adidas") 200 1;
           mkShoe (lit "Italy") (lit "SKU3") (lit "Puma") 300 9;
           mkShoe (lit "Spain") (lit "SKU4") (lit "Fila") 400 9]
          [0; 1; 2; 3]%nat None [] [].

(** One line whose code is in lower case. *)
Definition lower_case_file : str :=
  header ++ LF :: lit "South Africa,sku1001,Nike,1200,5" ++ [LF].

(** The cancel sentinel of [capture_shoes]: "x" in either case, spaces
    around it allowed. *)
Definition is_sentinel (x : str) : Prop := lower (strip x) = lit "x".

Definition letter_or_space (c : ascii) : Prop := isalpha_char c = true \/ c = " ".

(** A country or product that passed its prompt. *)
Definition valid_text (s : str) : Prop :=
  s <> [] /\ Forall letter_or_space s /\ lstrip s = s.

(** A code that passed its prompt: SKU and at least one digit. *)
Definition valid_code (s : str) : Prop :=
  exists d ds, s = lit "SKU" ++ d :: ds /\ Forall (fun c => isdigit c = true) (d :: ds).

Definition validated (shoe : Shoe) : Prop :=
  valid_text (country shoe) /\ valid_code (code shoe) /\
  valid_text (product shoe) /\ 0 <= cost shoe /\ 0 <= quantity shoe.

(** [w'] is [w] with one new object, appended to the store. *)
Definition appended (shoe : Shoe) (w w' : world) : Prop :=
  heap w' = heap w ++ [shoe] /\
  shoe_list w' = shoe_list w ++ [length (heap w)] /\
  inventory_txt w' = inventory_txt w.

(** A continuation that a sentinel typed next makes return with nothing
    changed, whenever it is waiting for input. *)
Definition cancels (k : M unit) : Prop :=
  forall w x rest,
    is_sentinel x -> (k w).1 = Exc EOFError ->
    exists w', k (set_stdin (stdin w ++ x :: rest) w) = (Val tt, w') /\
               unchanged w w' /\ stdin w' = rest.

(** A continuation that either changes nothing or appends one Record
    satisfying [ok]. *)
Definition appends_only (ok : Shoe -> Prop) (k : M unit) : Prop :=
  forall w r w',
    k w = (r, w') ->
    unchanged w w' \/ exists shoe, ok shoe /\ appended shoe w w' /\ r = Val tt.

(** A computation that reads [n] lines at least before it touches the
    heap. *)
Definition reads_before_heap (n : nat) (k : M unit) : Prop :=
  forall w r w', k w = (r, w') ->
    heap w' = heap w \/ (length (stdin w') + n <= length (stdin w))%nat.

Definition non_negative (shoe : Shoe) : Prop := 0 <= cost shoe /\ 0 <= quantity shoe.

(** [four_shoes] with country, code and product typed: [capture_shoes]
    is waiting at the cost prompt. *)
Definition waiting_for_cost : world :=
  set_stdin [lit " south africa"; lit "sku12"; lit "nike air"] four_shoes.

(** ** Lines and fields of [inventory.txt] *)

(** A line without the line feed that may end it. *)
Fixpoint chomp (line : str) : str :=
  match line with
  | [] => []
  | c :: rest =>
      match rest with
      | [] => if decide (c = LF) then [] else [c]
      | _ => c :: chomp rest
      end
  end.

(** The comma-separated fields of a line of the file. *)
Definition line_fields (line : str) : list str := split_comma (chomp line).

(** The fields [load_line] reads from a line: those of the stripped
    line. *)
Definition fields_read (line : str) : list str := split_comma (strip line).

(** Fewer than five fields, or a fourth or fifth field that [int]
    rejects. *)
Definition malformed (line : str) : Prop :=
  (length (fields_read line) < 5)%nat \/
  (exists f, fields_read line !! 3%nat = Some f /\ int f = None) \/
  (exists f, fields_read line !! 4%nat = Some f /\ int f = None).

(** [f] applied to the first, respectively the last, element only. *)
Definition map_head {A} (f : A -> A) (l : list A) : list A :=
  match l with
  | [] => []
  | x :: l' => f x :: l'
  end.

Fixpoint map_last {A} (f : A -> A) (l : list A) : list A :=
  match l with
  | [] => []
  | x :: l' =>
      match l' with
      | [] => [f x]
      | _ => x :: map_last f l'
      end
  end.

(** [w] with one more object, appended to the store. *)
Definition with_shoe (shoe : Shoe) (w : world) : world :=
  set_shoe_list (shoe_list w ++ [length (heap w)]) (set_heap (heap w ++ [shoe]) w).

(** The text of a field that can stand in a line of the file. *)
Definition plain (s : str) : Prop := ("," ∉ s) /\ (LF ∉ s) /\ (CR ∉ s).

(** A good line, then one with four fields only. *)
Definition short_line_file : str :=
  header ++ LF :: lit "South Africa,SKU1,Nike,100,5" ++ LF
    :: lit "USA,SKU2,Adidas,200" ++ [LF].

(** The value of a decimal numeral, most significant digit first, on top
    of [acc]. *)
Fixpoint uint_value (acc : Z) (u : Decimal.uint) : Z :=
  match u with
  | Nil => acc
  | D0 u => uint_value (10 * acc + 0) u
  | D1 u => uint_value (10 * acc + 1) u
  | D2 u => uint_value (10 * acc + 2) u
  | D3 u => uint_value (10 * acc + 3) u
  | D4 u => uint_value (10 * acc + 4) u
  | D5 u => uint_value (10 * acc + 5) u
  | D6 u => uint_value (10 * acc + 6) u
  | D7 u => uint_value (10 * acc + 7) u
  | D8 u => uint_value (10 * acc + 8) u
  | D9 u => uint_value (10 * acc + 9) u
  end.

(** One data line of the file as its five fields. *)
Record Row := mkRow {
  row_country : str;
  row_code : str;
  row_product : str;
  row_cost : str;
  row_quantity : str
}.

Definition row_line (r : Row) : str :=
  row_country r ++ "," :: row_code r ++ "," :: row_product r ++ ","
    :: row_cost r ++ "," :: row_quantity r.

(** Five fields without comma or line end, the last two being integers. *)
Definition valid_row (r : Row) : Prop :=
  plain (row_country r) /\ plain (row_code r) /\ plain (row_product r) /\
  plain (row_cost r) /\ plain (row_quantity r) /\
  is_Some (int (row_cost r)) /\ is_Some (int (row_quantity r)).

(** A row of ASCII text. *)
Definition ascii_row (r : Row) : Prop :=
  isascii (row_country r) = true /\ isascii (row_code r) = true /\
  isascii (row_product r) = true /\ isascii (row_cost r) = true /\
  isascii (row_quantity r) = true.

(** The Record a valid row is loaded as. *)
Definition row_shoe (r : Row) : Shoe :=
  mkShoe (lstrip (row_country r)) (row_code r) (row_product r)
         (default 0 (int (row_cost r))) (default 0 (int (row_quantity r))).

(** A text file from its lines, each ended by a line feed. *)
Definition text_of_lines (lines : list str) : str :=
  concat (map (fun line => line ++ [LF]) lines).

(** A backing file: a header line and one line per row; the line feed
    after the last line may be missing. *)
Definition inventory_text (head : str) (rows : list Row) (final_newline : bool) : str :=
  let text := text_of_lines (head :: map row_line rows) in
  if final_newline then text else removelast text.

(** The row [re_stock] writes for a Record. *)
Definition shoe_row (shoe : Shoe) : Row :=
  mkRow (country shoe) (code shoe) (product shoe)
        (str_of_int (cost shoe)) (str_of_int (quantity shoe)).

(** A Record whose text fields can be written and read back: no comma or
    line end in them, no white space in front of the country. *)
Definition file_safe (shoe : Shoe) : Prop :=
  plain (country shoe) /\ plain (code shoe) /\ plain (product shoe) /\
  lstrip (country shoe) = country shoe.

(** Every reference of the store points into the heap. *)
Definition well_formed (w : world) : Prop :=
  Forall (fun id => (id < length (heap w))%nat) (shoe_list w).

(** A row whose country starts with a space. *)
Definition spaced_row : Row :=
  mkRow (lit " ZA") (lit "SKU1") (lit "Nike") (lit "100") (lit "5").

(** [h] after [lowest_stock_shoe.quantity += a]. *)
Definition bumped (lowest_stock_shoe : nat) (a : Z) (h : list Shoe) : list Shoe :=
  <[lowest_stock_shoe := set_quantity (quantity (deref h lowest_stock_shoe) + a)
                                      (deref h lowest_stock_shoe)]> h.

(** What one operation of the menu can do to heap and store: nothing, the
    append of a validated Record, or the quantity of one shoe of the store
    raised, with or without the write-back into the store. (A restock that
    stops at a number it cannot render has raised the quantity already.) *)
Definition evolves (w w' : world) : Prop :=
  unchanged w w' \/
  (exists shoe, validated shoe /\ appended shoe w w') \/
  (exists lowest_stock_shoe a,
      lowest_stock_shoe ∈ shoe_list w /\ 0 <= a /\
      heap w' = bumped lowest_stock_shoe a (heap w) /\
      (shoe_list w' = shoe_list w \/
       shoe_list w' = replace_first_match (heap w') lowest_stock_shoe (shoe_list w))).

(** A line as a file object yields it: no carriage return, and no line
    feed but the one that may end it. *)
Definition file_line_shape (line : str) : Prop := (CR ∉ line) /\ (LF ∉ chomp line).

(** The invariant of the running program: the references of the store
    point into the heap, and every object can be written to the file and
    read back. *)
Definition state_ok (w : world) : Prop :=
  well_formed w /\ Forall file_safe (heap w).

(** The state after loading [same_code_file]. *)
Definition loaded_sample : world :=
  (read_shoes_data (initial_world (Some same_code_file) [])).2.

(** One shoe whose cost is the least integer that does not convert to a
    float. *)
Definition priceless : world :=
  mkWorld [mkShoe (lit "ZA") (lit "SKU1") (lit "Nike") (2 ^ 1024 - 2 ^ 970) 5]
          [0%nat] None [] [].

(** What an operation of the menu can raise in state [w]: the end of the
    input, a [ValueError] (which the menu handles), an [IndexError] on the
    empty store, or an [OverflowError] when a cost or a value of the store
    does not convert to a float. *)
Definition may_raise (w : world) (e : exn) : Prop :=
  e = EOFError \/ e = ValueError \/ (e = IndexError /\ shoe_list w = []) \/
  (e = OverflowError /\
   exists shoe, shoe ∈ store w /\
     (float_ok (cost shoe) = false \/ float_ok (cost shoe * quantity shoe) = false)).

(** A computation whose only exception is the end of the input. *)
Definition only_eof {A} (k : M A) : Prop :=
  forall w e w', k w = (Exc e, w') -> e = EOFError.

(** A computation that may read lines but never puts any back. *)
Definition reads_only {A} (k : M A) : Prop :=
  forall w r w', k w = (r, w') -> (length (stdin w') <= length (stdin w))%nat.

(** The data lines of a file: all its lines but the first. *)
Definition data_lines (text : str) : list str :=
  tail (file_lines (universal_newlines text)).

(** A line the country and product prompts accept: not the sentinel, and
    letters and spaces with at least one letter once stripped. *)
Definition accepted_text (x : str) : Prop :=
  ~ is_sentinel x /\ isalpha (remove_spaces (title (strip x))) = true.

(** A line the code prompt accepts. *)
Definition accepted_code (x : str) : Prop := fullmatch_sku (upper (strip x)) = true.

(** A range within which an integer converts to a float, so that
    [format(n, ",.2f")] renders it. *)
Definition float_range (n : Z) : Prop := - 2 ^ 1023 < n < 2 ^ 1023.

(** Every cost, and every value cost times quantity, of the store can be
    rendered with two decimals. *)
Definition renderable (w : world) : Prop :=
  Forall (fun shoe => float_range (cost shoe) /\
                      float_range (cost shoe * quantity shoe)) (store w).

(** * Properties *)

(** Unfolds the monad so that a run can be computed step by step. *)
Ltac unfold_monad :=
  unfold or_return, prompt, print, modify, get_world, getitem,
    int_or_raise, new_shoe, shoe_list_append, input, raise,
    mbind, mret, M_bind, M_ret, bind, ret in *.

(** Runs the first step of a [bind] whose result is known. *)
Lemma bind_val {A B} (m : M A) (f : A -> M B) w a w1 :
  m w = (Val a, w1) -> (m ≫= f) w = f a w1.
Proof. intros H. unfold mbind, M_bind, bind. by rewrite H. Qed.

Lemma bind_exc {A B} (m : M A) (f : A -> M B) w e w1 :
  m w = (Exc e, w1) -> (m ≫= f) w = (Exc e, w1).
Proof. intros H. unfold mbind, M_bind, bind. by rewrite H. Qed.

(** ** Rendering *)

Lemma float_limit_bound : 2 ^ 1023 < float_limit.
Proof. vm_compute. reflexivity. Qed.

Lemma float_range_ok n : float_range n -> float_ok n = true.
Proof.
  intros [Hlo Hhi]. unfold float_ok. apply Z.ltb_lt.
  pose proof float_limit_bound as Hb.
  remember (2 ^ 1023) as b. remember float_limit as l. lia.
Qed.

Lemma format_2f_ok n w : float_ok n = true -> format_2f n w = (Val tt, w).
Proof. intros H. unfold format_2f. by rewrite H. Qed.

Lemma str_int_ok n w : str_ok n = true -> str_int n w = (Val tt, w).
Proof. intros H. unfold str_int. by rewrite H. Qed.

Lemma str_int_fail n w : str_ok n = false -> str_int n w = (Exc ValueError, w).
Proof. intros H. unfold str_int. by rewrite H. Qed.

(** A rendering does not touch the state, and raises nothing but
    [OverflowError] and [ValueError]. *)
Lemma format_2f_cases n w r w' :
  format_2f n w = (r, w') ->
  w' = w /\ (r = Val tt \/ (r = Exc OverflowError /\ float_ok n = false)).
Proof.
  unfold format_2f, ret, raise. destruct (float_ok n); intros [= <- <-]; eauto.
Qed.

Lemma str_int_cases n w r w' :
  str_int n w = (r, w') -> w' = w /\ (r = Val tt \/ r = Exc ValueError).
Proof.
  unfold str_int, ret, raise. destruct (str_ok n); intros [= <- <-]; eauto.
Qed.

Lemma str_printable shoe w : printable shoe -> __str__ shoe w = (Val tt, w).
Proof.
  intros [Hc Hq]. unfold __str__.
  rewrite (bind_val _ _ _ _ _ (format_2f_ok _ w Hc)).
  by apply str_int_ok.
Qed.

Lemma str_cases shoe w r w' :
  __str__ shoe w = (r, w') ->
  w' = w /\
  (r = Val tt \/ r = Exc ValueError \/
   (r = Exc OverflowError /\ float_ok (cost shoe) = false)).
Proof.
  unfold __str__, mbind, M_bind, bind.
  destruct (format_2f (cost shoe) w) as [r1 w1] eqn:H1.
  apply format_2f_cases in H1 as [-> [->|[-> Hc]]].
  - intros [-> [->| ->]]%str_int_cases; eauto.
  - intros [= <- <-]. eauto.
Qed.

(** ** The sort and the picks of [re_stock] and [highest_qty] *)

Section SortedFacts.
Context {A : Type} (key : A -> Z).

Lemma insert_by_length x l : length (insert_by key x l) = S (length l).
Proof.
  induction l as [|y l IH]; simpl; [reflexivity|].
  destruct (key y <? key x); simpl; congruence.
Qed.

Lemma stable_sort_length l : length (stable_sort key l) = length l.
Proof.
  induction l as [|a l IH]; simpl; [reflexivity|].
  rewrite insert_by_length. congruence.
Qed.

Lemma insert_by_perm x l : insert_by key x l ≡ₚ x :: l.
Proof.
  induction l as [|y l IH]; simpl; [reflexivity|].
  destruct (key y <? key x); [|reflexivity].
  rewrite IH. apply Permutation_swap.
Qed.

Lemma stable_sort_perm l : stable_sort key l ≡ₚ l.
Proof.
  induction l as [|a l IH]; simpl; [reflexivity|].
  rewrite insert_by_perm. by rewrite IH.
Qed.

Lemma insert_by_sorted x l :
  StronglySorted (fun a b => key a <= key b) l ->
  StronglySorted (fun a b => key a <= key b) (insert_by key x l).
Proof.
  induction 1 as [|y l Hs IH Hy]; simpl.
  - repeat constructor.
  - destruct (Z.ltb_spec (key y) (key x)).
    + constructor; [exact IH|].
      rewrite insert_by_perm. constructor; [lia|exact Hy].
    + constructor; [by constructor|].
      constructor; [lia|].
      eapply Forall_impl; [exact Hy|]. simpl. intros. lia.
Qed.

Lemma stable_sort_sorted l :
  StronglySorted (fun a b => key a <= key b) (stable_sort key l).
Proof.
  induction l as [|a l IH]; simpl; [constructor|].
  by apply insert_by_sorted.
Qed.

Lemma stable_sort_nil_inv l : stable_sort key l = [] -> l = [].
Proof.
  intros H. apply (f_equal length) in H.
  rewrite stable_sort_length in H. by destruct l.
Qed.

(** The head of the sorted list is the earliest minimum. *)
Lemma stable_sort_head l :
  l <> [] -> exists i x, stable_sort key l !! 0%nat = Some x /\ first_min key l i x.
Proof.
  induction l as [|a l IH]; [done|]. intros _.
  destruct l as [|b l].
  { exists 0%nat, a. split; [done|]. split; [done|]. split.
    - intros [|j] y Hy; simplify_eq/=; lia.
    - intros j y Hj. lia. }
  destruct IH as (i & m & Hm & Hi & Hle & Hlt); [done|].
  change (stable_sort key (a :: b :: l))
    with (insert_by key a (stable_sort key (b :: l))).
  destruct (stable_sort key (b :: l)) as [|m' s] eqn:Hs; [done|].
  simpl in Hm. simplify_eq. simpl.
  destruct (Z.ltb_spec (key m) (key a)).
  - exists (S i), m. split; [done|]. split; [done|]. split.
    + intros [|j] y Hy; simplify_eq/=; [lia|]. eauto.
    + intros [|j] y Hj Hy; simplify_eq/=; [lia|].
      eapply Hlt; [|done]. lia.
  - exists 0%nat, a. split; [done|]. split; [done|]. split.
    + intros [|j] y Hy; simplify_eq/=; [lia|].
      specialize (Hle _ _ Hy). lia.
    + intros j y Hj. lia.
Qed.

Lemma insert_by_last x m s :
  Forall (fun y => key y <= key m) s ->
  last s = Some m ->
  last (insert_by key x s) = Some (if key m <? key x then x else m).
Proof.
  induction s as [|y s IH]; [done|].
  intros Hall Hlast. apply Forall_cons in Hall as [Hy Hall]. simpl.
  destruct (Z.ltb_spec (key y) (key x)).
  - destruct s as [|z s].
    + simpl in Hlast. simplify_eq. simpl.
      destruct (Z.ltb_spec (key m) (key x)); [done|lia].
    + rewrite last_cons_cons in Hlast.
      rewrite last_cons. rewrite (IH Hall Hlast). done.
  - rewrite last_cons_cons. rewrite Hlast.
    destruct (Z.ltb_spec (key m) (key x)); [lia|done].
Qed.

(** The last element of the sorted reversal is the earliest maximum. *)
Lemma stable_sort_reverse_last l :
  l <> [] ->
  exists i x, last (stable_sort key (reverse l)) = Some x /\ first_max key l i x.
Proof.
  induction l as [|a l IH] using rev_ind; [done|]. intros _.
  rewrite reverse_snoc. simpl.
  destruct l as [|b l].
  { exists 0%nat, a. split; [done|]. split; [done|]. split.
    - intros [|j] y Hy; simplify_eq/=; lia.
    - intros j y Hj. lia. }
  destruct IH as (i & m & Hm & Hi & Hle & Hlt); [done|].
  rewrite (insert_by_last a m).
  - destruct (Z.ltb_spec (key m) (key a)).
    + exists (length (b :: l)), a. split; [done|]. split.
      { rewrite lookup_app_r; [|done]. by rewrite Nat.sub_diag. }
      split.
      * intros j y Hy. apply lookup_app_Some in Hy as [Hy|[_ Hy]].
        -- specialize (Hle _ _ Hy). lia.
        -- destruct (j - length (b :: l))%nat as [|k]; simplify_eq/=; lia.
      * intros j y Hj Hy. rewrite lookup_app_l in Hy; [|done].
        specialize (Hle _ _ Hy). lia.
    + exists i, m. split; [done|]. split.
      { by apply lookup_app_l_Some. }
      split.
      * intros j y Hy. apply lookup_app_Some in Hy as [Hy|[_ Hy]]; [eauto|].
        destruct (j - length (b :: l))%nat as [|k]; simplify_eq/=; lia.
      * intros j y Hj Hy. apply lookup_lt_Some in Hi.
        rewrite lookup_app_l in Hy; [eauto|lia].
  - apply Forall_forall. intros y Hy.
    rewrite stable_sort_perm, elem_of_reverse in Hy.
    apply list_elem_of_lookup in Hy as [j Hy]. eauto.
  - exact Hm.
Qed.

Lemma sorted_ascending_pick l :
  l <> [] -> exists i x, sorted key l false !! 0%nat = Some x /\ first_min key l i x.
Proof. apply stable_sort_head. Qed.

Lemma sorted_descending_pick l :
  l <> [] -> exists i x, sorted key l true !! 0%nat = Some x /\ first_max key l i x.
Proof.
  intros Hl. destruct (stable_sort_reverse_last l Hl) as (i & x & Hx & Hi).
  exists i, x. split; [|done].
  unfold sorted. by rewrite <- head_lookup, head_reverse.
Qed.
End SortedFacts.

(** ** Running [re_stock] up to the confirmation *)

Lemma re_stock_run w answer rest lowest_stock_shoe :
  sorted (quantity_of w) (shoe_list w) false !! 0%nat = Some lowest_stock_shoe ->
  printable (deref (heap w) lowest_stock_shoe) ->
  re_stock (set_stdin (answer :: rest) w) =
    (if decide (upper (strip answer) = lit "Y")
     then restock_confirmed lowest_stock_shoe
     else print (Print (lit "Restock cancelled")))
      (restock_shown lowest_stock_shoe rest w).
Proof.
  intros Hpick Hprint. unfold re_stock, restock_shown. unfold_monad. simpl.
  change (quantity_of (set_stdin (answer :: rest) w)) with (quantity_of w).
  rewrite Hpick. simpl. rewrite (str_printable _ _ Hprint). simpl.
  rewrite <- app_assoc. simpl.
  unfold set_stdin, set_stdout. simpl.
  by destruct (decide (upper (strip answer) = lit "Y")).
Qed.

(** The state when the shoe was shown and no answer is there to read. *)
Lemma re_stock_eof w lowest_stock_shoe :
  sorted (quantity_of w) (shoe_list w) false !! 0%nat = Some lowest_stock_shoe ->
  printable (deref (heap w) lowest_stock_shoe) ->
  re_stock (set_stdin [] w) = (Exc EOFError, restock_shown lowest_stock_shoe [] w).
Proof.
  intros Hpick Hprint. unfold re_stock, restock_shown. unfold_monad. simpl.
  change (quantity_of (set_stdin [] w)) with (quantity_of w).
  rewrite Hpick. simpl. rewrite (str_printable _ _ Hprint). simpl.
  rewrite <- app_assoc. simpl.
  unfold set_stdin, set_stdout. simpl. reflexivity.
Qed.

Lemma re_stock_empty w : shoe_list w = [] -> re_stock w = (Exc IndexError, w).
Proof. intros H. unfold re_stock. unfold_monad. by rewrite H. Qed.

Lemma highest_qty_empty w : shoe_list w = [] -> highest_qty w = (Exc IndexError, w).
Proof. intros H. unfold highest_qty. unfold_monad. by rewrite H. Qed.

Lemma first_min_store w i id :
  first_min (quantity_of w) (shoe_list w) i id ->
  first_min quantity (store w) i (deref (heap w) id).
Proof.
  intros (Hi & Hle & Hlt). unfold store. split; [|split].
  - by rewrite list_lookup_fmap, Hi.
  - intros j y Hy. rewrite list_lookup_fmap in Hy.
    destruct (shoe_list w !! j) as [id'|] eqn:Hj; simplify_eq/=. exact (Hle _ _ Hj).
  - intros j y Hlt' Hy. rewrite list_lookup_fmap in Hy.
    destruct (shoe_list w !! j) as [id'|] eqn:Hj; simplify_eq/=. exact (Hlt _ _ Hlt' Hj).
Qed.

Lemma first_max_store w i id :
  first_max (quantity_of w) (shoe_list w) i id ->
  first_max quantity (store w) i (deref (heap w) id).
Proof.
  intros (Hi & Hle & Hlt). unfold store. split; [|split].
  - by rewrite list_lookup_fmap, Hi.
  - intros j y Hy. rewrite list_lookup_fmap in Hy.
    destruct (shoe_list w !! j) as [id'|] eqn:Hj; simplify_eq/=. exact (Hle _ _ Hj).
  - intros j y Hlt' Hy. rewrite list_lookup_fmap in Hy.
    destruct (shoe_list w !! j) as [id'|] eqn:Hj; simplify_eq/=. exact (Hlt _ _ Hlt' Hj).
Qed.

Lemma store_lookup w i id :
  shoe_list w !! i = Some id -> store w !! i = Some (deref (heap w) id).
Proof. intros H. unfold store. by rewrite list_lookup_fmap, H. Qed.

Lemma store_elem w id : id ∈ shoe_list w -> deref (heap w) id ∈ store w.
Proof. intros H. unfold store. by apply list_elem_of_fmap_2. Qed.

(** ** Input loops *)

Section Loops.
Context {A : Type} (body : str -> ctl A * list output).

Lemma while_input_retry retries lines :
  Forall (fun x => (body x).1 = Continue) retries ->
  exists o, while_input body (retries ++ lines) =
            let '(r, rest, o') := while_input body lines in (r, rest, o ++ o').
Proof.
  induction 1 as [|x retries Hx _ [o IH]]; simpl.
  - exists []. by destruct (while_input body lines) as [[r rest] o'].
  - destruct (body x) as [c ox]. simpl in Hx. subst c. rewrite IH.
    exists (ox ++ o).
    destruct (while_input body lines) as [[r rest] o'].
    by rewrite app_assoc.
Qed.

Lemma while_input_exc lines e rest o :
  while_input body lines = (Exc e, rest, o) -> e = EOFError /\ rest = [].
Proof.
  revert o. induction lines as [|x lines IH]; simpl; intros o H.
  - by simplify_eq.
  - destruct (body x) as [[|a|] ox]; [|done..].
    destruct (while_input body lines) as [[r rest'] o'].
    simplify_eq. by eapply IH.
Qed.

Lemma while_input_length lines r rest o :
  while_input body lines = (r, rest, o) -> (length rest <= length lines)%nat.
Proof.
  revert o. induction lines as [|x lines IH]; simpl; intros o H.
  - by simplify_eq.
  - destruct (body x) as [[|a|] ox]; simplify_eq; [|lia..].
    destruct (while_input body lines) as [[r' rest'] o'].
    simplify_eq. specialize (IH _ eq_refl). lia.
Qed.

Lemma while_input_val_length lines v rest o :
  while_input body lines = (Val v, rest, o) -> (length rest < length lines)%nat.
Proof.
  revert o. induction lines as [|x lines IH]; simpl; intros o H; [done|].
  destruct (body x) as [[|a|] ox]; simplify_eq; [|lia..].
  destruct (while_input body lines) as [[r' rest'] o'].
  simplify_eq. specialize (IH _ eq_refl). lia.
Qed.

(** A loop that ran out of input goes on with the lines that follow. *)
Lemma while_input_more pre post e rest o :
  while_input body pre = (Exc e, rest, o) ->
  while_input body (pre ++ post) =
    let '(r, rest', o') := while_input body post in (r, rest', o ++ o').
Proof.
  revert o. induction pre as [|x pre IH]; simpl; intros o H.
  - simplify_eq. by destruct (while_input body post) as [[r rest'] o'].
  - destruct (body x) as [[|a|] ox]; [|done..].
    destruct (while_input body pre) as [[r' rest'] o'] eqn:Hpre.
    simplify_eq. rewrite (IH _ eq_refl).
    destruct (while_input body post) as [[r rest''] o''].
    by rewrite app_assoc.
Qed.

(** A loop that was left does not look at the lines that follow. *)
Lemma while_input_left pre post v rest o :
  while_input body pre = (Val v, rest, o) ->
  while_input body (pre ++ post) = (Val v, rest ++ post, o).
Proof.
  revert o. induction pre as [|x pre IH]; simpl; intros o H; [done|].
  destruct (body x) as [[|a|] ox]; simplify_eq; [|done..].
  destruct (while_input body pre) as [[r' rest'] o'] eqn:Hpre.
  simplify_eq. by rewrite (IH _ eq_refl).
Qed.
Lemma while_input_break_inv lines a rest o :
  while_input body lines = (Val (Some a), rest, o) ->
  exists x ox, x ∈ lines /\ body x = (Break a, ox).
Proof.
  revert o. induction lines as [|x lines IH]; simpl; intros o H; [done|].
  destruct (body x) as [[|b|] ox] eqn:Hx; simplify_eq.
  - destruct (while_input body lines) as [[r' rest'] o'] eqn:Hl. simplify_eq.
    destruct (IH _ eq_refl) as (y & oy & Hy & Hby).
    exists y, oy. split; [by right|done].
  - exists x. eexists. split; [by left|exact Hx].
Qed.
End Loops.

(** ** Characters and the cancel sentinel *)

Lemma lower_char_x c : lower_char c = "x" -> c = "x" \/ c = "X".
Proof.
  destruct c as [[] [] [] [] [] [] [] []]; vm_compute; intros H;
    first [discriminate H | by left | by right].
Qed.

Lemma lower_x_inv s : lower s = lit "x" -> s = lit "x" \/ s = lit "X".
Proof.
  destruct s as [|c [|c' s]]; try done. intros H.
  injection H as H. apply lower_char_x in H as [->| ->]; [by left|by right].
Qed.

Lemma lower_x_not_int s : lower s = lit "x" -> int s = None.
Proof. intros [->| ->]%lower_x_inv; reflexivity. Qed.

(** ** The dialogue of [re_stock] *)

Lemma restock_retry_continue x : restock_retry x -> (restock_body x).1 = Continue.
Proof.
  intros [Hx Hint]. unfold restock_body.
  destruct (decide (lower x = lit "x")) as [|_]; [done|].
  destruct Hint as [->|(n & -> & Hn)]; [done|].
  by destruct (Z.ltb_spec n 0); [|lia].
Qed.

Lemma restock_body_amount x a :
  int x = Some a -> 0 <= a -> restock_body x = (Break a, []).
Proof.
  intros Hint Ha. unfold restock_body.
  destruct (decide (lower x = lit "x")) as [Hx|_].
  { apply lower_x_not_int in Hx. congruence. }
  rewrite Hint. by destruct (Z.ltb_spec a 0); [lia|].
Qed.

(** *** Writing the file *)

Lemma file_write_run text w :
  file_write text w
  = (Val tt, set_inventory_txt (Some (default [] (inventory_txt w) ++ text)) w).
Proof. reflexivity. Qed.

Lemma write_shoe_run shoe w :
  within_digits shoe ->
  write_shoe shoe w
  = (Val tt, set_inventory_txt (Some (default [] (inventory_txt w) ++ file_line shoe)) w).
Proof.
  intros [Hc Hq]. unfold write_shoe.
  rewrite (bind_val _ _ _ _ _ (str_int_ok _ w Hc)).
  rewrite (bind_val _ _ _ _ _ (str_int_ok _ w Hq)).
  reflexivity.
Qed.

Lemma write_shoe_fail shoe w :
  ~ within_digits shoe -> write_shoe shoe w = (Exc ValueError, w).
Proof.
  intros Hbad. unfold write_shoe.
  destruct (str_ok (cost shoe)) eqn:Hc.
  - rewrite (bind_val _ _ _ _ _ (str_int_ok _ w Hc)).
    destruct (str_ok (quantity shoe)) eqn:Hq; [by destruct Hbad|].
    by rewrite (bind_exc _ _ _ _ _ (str_int_fail _ w Hq)).
  - by rewrite (bind_exc _ _ _ _ _ (str_int_fail _ w Hc)).
Qed.

Lemma within_digits_dec shoe : within_digits shoe \/ ~ within_digits shoe.
Proof.
  unfold within_digits.
  destruct (str_ok (cost shoe)), (str_ok (quantity shoe)); intuition congruence.
Qed.

(** The loop writes the lines of the shoes up to the first one that cannot
    be rendered, and touches nothing but the file. *)
Lemma for_each_write_shoe shoes w t :
  inventory_txt w = Some t ->
  exists r text,
    for_each write_shoe shoes w = (r, set_inventory_txt (Some (t ++ text)) w) /\
    (r = Val tt \/ r = Exc ValueError) /\
    (r = Val tt <-> Forall within_digits shoes) /\
    (r = Val tt -> text = concat (map file_line shoes)).
Proof.
  revert w t. induction shoes as [|shoe shoes IH]; intros w t Ht; simpl.
  - exists (Val tt), []. rewrite app_nil_r. split.
    { unfold mret, M_ret, ret. f_equal. destruct w; simpl in *; by subst. }
    split; [by left|]. split; [by split|done].
  - destruct (within_digits_dec shoe) as [Hok|Hbad].
    + rewrite (bind_val _ _ _ _ _ (write_shoe_run shoe w Hok)), Ht. simpl.
      destruct (IH (set_inventory_txt (Some (t ++ file_line shoe)) w) (t ++ file_line shoe))
        as (r & text & Hrun & Hr & Hiff & Htext); [done|].
      exists r, (file_line shoe ++ text). rewrite Hrun. split.
      { unfold set_inventory_txt. simpl. by rewrite <- app_assoc. }
      split; [done|]. split.
      * rewrite Hiff. split; [by constructor|by intros [_ ?]%Forall_cons].
      * intros Hv. by rewrite (Htext Hv).
    + rewrite (bind_exc _ _ _ _ _ (write_shoe_fail shoe w Hbad)).
      exists (Exc ValueError), []. rewrite app_nil_r. split.
      { f_equal. destruct w; simpl in *; by subst. }
      split; [by right|]. split; [|done].
      split; [done|]. by intros [? _]%Forall_cons.
Qed.

Lemma write_inventory_run w :
  exists r text,
    write_inventory w = (r, set_inventory_txt (Some text) w) /\
    (r = Val tt \/ r = Exc ValueError) /\
    (r = Val tt <-> Forall within_digits (store w)) /\
    (r = Val tt -> text = file_text (store w)).
Proof.
  unfold write_inventory. unfold mbind at 1 2 3, M_bind at 1 2 3, bind at 1 2 3.
  unfold modify, file_write, get_world. simpl.
  destruct (for_each_write_shoe (store w)
              (set_inventory_txt (Some (header ++ [LF])) (set_inventory_txt (Some []) w))
              (header ++ [LF]) eq_refl) as (r & text & Hrun & Hr & Hiff & Htext).
  exists r, ((header ++ [LF]) ++ text). split; [exact Hrun|].
  split; [done|]. split; [done|].
  intros Hv. rewrite (Htext Hv). unfold file_text. by rewrite <- app_assoc.
Qed.

(** *** The commit *)

(** Whatever happens in [restock_commit], the quantity has been raised;
    it ends well exactly when the new quantity and every number of the new
    store can be rendered, and then leaves [restocked]. *)
Lemma restock_commit_effect lowest_stock_shoe restock_amount w :
  exists r w' o,
    restock_commit lowest_stock_shoe restock_amount w = (r, w') /\
    heap w' = bumped lowest_stock_shoe restock_amount (heap w) /\
    (shoe_list w' = shoe_list w \/
     shoe_list w' = replace_first_match (heap w') lowest_stock_shoe (shoe_list w)) /\
    stdin w' = stdin w /\ stdout w' = stdout w ++ o /\
    (r = Val tt \/ r = Exc ValueError) /\
    (str_ok (quantity (deref (bumped lowest_stock_shoe restock_amount (heap w))
                             lowest_stock_shoe)) = true ->
     exists o', o = PrintUpdated (quantity (deref (bumped lowest_stock_shoe restock_amount
                                                          (heap w)) lowest_stock_shoe)) :: o') /\
    (r = Val tt <->
       str_ok (quantity (deref (bumped lowest_stock_shoe restock_amount (heap w))
                               lowest_stock_shoe)) = true /\
       Forall within_digits (store (restocked lowest_stock_shoe restock_amount w))) /\
    (r = Val tt -> w' = restocked lowest_stock_shoe restock_amount w).
Proof.
  unfold restock_commit.
  unfold mbind at 1 2 3, M_bind at 1 2 3, bind at 1 2 3.
  unfold add_quantity, modify, get_world. cbn [heap set_heap].
  fold (bumped lowest_stock_shoe restock_amount (heap w)).
  set (h := bumped lowest_stock_shoe restock_amount (heap w)).
  destruct (str_ok (quantity (deref h lowest_stock_shoe))) eqn:Hq.
  2:{ rewrite (str_int_fail _ _ Hq).
      exists (Exc ValueError), (set_heap h w), []. split; [done|].
      split; [done|]. split; [by left|]. split; [done|].
      split; [by rewrite app_nil_r|]. split; [by right|].
      split; [done|]. split; [|done]. split; [done|]. by intros [? _]. }
  rewrite (str_int_ok _ _ Hq).
  unfold mbind at 1 2, M_bind at 1 2, bind at 1 2. unfold print at 1, modify.
  set (w2 := set_shoe_list _ _).
  destruct (write_inventory_run w2) as (r & text & Hrun & Hr & Hiff & Htext).
  destruct Hr as [->| ->].
  - rewrite (bind_val _ _ _ _ _ Hrun).
    eexists (Val tt), _, _. split; [reflexivity|].
    split; [done|]. split; [by right|]. split; [done|].
    split; [unfold print, modify; cbn; by rewrite <- app_assoc|].
    split; [by left|]. split; [intros _; by eexists|].
    split; [split; [intros _; split; [done|]; by apply Hiff|done]|].
    intros _. rewrite (Htext eq_refl). unfold restocked, print, modify. cbn.
    fold h. by rewrite <- app_assoc.
  - rewrite (bind_exc _ _ _ _ _ Hrun).
    eexists (Exc ValueError), _, _. split; [reflexivity|].
    split; [done|]. split; [by right|]. split; [done|].
    split; [reflexivity|]. split; [by right|]. split; [intros _; by eexists|].
    split; [|done]. split; [done|]. intros [_ Hw]. by apply Hiff in Hw.
Qed.

Lemma restock_commit_run lowest_stock_shoe restock_amount w :
  str_ok (quantity (deref (bumped lowest_stock_shoe restock_amount (heap w))
                          lowest_stock_shoe)) = true ->
  Forall within_digits (store (restocked lowest_stock_shoe restock_amount w)) ->
  restock_commit lowest_stock_shoe restock_amount w
  = (Val tt, restocked lowest_stock_shoe restock_amount w).
Proof.
  intros Hq Hw.
  destruct (restock_commit_effect lowest_stock_shoe restock_amount w)
    as (r & w' & o & Hrun & _ & _ & _ & _ & _ & _ & Hiff & Hval).
  assert (r = Val tt) as -> by (by apply Hiff).
  by rewrite Hrun, (Hval eq_refl).
Qed.

(** A confirmed restock: error lines, then an amount. *)
Lemma restock_confirmed_amount lowest_stock_shoe retries amount a rest w :
  Forall restock_retry retries -> int amount = Some a -> 0 <= a ->
  exists o,
    restock_confirmed lowest_stock_shoe (set_stdin (retries ++ amount :: rest) w)
    = restock_commit lowest_stock_shoe a (set_stdin rest (set_stdout (stdout w ++ o) w)).
Proof.
  intros Hretries Hint Ha.
  destruct (while_input_retry restock_body retries (amount :: rest)) as [o Ho].
  { eapply Forall_impl; [exact Hretries|]. apply restock_retry_continue. }
  exists o. unfold restock_confirmed, or_return, prompt.
  unfold mbind, M_bind, bind. simpl. rewrite Ho. simpl.
  rewrite (restock_body_amount _ _ Hint Ha). by rewrite app_nil_r.
Qed.

Lemma restock_body_break_inv x a o : restock_body x = (Break a, o) -> 0 <= a.
Proof.
  unfold restock_body. destruct (decide (lower x = lit "x")) as [|_]; [done|].
  destruct (int x) as [n|]; [|done].
  destruct (Z.ltb_spec n 0); [done|]. by intros [= <- <-].
Qed.

(** What the amount loop and the commit can do: nothing to heap, store
    and file, or the quantity of the shoe raised by an amount that is not
    negative. *)
Lemma restock_confirmed_effect lowest_stock_shoe w :
  exists r w' o,
    restock_confirmed lowest_stock_shoe w = (r, w') /\
    stdout w' = stdout w ++ o /\
    (length (stdin w') <= length (stdin w))%nat /\
    (r = Val tt \/ r = Exc ValueError \/ r = Exc EOFError) /\
    (unchanged w w' \/
     exists a, 0 <= a /\ heap w' = bumped lowest_stock_shoe a (heap w) /\
               (shoe_list w' = shoe_list w \/
                shoe_list w' = replace_first_match (heap w') lowest_stock_shoe (shoe_list w))).
Proof.
  unfold restock_confirmed, or_return, prompt, mbind, M_bind, bind.
  destruct (while_input restock_body (stdin w)) as [[[[a|]|e] rest0] o] eqn:Hloop.
  - destruct (while_input_break_inv _ _ _ _ _ Hloop) as (x & ox & _ & Hx).
    apply restock_body_break_inv in Hx.
    apply while_input_length in Hloop.
    destruct (restock_commit_effect lowest_stock_shoe a
                (set_stdout (stdout w ++ o) (set_stdin rest0 w)))
      as (r & w' & o' & Hrun & Hh & Hl & Hin & Hout & Hr & _).
    exists r, w', (o ++ o'). split; [exact Hrun|]. simpl in *.
    split; [by rewrite Hout, app_assoc|]. split; [by rewrite Hin|].
    split; [destruct Hr as [->| ->]; eauto|].
    right. exists a. done.
  - apply while_input_length in Hloop.
    eexists _, _, o. split; [reflexivity|]. simpl.
    split; [done|]. split; [done|]. split; [by left|]. by left.
  - destruct (while_input_exc _ _ _ _ _ Hloop) as [-> ->].
    eexists _, _, o. split; [reflexivity|]. simpl.
    split; [done|]. split; [lia|]. split; [by right; right|]. by left.
Qed.

(** [re_stock] on a store that is not empty whose picked shoe can be
    rendered: the shoe is shown, and then nothing happens to heap, store
    and file, or the quantity of that shoe is raised. *)
Lemma re_stock_shows w lowest_stock_shoe lines :
  sorted (quantity_of w) (shoe_list w) false !! 0%nat = Some lowest_stock_shoe ->
  printable (deref (heap w) lowest_stock_shoe) ->
  exists r w' o,
    re_stock (set_stdin lines w) = (r, w') /\
    stdout w' = stdout w ++ Print lowest_stock_message
                  :: PrintShoe (deref (heap w) lowest_stock_shoe) :: o /\
    (length (stdin w') <= length lines)%nat /\
    (r = Val tt \/ r = Exc ValueError \/ r = Exc EOFError) /\
    (unchanged w w' \/
     exists a, 0 <= a /\ heap w' = bumped lowest_stock_shoe a (heap w) /\
               (shoe_list w' = shoe_list w \/
                shoe_list w' = replace_first_match (heap w') lowest_stock_shoe (shoe_list w))).
Proof.
  intros Hpick Hprint. destruct lines as [|answer rest].
  { rewrite (re_stock_eof _ _ Hpick Hprint). eexists _, _, []. split; [reflexivity|].
    simpl. split; [done|]. split; [done|]. split; [by right; right|]. by left. }
  rewrite (re_stock_run _ _ _ _ Hpick Hprint).
  destruct (decide (upper (strip answer) = lit "Y")) as [_|_].
  - destruct (restock_confirmed_effect lowest_stock_shoe
                (restock_shown lowest_stock_shoe rest w))
      as (r & w' & o & Hrun & Hout & Hin & Hr & Heff).
    exists r, w', o. split; [exact Hrun|]. simpl in *.
    split; [by rewrite Hout, <- app_assoc|]. split; [lia|]. split; [done|].
    destruct Heff as [(Hh & Hl & Hf)|Heff]; [left; by repeat split|by right].
  - eexists _, _, [Print (lit "Restock cancelled")]. split; [reflexivity|]. simpl.
    split; [by rewrite <- app_assoc|]. split; [lia|]. split; [by left|]. by left.
Qed.

Lemma highest_qty_run w first :
  sorted (quantity_of w) (shoe_list w) true !! 0%nat = Some first ->
  printable (deref (heap w) first) ->
  highest_qty w
  = (Val tt, set_stdout (stdout w ++ [PrintSale (deref (heap w) first)]) w).
Proof.
  intros Hpick Hprint. unfold highest_qty. unfold_monad. simpl.
  rewrite Hpick. simpl. by rewrite (str_printable _ _ Hprint).
Qed.

Lemma printable_pick w id :
  Forall printable (store w) -> id ∈ shoe_list w -> printable (deref (heap w) id).
Proof.
  intros Hall Hin. rewrite Forall_forall in Hall. by apply Hall, store_elem.
Qed.

(** C7. On a store that is not empty, whose Records can be rendered,
    [highest_qty] prints the earliest Record of maximal quantity, and
    [re_stock] shows the earliest Record of minimal quantity; whatever is
    typed then, no object but that one is changed, and its quantity can
    only be raised. *)
Theorem lowest_and_highest_pick (w : world) :
  shoe_list w <> [] -> Forall printable (store w) -> Forall ascii_shoe (store w) ->
  exists i lowest j highest,
    first_min quantity (store w) i lowest /\
    first_max quantity (store w) j highest /\
    highest_qty w = (Val tt, set_stdout (stdout w ++ [PrintSale highest]) w) /\
    (forall lines, ascii_lines lines ->
       exists r w' o,
         re_stock (set_stdin lines w) = (r, w') /\
         stdout w' = stdout w ++ Print lowest_stock_message :: PrintShoe lowest :: o /\
         (heap w' = heap w \/
          exists id a, shoe_list w !! i = Some id /\ 0 <= a /\
                       heap w' = bumped id a (heap w))).
Proof.
  intros Hne Hprint _.
  destruct (sorted_ascending_pick (quantity_of w) _ Hne) as (i & lo & Hlo & Hmin).
  destruct (sorted_descending_pick (quantity_of w) _ Hne) as (j & hi & Hhi & Hmax).
  pose proof Hmin as (Hi & _). pose proof Hmax as (Hj & _).
  exists i, (deref (heap w) lo), j, (deref (heap w) hi).
  split; [by apply first_min_store|]. split; [by apply first_max_store|]. split.
  - apply highest_qty_run; [done|].
    apply printable_pick; [done|]. by eapply list_elem_of_lookup_2.
  - intros lines _.
    destruct (re_stock_shows w lo lines Hlo) as (r & w' & o & Hrun & Hout & _ & _ & Heff).
    { apply printable_pick; [done|]. by eapply list_elem_of_lookup_2. }
    exists r, w', o. split; [done|]. split; [done|].
    destruct Heff as [(Hh & _)|(a & Ha & Hh & _)]; [by left|].
    right. by exists lo, a.
Qed.

Lemma lookup_deref h id shoe : h !! id = Some shoe -> deref h id = shoe.
Proof. intros H. unfold deref. by rewrite H. Qed.

Lemma bumped_insert h id shoe a :
  h !! id = Some shoe ->
  bumped id a h = <[id := set_quantity (quantity shoe + a) shoe]> h /\
  quantity (deref (bumped id a h) id) = quantity shoe + a.
Proof.
  intros H. unfold bumped. rewrite (lookup_deref _ _ _ H). split; [done|].
  unfold deref. rewrite list_lookup_insert_eq; [done|]. by eapply lookup_lt_Some.
Qed.

Lemma well_formed_lookup w id :
  well_formed w -> id ∈ shoe_list w -> heap w !! id = Some (deref (heap w) id).
Proof.
  intros Hwf Hin. unfold well_formed in Hwf. rewrite Forall_forall in Hwf.
  destruct (lookup_lt_is_Some_2 (heap w) id (Hwf _ Hin)) as [shoe Hs].
  by rewrite (lookup_deref _ _ _ Hs).
Qed.

(** C9. On a store that is not empty, whose Records can be rendered, the
    answer is accepted exactly when its stripped, upper-cased form is "Y".
    Any other answer ends the operation at once: no further line is read,
    and heap, store and file are as they were. After "Y" the next line is
    read as the amount: without one the input has ended, and with an
    integer that is not negative the quantity of the shoe shown is raised
    by it. *)
Theorem restock_confirmation (w : world) (answer : str) (rest : list str) :
  well_formed w -> shoe_list w <> [] ->
  Forall printable (store w) -> Forall ascii_shoe (store w) ->
  isascii answer = true -> ascii_lines rest ->
  exists i id lowest,
    shoe_list w !! i = Some id /\ heap w !! id = Some lowest /\
    first_min quantity (store w) i lowest /\
    (upper (strip answer) <> lit "Y" ->
       exists w',
         re_stock (set_stdin (answer :: rest) w) = (Val tt, w') /\
         unchanged w w' /\ store w' = store w /\ stdin w' = rest /\
         stdout w' = stdout w ++ [Print lowest_stock_message; PrintShoe lowest;
                                  Print (lit "Restock cancelled")]) /\
    (upper (strip answer) = lit "Y" ->
       (rest = [] ->
          exists w',
            re_stock (set_stdin [answer] w) = (Exc EOFError, w') /\
            unchanged w w' /\
            stdout w' = stdout w ++ [Print lowest_stock_message; PrintShoe lowest]) /\
       (forall amount a rest',
          rest = amount :: rest' -> int amount = Some a -> 0 <= a ->
          Forall (fun shoe => str_ok (quantity shoe + a) = true) (store w) ->
          exists r w' o,
            re_stock (set_stdin (answer :: rest) w) = (r, w') /\
            heap w' = <[id := set_quantity (quantity lowest + a) lowest]> (heap w) /\
            stdin w' = rest' /\
            stdout w' = stdout w ++ [Print lowest_stock_message; PrintShoe lowest;
                                     PrintUpdated (quantity lowest + a)] ++ o)).
Proof.
  intros Hwf Hne Hprint _ _ _.
  destruct (sorted_ascending_pick (quantity_of w) _ Hne) as (i & lo & Hlo & Hmin).
  pose proof Hmin as (Hi & _).
  assert (lo ∈ shoe_list w) as Hin by (by eapply list_elem_of_lookup_2).
  pose proof (printable_pick w lo Hprint Hin) as Hplo.
  pose proof (well_formed_lookup w lo Hwf Hin) as Hheap.
  exists i, lo, (deref (heap w) lo).
  split; [done|]. split; [done|]. split; [by apply first_min_store|].
  split; [|split].
  - intros Hno. rewrite (re_stock_run _ _ _ _ Hlo Hplo).
    destruct (decide (upper (strip answer) = lit "Y")); [done|].
    eexists. split; [reflexivity|]. simpl.
    split; [done|]. split; [done|]. split; [done|].
    by rewrite <- app_assoc.
  - intros ->. rewrite (re_stock_run _ _ _ _ Hlo Hplo).
    destruct (decide (upper (strip answer) = lit "Y")); [|done].
    unfold restock_confirmed, or_return, prompt, mbind, M_bind, bind. cbn.
    eexists. split; [reflexivity|]. cbn. split; [done|]. by rewrite app_nil_r.
  - intros amount a rest' -> Hint Ha Hdigits.
    rewrite (re_stock_run _ _ _ _ Hlo Hplo).
    destruct (decide (upper (strip answer) = lit "Y")); [|done].
    destruct (restock_confirmed_amount lo [] amount a rest'
                (restock_shown lo [] w)) as [o0 Hconf]; [done..|].
    assert (restock_confirmed lo (restock_shown lo (amount :: rest') w)
            = restock_commit lo a (restock_shown lo rest' w)) as ->.
    { unfold restock_confirmed, or_return, prompt, mbind, M_bind, bind.
      cbn [stdin restock_shown set_stdin while_input].
      rewrite (restock_body_amount _ _ Hint Ha). cbn.
      unfold restock_shown, set_stdout, set_stdin. cbn. by rewrite app_nil_r. }
    destruct (restock_commit_effect lo a (restock_shown lo rest' w))
      as (r & w' & o & Hrun & Hh & _ & Hstdin & Hout & _ & Hupd & _).
    cbn [heap restock_shown set_stdin set_stdout] in Hh, Hupd.
    destruct (bumped_insert _ _ _ a Hheap) as [Hb Hq].
    rewrite Hq in Hupd. destruct Hupd as [o' ->].
    { rewrite Forall_forall in Hdigits. by apply Hdigits, store_elem. }
    exists r, w', o'. split; [done|]. split; [by rewrite Hh, Hb|].
    split; [done|]. rewrite Hout. simpl. by rewrite <- app_assoc.
Qed.

Lemma restock_confirmation_witness :
  (exists i id lowest,
      shoe_list four_shoes !! i = Some id /\ heap four_shoes !! id = Some lowest /\
      exists w',
        re_stock (set_stdin [lit "yes"; lit "5"] four_shoes) = (Val tt, w') /\
        unchanged four_shoes w' /\ store w' = store four_shoes /\
        stdin w' = [lit "5"] /\
        stdout w' = stdout four_shoes ++
                    [Print lowest_stock_message; PrintShoe lowest;
                     Print (lit "Restock cancelled")]) /\
  (exists i id lowest,
      shoe_list four_shoes !! i = Some id /\ heap four_shoes !! id = Some lowest /\
      exists r w' o,
        re_stock (set_stdin [lit " y "; lit "5"] four_shoes) = (r, w') /\
        heap w' = <[id := set_quantity (quantity lowest + 5) lowest]> (heap four_shoes) /\
        stdin w' = [] /\
        stdout w' = stdout four_shoes ++
                    [Print lowest_stock_message; PrintShoe lowest;
                     PrintUpdated (quantity lowest + 5)] ++ o).
Proof.
  assert (well_formed four_shoes) as Hwf by (repeat constructor; simpl; lia).
  assert (shoe_list four_shoes <> []) as Hne by (simpl; discriminate).
  assert (Forall printable (store four_shoes)) as Hp by (repeat constructor).
  assert (Forall ascii_shoe (store four_shoes)) as Ha by (repeat constructor).
  split.
  - destruct (restock_confirmation four_shoes (lit "yes") [lit "5"] Hwf Hne Hp Ha)
      as (i & id & lowest & Hi & Hid & _ & Hdecline & _);
      [reflexivity|repeat constructor|].
    exists i, id, lowest. split; [exact Hi|]. split; [exact Hid|].
    apply Hdecline. vm_compute. discriminate.
  - destruct (restock_confirmation four_shoes (lit " y ") [lit "5"] Hwf Hne Hp Ha)
      as (i & id & lowest & Hi & Hid & _ & _ & Haccept);
      [reflexivity|repeat constructor|].
    exists i, id, lowest. split; [exact Hi|]. split; [exact Hid|].
    destruct (Haccept eq_refl) as [_ Hamount].
    apply (Hamount (lit "5") 5 []); [reflexivity|reflexivity|lia|].
    repeat constructor.
Defined.

(** ** Restocking when two shoes share a code *)

(** C1, at a store with a repeated code. The file lists Nike and Adidas
    under the code SKU1, Adidas with the lower stock. Restocking by 3 turns
    the Adidas quantity into 4 and then stores the Adidas object at the
    first position that carries its code, which is the Nike position: the
    Nike Record is lost and the store holds the Adidas Record twice. *)
Theorem restock_overwrites_same_code :
  exists w w',
    read_shoes_data (initial_world (Some same_code_file) []) = (Val tt, w) /\
    store w = [nike; adidas] /\
    re_stock (set_stdin [lit "Y"; lit "3"] w) = (Val tt, w') /\
    store w' = [set_quantity 4 adidas; set_quantity 4 adidas] /\
    shoe_list w' = [1%nat; 1%nat].
Proof. do 2 eexists. repeat split; vm_compute; reflexivity. Qed.

(** ** The empty store *)

Lemma menu_iteration_run x rest w n :
  int x = Some n ->
  menu_iteration (set_stdin (x :: rest) w) =
    try_except_ValueError (dispatch n)
      (print (Print (lit "Invalid input. Select a valid number"));; mret false)
      (set_stdin rest w).
Proof.
  intros Hint. unfold menu_iteration, try_except_ValueError. unfold_monad.
  cbn [stdin set_stdin]. by rewrite Hint.
Qed.

Lemma menu_restock_empty w rest :
  shoe_list w = [] ->
  menu_iteration (set_stdin (lit "3" :: rest) w) = (Exc IndexError, set_stdin rest w).
Proof.
  intros H. rewrite (menu_iteration_run _ _ _ 3); [|done].
  unfold try_except_ValueError, dispatch. simpl. unfold_monad.
  rewrite (re_stock_empty (set_stdin rest w)); done.
Qed.

Lemma menu_highest_empty w rest :
  shoe_list w = [] ->
  menu_iteration (set_stdin (lit "6" :: rest) w) = (Exc IndexError, set_stdin rest w).
Proof.
  intros H. rewrite (menu_iteration_run _ _ _ 6); [|done].
  unfold try_except_ValueError, dispatch. simpl. unfold_monad.
  rewrite (highest_qty_empty (set_stdin rest w)); done.
Qed.

(** C2, at the empty store. With no [inventory.txt] the load reports the
    missing file and leaves an empty store; the selections 3 and 6 then
    index an empty sorted list, and the [IndexError] is not handled by the
    menu, which only handles [ValueError]: the script ends with it. *)
Theorem empty_store_selection_raises :
  exists w,
    read_shoes_data (initial_world None []) = (Val tt, w) /\
    store w = [] /\
    (exists w', menu_iteration (set_stdin [lit "3"] w) = (Exc IndexError, w')) /\
    (exists w', menu_iteration (set_stdin [lit "6"] w) = (Exc IndexError, w')) /\
    (exists w', program None [lit "3"] = Some (Exc IndexError, w')) /\
    (exists w', program None [lit "6"] = Some (Exc IndexError, w')).
Proof. eexists. repeat split; try (eexists; vm_compute; reflexivity). Qed.

Lemma first_min_unique {A} (key : A -> Z) l i x i' x' :
  first_min key l i x -> first_min key l i' x' -> i = i' /\ x = x'.
Proof.
  intros (Hi & Hle & Hlt) (Hi' & Hle' & Hlt').
  destruct (Nat.lt_trichotomy i i') as [H|[->|H]].
  - specialize (Hlt' _ _ H Hi). specialize (Hle _ _ Hi'). lia.
  - split; [done|]. congruence.
  - specialize (Hlt _ _ H Hi'). specialize (Hle' _ _ Hi). lia.
Qed.

Lemma first_max_unique {A} (key : A -> Z) l i x i' x' :
  first_max key l i x -> first_max key l i' x' -> i = i' /\ x = x'.
Proof.
  intros (Hi & Hle & Hlt) (Hi' & Hle' & Hlt').
  destruct (Nat.lt_trichotomy i i') as [H|[->|H]].
  - specialize (Hlt' _ _ H Hi). specialize (Hle _ _ Hi'). lia.
  - split; [done|]. congruence.
  - specialize (Hlt _ _ H Hi'). specialize (Hle' _ _ Hi). lia.
Qed.

(** The quantities 5, 1, 9, 9: the earliest minimum is the second Record,
    the earliest maximum the third, the first of the two with quantity 9. *)
Example picks_5_1_9_9 :
  map quantity (store four_shoes) = [5; 1; 9; 9] /\
  first_min quantity (store four_shoes) 1
    (mkShoe (lit "USA") (lit "SKU2") (lit "Adidas") 200 1) /\
  first_max quantity (store four_shoes) 2
    (mkShoe (lit "Italy") (lit "SKU3") (lit "Puma") 300 9).
Proof.
  split; [reflexivity|].
  split; (split; [reflexivity|]); split.
  - intros [|[|[|[|j]]]] y Hy; simplify_eq/=; lia.
  - intros [|[|j]] y Hj Hy; simplify_eq/=; lia.
  - intros [|[|[|[|j]]]] y Hy; simplify_eq/=; lia.
  - intros [|[|[|j]]] y Hj Hy; simplify_eq/=; lia.
Qed.

Lemma lowest_and_highest_pick_witness :
  highest_qty four_shoes
  = (Val tt, set_stdout [PrintSale (mkShoe (lit "Italy") (lit "SKU3") (lit "Puma") 300 9)]
                        four_shoes) /\
  exists r w' o,
    re_stock (set_stdin [lit "n"] four_shoes) = (r, w') /\
    stdout w' = Print lowest_stock_message
                  :: PrintShoe (mkShoe (lit "USA") (lit "SKU2") (lit "Adidas") 200 1) :: o.
Proof.
  destruct (lowest_and_highest_pick four_shoes)
    as (i & lowest & j & highest & Hmin & Hmax & Hhigh & Hlow).
  - simpl. discriminate.
  - repeat constructor.
  - repeat constructor.
  - destruct picks_5_1_9_9 as (_ & Hmin' & Hmax').
    destruct (first_min_unique _ _ _ _ _ _ Hmin Hmin') as [-> ->].
    destruct (first_max_unique _ _ _ _ _ _ Hmax Hmax') as [-> ->].
    split; [exact Hhigh|].
    destruct (Hlow [lit "n"]) as (r & w' & o & Hrun & Hout & _).
    { repeat constructor. }
    exists r, w', o. split; [exact Hrun|exact Hout].
Defined.

(** ** Searching *)

(** The loop prints at most the two lines of a match and changes nothing
    else; what it can raise comes from rendering the match. *)
Lemma search_loop_effect c shoes w r w' :
  search_loop c shoes w = (r, w') ->
  (exists o, w' = set_stdout (stdout w ++ o) w) /\
  (r = Val true \/ r = Val false \/ r = Exc ValueError \/
   (r = Exc OverflowError /\ exists shoe, shoe ∈ shoes /\ float_ok (cost shoe) = false)).
Proof.
  induction shoes as [|shoe shoes IH]; simpl.
  - unfold mret, M_ret, ret. intros [= <- <-]. split; [|by right; left].
    exists []. rewrite app_nil_r. by destruct w.
  - destruct (decide (c = code shoe)) as [_|_].
    + unfold mbind, M_bind, bind, print at 1, modify.
      destruct (__str__ shoe _) as [r1 w1] eqn:Hstr.
      apply str_cases in Hstr as [-> Hr1].
      destruct Hr1 as [->|[->|[-> Hc]]].
      * unfold print, modify, mret, M_ret, ret. intros [= <- <-]. split; [|by left].
        exists [Print (lit "Shoe found!"); PrintShoe shoe].
        unfold set_stdout. simpl. by rewrite <- app_assoc.
      * intros [= <- <-]. split; [by eexists|]. by right; right; left.
      * intros [= <- <-]. split; [by eexists|]. right; right; right.
        split; [done|]. exists shoe. split; [by left|done].
    + intros Hrun. destruct (IH Hrun) as [Ho Hr]. split; [done|].
      destruct Hr as [->|[->|[->|[-> (s & Hs & Hc)]]]]; eauto 6.
      right; right; right. split; [done|]. exists s. split; [by right|done].
Qed.

Lemma search_loop_missing c shoes w :
  (forall shoe, shoe ∈ shoes -> code shoe <> c) ->
  search_loop c shoes w = (Val false, w).
Proof.
  induction shoes as [|shoe shoes IH]; intros Hall; simpl; [done|].
  destruct (decide (c = code shoe)) as [Hc|_].
  - exfalso. apply (Hall shoe); [by left|done].
  - apply IH. intros s Hs. apply Hall. by right.
Qed.

Lemma search_loop_found c shoes w i shoe :
  shoes !! i = Some shoe -> code shoe = c ->
  (forall j other, (j < i)%nat -> shoes !! j = Some other -> code other <> c) ->
  printable shoe ->
  search_loop c shoes w
  = (Val true, set_stdout (stdout w ++ [Print (lit "Shoe found!"); PrintShoe shoe]) w).
Proof.
  intros Hi Hc Hfirst Hprint. revert i Hi Hfirst.
  induction shoes as [|s shoes IH]; intros i Hi Hfirst; [done|]. simpl.
  destruct i as [|i]; simpl in Hi.
  - simplify_eq. destruct (decide (code shoe = code shoe)); [|done].
    unfold mbind, M_bind, bind, print at 1, modify.
    rewrite (str_printable _ _ Hprint). unfold print, modify, mret, M_ret, ret.
    unfold set_stdout. simpl. by rewrite <- app_assoc.
  - destruct (decide (c = code s)) as [Heq|_].
    + exfalso. apply (Hfirst 0%nat s); [lia|done|done].
    + apply (IH i Hi). intros j other Hj Hother.
      apply (Hfirst (S j) other); [lia|done].
Qed.

(** Among the Records with a given code there is a first one. *)
Lemma first_match (c : str) (shoes : list Shoe) :
  (exists shoe, shoe ∈ shoes /\ code shoe = c) ->
  exists i shoe,
    shoes !! i = Some shoe /\ code shoe = c /\
    (forall j other, (j < i)%nat -> shoes !! j = Some other -> code other <> c).
Proof.
  induction shoes as [|s shoes IH].
  { intros (shoe & Hin & _). by apply elem_of_nil in Hin. }
  intros (shoe & Hin & Hc).
  destruct (decide (code s = c)) as [Hs|Hs].
  - exists 0%nat, s. repeat split; [done|]. intros j other Hj. lia.
  - apply elem_of_cons in Hin as [->|Hin]; [done|].
    destruct IH as (i & found & Hi & Hfc & Hfirst); [by eauto|].
    exists (S i), found. repeat split; [done..|].
    intros [|j] other Hj Hother; simplify_eq/=; [done|].
    eapply Hfirst; [|done]. lia.
Qed.

Lemma search_shoe_run w x rest :
  search_shoe (set_stdin (x :: rest) w)
  = (found ← search_loop (upper (strip x)) (store w);
     if negb found then print (Print not_found) else mret tt) (set_stdin rest w).
Proof. reflexivity. Qed.

Lemma search_shoe_found w x rest i shoe :
  store w !! i = Some shoe -> code shoe = upper (strip x) ->
  (forall j other, (j < i)%nat -> store w !! j = Some other ->
                   code other <> upper (strip x)) ->
  printable shoe ->
  search_shoe (set_stdin (x :: rest) w)
  = (Val tt, set_stdin rest
               (set_stdout (stdout w ++ [Print (lit "Shoe found!"); PrintShoe shoe]) w)).
Proof.
  intros Hi Hc Hfirst Hprint. rewrite search_shoe_run.
  by rewrite (bind_val _ _ _ _ _
                (search_loop_found _ _ (set_stdin rest w) i shoe Hi Hc Hfirst Hprint)).
Qed.

Lemma search_shoe_missing w x rest :
  (forall shoe, shoe ∈ store w -> code shoe <> upper (strip x)) ->
  search_shoe (set_stdin (x :: rest) w)
  = (Val tt, set_stdin rest (set_stdout (stdout w ++ [Print not_found]) w)).
Proof.
  intros Hall. rewrite search_shoe_run.
  by rewrite (bind_val _ _ _ _ _ (search_loop_missing _ _ (set_stdin rest w) Hall)).
Qed.

(** C8, as stated, fails on a code that is not in upper case: the Record
    loaded from the line "South Africa,sku1001,Nike,1200,5" is in the
    store, and searching for its own code reports a miss, because the
    input is upper-cased and the stored code is not. *)
Lemma search_misses_lower_case_code :
  exists w shoe w',
    read_shoes_data (initial_world (Some lower_case_file) []) = (Val tt, w) /\
    store w = [shoe] /\
    search_shoe (set_stdin [code shoe] w) = (Val tt, w') /\
    stdout w' = [Print not_found].
Proof. do 3 eexists. repeat split; vm_compute; reflexivity. Qed.

(** C8 (amended). On a line of ASCII text, and a store whose Records can
    be rendered, [search_shoe] strips and upper-cases the line it reads and
    reports the first Record, in store order, whose code equals the result,
    or a miss when there is none; heap, store and file stay as they were.
    In particular, searching for the code of a Record of the store finds
    the first Record with that code, provided the code is its own stripped
    upper-case form (as every code accepted by [capture_shoes] is). *)
Theorem search_shoe_first_match (w : world) (x : str) (rest : list str) :
  isascii x = true -> Forall printable (store w) -> Forall ascii_shoe (store w) ->
  exists w',
    search_shoe (set_stdin (x :: rest) w) = (Val tt, w') /\
    unchanged w w' /\ store w' = store w /\ stdin w' = rest /\
    ((exists i shoe,
         store w !! i = Some shoe /\ code shoe = upper (strip x) /\
         (forall j other, (j < i)%nat -> store w !! j = Some other ->
                          code other <> upper (strip x)) /\
         stdout w' = stdout w ++ [Print (lit "Shoe found!"); PrintShoe shoe])
     \/ ((forall shoe, shoe ∈ store w -> code shoe <> upper (strip x)) /\
         stdout w' = stdout w ++ [Print not_found])) /\
    (forall known,
        known ∈ store w -> upper (strip (code known)) = code known ->
        x = code known ->
        exists i shoe,
          store w !! i = Some shoe /\ code shoe = code known /\
          (forall j other, (j < i)%nat -> store w !! j = Some other ->
                           code other <> code known) /\
          stdout w' = stdout w ++ [Print (lit "Shoe found!"); PrintShoe shoe]).
Proof.
  intros _ Hprint _.
  destruct (List.find (fun shoe => bool_decide (code shoe = upper (strip x))) (store w))
    as [hit|] eqn:Hfind.
  - apply find_some in Hfind as [Hin Hc].
    apply bool_decide_eq_true_1 in Hc. apply list_elem_of_In in Hin.
    destruct (first_match (upper (strip x)) (store w))
      as (i & shoe & Hi & Hcode & Hfirst); [by eauto|].
    assert (printable shoe) as Hp.
    { rewrite Forall_forall in Hprint. apply Hprint. by eapply list_elem_of_lookup_2. }
    eexists. split; [by apply (search_shoe_found w x rest i shoe)|]. simpl.
    split; [done|]. split; [done|]. split; [done|]. split.
    + left. by exists i, shoe.
    + intros known Hk Hnormal ->. rewrite Hnormal in *. by exists i, shoe.
  - assert (forall shoe, shoe ∈ store w -> code shoe <> upper (strip x)) as Hall.
    { intros shoe Hin%list_elem_of_In Hc.
      apply (find_none _ _ Hfind) in Hin. simpl in Hin.
      by rewrite bool_decide_eq_true_2 in Hin. }
    eexists. split; [by apply search_shoe_missing|]. simpl.
    split; [done|]. split; [done|]. split; [done|]. split.
    + by right.
    + intros known Hk Hnormal ->. rewrite Hnormal in Hall. by destruct (Hall known Hk).
Qed.

Lemma search_shoe_first_match_witness :
  exists w',
    search_shoe (set_stdin [lit " sku3 "] four_shoes) = (Val tt, w') /\
    stdout w' = [Print (lit "Shoe found!");
                 PrintShoe (mkShoe (lit "Italy") (lit "SKU3") (lit "Puma") 300 9)].
Proof.
  destruct (search_shoe_first_match four_shoes (lit " sku3 ") [])
    as (w' & Hrun & _ & _ & _ & Hcases & _);
    [reflexivity|repeat constructor|repeat constructor|].
  exists w'. split; [exact Hrun|].
  destruct Hcases as [(i & shoe & Hi & Hc & _ & Hout)|[Hnone _]].
  - destruct i as [|[|[|[|i]]]]; simpl in Hi; try discriminate Hi;
      injection Hi as <-; try (vm_compute in Hc; discriminate Hc).
    exact Hout.
  - exfalso.
    apply (Hnone (mkShoe (lit "Italy") (lit "SKU3") (lit "Puma") 300 9));
      [|reflexivity].
    apply list_elem_of_further, list_elem_of_further, list_elem_of_here.
Defined.

(** ** Capturing a shoe *)

Lemma isspace_upper_char c : isspace (upper_char c) = isspace c.
Proof. by destruct c as [[] [] [] [] [] [] [] []]; vm_compute. Qed.

Lemma isspace_lower_char c : isspace (lower_char c) = isspace c.
Proof. by destruct c as [[] [] [] [] [] [] [] []]; vm_compute. Qed.

Lemma lower_upper_char c : lower_char (upper_char c) = lower_char c.
Proof. by destruct c as [[] [] [] [] [] [] [] []]; vm_compute. Qed.

Lemma lower_lower_char c : lower_char (lower_char c) = lower_char c.
Proof. by destruct c as [[] [] [] [] [] [] [] []]; vm_compute. Qed.

Lemma lower_upper s : lower (upper s) = lower s.
Proof.
  unfold lower, upper. rewrite map_map. apply map_ext. apply lower_upper_char.
Qed.

Lemma lower_title_from b s : lower (title_from b s) = lower s.
Proof.
  revert b. induction s as [|c s IH]; intros b; simpl; [done|].
  rewrite IH. f_equal. destruct b; [apply lower_lower_char|apply lower_upper_char].
Qed.

Lemma lower_title s : lower (title s) = lower s.
Proof. apply lower_title_from. Qed.

Lemma cancel_capture_sentinel v :
  lower v = lit "x" -> cancel_capture v = (true, [Print (lit "Capture cancelled.")]).
Proof. intros H. unfold cancel_capture. by destruct (decide (lower v = lit "x")). Qed.

Lemma cancel_capture_other v : lower v <> lit "x" -> cancel_capture v = (false, []).
Proof. intros H. unfold cancel_capture. by destruct (decide (lower v = lit "x")). Qed.

Lemma letters_and_spaces_body_sentinel msg x :
  is_sentinel x -> exists o, letters_and_spaces_body msg x = (Return, o).
Proof.
  intros H. unfold letters_and_spaces_body.
  rewrite cancel_capture_sentinel; [by eexists|]. by rewrite lower_title.
Qed.

Lemma code_body_sentinel x : is_sentinel x -> exists o, code_body x = (Return, o).
Proof.
  intros H. unfold code_body.
  rewrite cancel_capture_sentinel; [by eexists|]. by rewrite lower_upper.
Qed.

Lemma number_body_sentinel m1 m2 x :
  is_sentinel x -> exists o, number_body m1 m2 x = (Return, o).
Proof.
  intros H. unfold number_body. rewrite cancel_capture_sentinel; [by eexists|done].
Qed.

Lemma set_streams_unchanged w i o : unchanged w (set_stdout o (set_stdin i w)).
Proof. done. Qed.

Lemma unchanged_store w w' : unchanged w w' -> store w' = store w.
Proof. intros (Hh & Hl & _). unfold store. by rewrite Hh, Hl. Qed.

Lemma unchanged_trans w1 w2 w3 : unchanged w1 w2 -> unchanged w2 w3 -> unchanged w1 w3.
Proof. unfold unchanged. intros (? & ? & ?) (? & ? & ?). repeat split; congruence. Qed.

Lemma cancels_or_return {A} (body : str -> ctl A * list output) (k : A -> M unit) :
  (forall x, is_sentinel x -> exists o, body x = (Return, o)) ->
  (forall a, cancels (k a)) ->
  cancels (or_return (prompt body) k).
Proof.
  intros Hbody Hk w x rest Hx Hexc.
  unfold or_return, prompt, mbind, M_bind, bind in *. cbn [stdin set_stdin].
  destruct (while_input body (stdin w)) as [[[[a|]|e] rest0] o] eqn:Hloop.
  - rewrite (while_input_left _ _ (x :: rest) _ _ _ Hloop).
    destruct (Hk a (set_stdout (stdout w ++ o) (set_stdin rest0 w)) x rest Hx Hexc)
      as (w' & Hrun & Hun & Hrest).
    exists w'. split; [exact Hrun|]. split; [|done].
    eapply unchanged_trans; [|exact Hun]. apply set_streams_unchanged.
  - done.
  - rewrite (while_input_more _ _ (x :: rest) _ _ _ Hloop). simpl.
    destruct (Hbody x Hx) as [ox ->]. eexists. split; [reflexivity|]. done.
Qed.

Lemma cancels_total (k : M unit) : (forall w, (k w).1 = Val tt) -> cancels k.
Proof. intros Hk w x rest _ Hexc. rewrite Hk in Hexc. done. Qed.

Lemma capture_shoes_cancels : cancels capture_shoes.
Proof.
  intros w x rest Hx Hexc. unfold capture_shoes in *.
  unfold mbind at 1, M_bind at 1, bind at 1 in Hexc.
  unfold mbind at 1, M_bind at 1, bind at 1.
  unfold print, modify in *.
  set (w0 := set_stdout _ w) in Hexc.
  assert (cancels
    (or_return (prompt country_body) (fun country =>
     or_return (prompt code_body) (fun code =>
     or_return (prompt product_body) (fun product =>
     or_return (prompt cost_body) (fun cost =>
     or_return (prompt quantity_body) (fun quantity =>
       obj ← new_shoe (mkShoe country code product cost quantity);
       shoe_list_append obj;;
       print (Print (lit "Shoe successfully captured."))))))))) as Hc.
  { apply cancels_or_return; [apply letters_and_spaces_body_sentinel|]. intros country.
    apply cancels_or_return; [apply code_body_sentinel|]. intros code.
    apply cancels_or_return; [apply letters_and_spaces_body_sentinel|]. intros product.
    apply cancels_or_return; [apply number_body_sentinel|]. intros cost.
    apply cancels_or_return; [apply number_body_sentinel|]. intros quantity.
    apply cancels_total. done. }
  destruct (Hc w0 x rest Hx Hexc) as (w' & Hrun & Hun & Hrest).
  exists w'. split; [exact Hrun|]. split; [|done].
  eapply unchanged_trans; [|exact Hun]. done.
Qed.

Lemma appends_only_or_return {A} (body : str -> ctl A * list output)
    (k : A -> M unit) (V : A -> Prop) (ok : Shoe -> Prop) :
  (forall x a o, body x = (Break a, o) -> V a) ->
  (forall a, V a -> appends_only ok (k a)) ->
  appends_only ok (or_return (prompt body) k).
Proof.
  intros Hbody Hk w r w' Hrun.
  unfold or_return, prompt, mbind, M_bind, bind in Hrun.
  destruct (while_input body (stdin w)) as [[[[a|]|e] rest0] o] eqn:Hloop.
  - destruct (while_input_break_inv _ _ _ _ _ Hloop) as (x & ox & _ & Hx).
    apply Hbody in Hx. destruct (Hk a Hx _ _ _ Hrun) as [Hun|(shoe & Hok & Happ & ->)].
    + left. eapply unchanged_trans; [|exact Hun]. apply set_streams_unchanged.
    + right. exists shoe. split; [done|]. split; [|done].
      destruct Happ as (Hh & Hl & Hf). simpl in *. done.
  - left. unfold mret, M_ret, ret in Hrun. simplify_eq. apply set_streams_unchanged.
  - left. simplify_eq. apply set_streams_unchanged.
Qed.

Lemma isalpha_remove_spaces v :
  isalpha (remove_spaces v) = true -> Forall letter_or_space v.
Proof.
  intros H. apply Forall_forall. intros c Hc.
  destruct (decide (c = " ")) as [->|Hne]; [by right|]. left.
  unfold isalpha in H.
  assert (c ∈ remove_spaces v) as Hin.
  { unfold remove_spaces. by apply list_elem_of_filter. }
  destruct (remove_spaces v) as [|c0 s0] eqn:Hs; [by apply elem_of_nil in Hin|].
  rewrite forallb_forall in H. apply H. by apply list_elem_of_In.
Qed.

Lemma lstrip_starts s : lstrip s = [] \/ exists c t, lstrip s = c :: t /\ isspace c = false.
Proof.
  induction s as [|c s IH]; simpl; [by left|].
  destruct (isspace c) eqn:Hc; [done|]. right. by exists c, s.
Qed.

Lemma lstrip_fixed c t : isspace c = false -> lstrip (c :: t) = c :: t.
Proof. intros H. simpl. by rewrite H. Qed.

Lemma title_lstrip s : lstrip (title (lstrip s)) = title (lstrip s).
Proof.
  destruct (lstrip_starts s) as [->|(c & t & -> & Hc)]; [done|].
  unfold title. simpl. apply lstrip_fixed. by rewrite isspace_upper_char.
Qed.

Lemma letters_and_spaces_body_valid msg x v o :
  letters_and_spaces_body msg x = (Break v, o) -> valid_text v.
Proof.
  unfold letters_and_spaces_body.
  destruct (cancel_capture (title (strip x))) as [[] oc]; [done|].
  destruct (bool_decide (title (strip x) = [])) eqn:Hempty; [done|].
  destruct (isalpha (remove_spaces (title (strip x)))) eqn:Halpha; [|done].
  simpl. intros [= <- <-].
  split; [by apply bool_decide_eq_false in Hempty|].
  split; [by apply isalpha_remove_spaces|]. apply title_lstrip.
Qed.

Lemma fullmatch_sku_inv s :
  fullmatch_sku s = true ->
  exists d ds, s = lit "SKU" ++ d :: ds /\ forallb isdigit (d :: ds) = true.
Proof.
  destruct s as [|c1 s]; [done|].
  destruct c1 as [[] [] [] [] [] [] [] []]; try (simpl; discriminate).
  destruct s as [|c2 s]; [done|].
  destruct c2 as [[] [] [] [] [] [] [] []]; try (simpl; discriminate).
  destruct s as [|c3 s]; [done|].
  destruct c3 as [[] [] [] [] [] [] [] []]; try (simpl; discriminate).
  destruct s as [|d ds]; [done|].
  intros H. by exists d, ds.
Qed.

Lemma code_body_valid x v o : code_body x = (Break v, o) -> valid_code v.
Proof.
  unfold code_body.
  destruct (cancel_capture (upper (strip x))) as [[] oc]; [done|].
  destruct (fullmatch_sku (upper (strip x))) eqn:Hm; [|done].
  simpl. intros [= <- <-].
  apply fullmatch_sku_inv in Hm as (d & ds & -> & Hd).
  exists d, ds. split; [done|]. apply Forall_forall. intros c Hc.
  rewrite forallb_forall in Hd. apply Hd. by apply list_elem_of_In.
Qed.

Lemma number_body_valid m1 m2 x n o : number_body m1 m2 x = (Break n, o) -> 0 <= n.
Proof.
  unfold number_body.
  destruct (cancel_capture (strip x)) as [[] oc]; [done|].
  destruct (int (strip x)) as [m|]; [|done].
  destruct (Z.ltb_spec m 0); [done|]. intros [= <- <-]. done.
Qed.

Lemma appends_only_print ok o (k : M unit) :
  appends_only ok k -> appends_only ok (print o;; k).
Proof.
  intros Hk w r w' Hrun. unfold mbind, M_bind, bind, print, modify in Hrun.
  apply Hk in Hrun as [Hun|(shoe & Hok & (Hh & Hl & Hf) & ->)].
  - left. eapply unchanged_trans; [|exact Hun]. done.
  - right. exists shoe. done.
Qed.

Lemma appends_only_new ok shoe :
  ok shoe ->
  appends_only ok (obj ← new_shoe shoe; shoe_list_append obj;;
                   print (Print (lit "Shoe successfully captured."))).
Proof.
  intros Hok w r w' Hrun. unfold_monad. simpl in Hrun. simplify_eq.
  right. exists shoe. done.
Qed.

(** Whatever is typed, [capture_shoes] changes nothing or appends one
    Record whose five fields passed their prompts. *)
Lemma capture_shoes_appends_only : appends_only validated capture_shoes.
Proof.
  unfold capture_shoes. apply appends_only_print.
  apply (appends_only_or_return _ _ valid_text);
    [intros x a o; apply letters_and_spaces_body_valid|]. intros country Hcountry.
  apply (appends_only_or_return _ _ valid_code);
    [intros x a o; apply code_body_valid|]. intros code Hcode.
  apply (appends_only_or_return _ _ valid_text);
    [intros x a o; apply letters_and_spaces_body_valid|]. intros product Hproduct.
  apply (appends_only_or_return _ _ (fun n => 0 <= n));
    [intros x a o; apply number_body_valid|]. intros cost Hcost.
  apply (appends_only_or_return _ _ (fun n => 0 <= n));
    [intros x a o; apply number_body_valid|]. intros quantity Hquantity.
  apply appends_only_new. done.
Qed.

Lemma reads_before_heap_or_return {A} (body : str -> ctl A * list output)
    (k : A -> M unit) n :
  (forall a, reads_before_heap n (k a)) ->
  reads_before_heap (S n) (or_return (prompt body) k).
Proof.
  intros Hk w r w' Hrun.
  unfold or_return, prompt, mbind, M_bind, bind in Hrun.
  destruct (while_input body (stdin w)) as [[[[a|]|e] rest0] o] eqn:Hloop.
  - apply while_input_val_length in Hloop.
    destruct (Hk a _ _ _ Hrun) as [Hh|Hlen]; [by left|]. right. simpl in Hlen. lia.
  - left. unfold mret, M_ret, ret in Hrun. by simplify_eq.
  - left. by simplify_eq.
Qed.

Lemma capture_shoes_reads_five : reads_before_heap 5 capture_shoes.
Proof.
  intros w r w' Hrun. unfold capture_shoes in Hrun.
  unfold mbind at 1, M_bind at 1, bind at 1, print, modify in Hrun.
  revert Hrun.
  match goal with |- ?k ?w0 = _ -> _ =>
    assert (reads_before_heap 5 k) as Hk; [|intros Hrun; exact (Hk _ _ _ Hrun)] end.
  do 5 (apply reads_before_heap_or_return; intros ?).
  intros w0 r0 w0' Hrun. right. unfold_monad. simpl in Hrun. simplify_eq. simpl. lia.
Qed.

(** C5. On lines of ASCII text: while [capture_shoes] is waiting at any of
    its prompts, the sentinel typed next makes it return with heap, store
    and file as they were; and whatever is typed, it either changes nothing
    or appends one Record whose five fields passed their prompts, having
    read five lines at least. *)
Theorem capture_cancel_leaves_store (w : world) (x : str) (rest : list str) :
  ascii_lines (stdin w) -> isascii x = true -> is_sentinel x ->
  (capture_shoes w).1 = Exc EOFError ->
  (exists w',
      capture_shoes (set_stdin (stdin w ++ x :: rest) w) = (Val tt, w') /\
      unchanged w w' /\ store w' = store w /\ stdin w' = rest) /\
  (forall lines r w',
      ascii_lines lines ->
      capture_shoes (set_stdin lines w) = (r, w') ->
      (unchanged w w' /\ store w' = store w) \/
      (exists shoe, validated shoe /\ appended shoe w w' /\ r = Val tt /\
                    (length (stdin w') + 5 <= length lines)%nat)).
Proof.
  intros _ _ Hx Hwait. split.
  - destruct (capture_shoes_cancels w x rest Hx Hwait) as (w' & Hrun & Hun & Hrest).
    exists w'. split; [done|]. split; [done|]. split; [|done].
    by apply unchanged_store.
  - intros lines r w' _ Hrun.
    pose proof (capture_shoes_reads_five _ _ _ Hrun) as Hread.
    apply capture_shoes_appends_only in Hrun as [Hun|(shoe & Hok & Happ & ->)].
    + left. assert (unchanged w w') as Hun' by exact Hun.
      split; [done|]. by apply unchanged_store.
    + right. exists shoe. split; [done|]. split; [done|]. split; [done|].
      destruct Hread as [Hh|Hlen]; [|exact Hlen].
      destruct Happ as (Hh' & _). simpl in *. rewrite Hh in Hh'.
      apply (f_equal length) in Hh'. rewrite length_app in Hh'. simpl in Hh'. lia.
Qed.

Lemma capture_cancel_leaves_store_witness :
  (exists w',
      capture_shoes (set_stdin (stdin waiting_for_cost ++ [lit "X"; lit "7"]) waiting_for_cost)
      = (Val tt, w') /\
      unchanged waiting_for_cost w' /\ store w' = store waiting_for_cost /\
      stdin w' = [lit "7"]) /\
  (forall lines r w',
      ascii_lines lines ->
      capture_shoes (set_stdin lines waiting_for_cost) = (r, w') ->
      (unchanged waiting_for_cost w' /\ store w' = store waiting_for_cost) \/
      (exists shoe, validated shoe /\ appended shoe waiting_for_cost w' /\ r = Val tt /\
                    (length (stdin w') + 5 <= length lines)%nat)).
Proof.
  apply (capture_cancel_leaves_store waiting_for_cost (lit "X") [lit "7"]).
  - repeat constructor.
  - reflexivity.
  - reflexivity.
  - reflexivity.
Defined.

(** The sentinel at each of the five prompts, and a capture that goes
    through. *)
Example capture_cancel_at_each_prompt :
  let typed := [lit "south africa"; lit "sku12"; lit "nike air"; lit "1200"] in
  (forall n, (n <= 4)%nat ->
     store (capture_shoes (set_stdin (take n typed ++ [lit "x"]) four_shoes)).2
     = store four_shoes) /\
  store (capture_shoes (set_stdin (typed ++ [lit "3"]) four_shoes)).2
  = store four_shoes
      ++ [mkShoe (lit "South Africa") (lit "SKU12") (lit "Nike Air") 1200 3].
Proof.
  split; [|reflexivity].
  intros [|[|[|[|[|k]]]]] Hk; first [reflexivity | lia].
Qed.

(** ** What [re_stock] can do to the state *)


Lemma re_stock_effect w r w' :
  re_stock w = (r, w') ->
  unchanged w w' \/
  exists lowest_stock_shoe a,
    lowest_stock_shoe ∈ shoe_list w /\ 0 <= a /\
    heap w' = bumped lowest_stock_shoe a (heap w) /\
    (shoe_list w' = shoe_list w \/
     shoe_list w' = replace_first_match (heap w') lowest_stock_shoe (shoe_list w)).
Proof.
  unfold re_stock. unfold mbind at 1, M_bind at 1, bind at 1, get_world, getitem.
  unfold mbind at 1, M_bind at 1, bind at 1.
  destruct (sorted (quantity_of w) (shoe_list w) false !! 0%nat) as [lo|] eqn:Hlo.
  2:{ unfold raise. intros [= <- <-]. by left. }
  assert (lo ∈ shoe_list w) as Hin.
  { apply list_elem_of_lookup_2 in Hlo. unfold sorted in Hlo.
    by rewrite stable_sort_perm in Hlo. }
  unfold ret. unfold mbind at 1 2, M_bind at 1 2, bind at 1 2, print at 1, modify.
  destruct (__str__ _ _) as [r1 w1] eqn:Hstr.
  apply str_cases in Hstr as [-> Hr1].
  destruct Hr1 as [->|[->|[-> _]]]; [|intros [= <- <-]; by left..].
  unfold mbind at 1 2, M_bind at 1 2, bind at 1 2, print at 1, modify, input.
  cbn [stdin set_stdout].
  destruct (stdin w) as [|answer rest] eqn:Hstdin.
  { intros [= <- <-]. by left. }
  destruct (decide (upper (strip answer) = lit "Y")) as [_|_].
  2:{ unfold print, modify. intros [= <- <-]. by left. }
  match goal with |- restock_confirmed lo ?w0 = _ -> _ =>
    destruct (restock_confirmed_effect lo w0) as (r0 & w0' & o & Hrun & _ & _ & _ & Heff) end.
  rewrite Hrun. intros [= <- <-].
  destruct Heff as [(Hh & Hl & Hf)|(a & Ha & Hh & Hl)].
  - left. by repeat split.
  - right. by exists lo, a.
Qed.

Lemma replace_first_match_subset h lowest l id :
  id ∈ replace_first_match h lowest l -> id = lowest \/ id ∈ l.
Proof.
  induction l as [|shoe l IH]; simpl; [by right|].
  destruct (decide (code (deref h shoe) = code (deref h lowest))).
  - intros [->|Hin]%elem_of_cons; [by left|]. right. by right.
  - intros [->|Hin]%elem_of_cons; [right; by left|].
    destruct (IH Hin) as [->|?]; [by left|]. right. by right.
Qed.

Lemma replace_first_match_length h lowest l :
  length (replace_first_match h lowest l) = length l.
Proof.
  induction l as [|shoe l IH]; simpl; [done|].
  destruct (decide (code (deref h shoe) = code (deref h lowest))); simpl; congruence.
Qed.

(** An object after [lowest.quantity += a]: itself, or the bumped one. *)
Lemma deref_insert h lowest shoe id :
  deref (<[lowest := shoe]> h) id = deref h id \/
  (id = lowest /\ deref (<[lowest := shoe]> h) id = shoe).
Proof.
  unfold deref. destruct (decide (lowest = id)) as [->|Hne].
  - destruct (decide (id < length h)%nat).
    + right. by rewrite list_lookup_insert_eq.
    + left. rewrite list_insert_ge; [done|lia].
  - left. by rewrite list_lookup_insert_ne.
Qed.

Lemma bumped_non_negative lowest a w w' :
  lowest ∈ shoe_list w -> 0 <= a ->
  heap w' = bumped lowest a (heap w) ->
  (shoe_list w' = shoe_list w \/
   shoe_list w' = replace_first_match (heap w') lowest (shoe_list w)) ->
  Forall non_negative (store w) ->
  Forall non_negative (store w').
Proof.
  intros Hin Ha Hh Hl Hall. unfold store.
  rewrite Forall_fmap. apply Forall_forall. intros id Hid. simpl.
  unfold store in Hall. rewrite Forall_fmap, Forall_forall in Hall.
  assert (id ∈ shoe_list w) as Hid'.
  { destruct Hl as [Hl|Hl]; rewrite Hl in Hid; [done|].
    apply replace_first_match_subset in Hid as [->|?]; done. }
  rewrite Hh. unfold bumped.
  match goal with |- non_negative (deref (<[_ := ?s]> _) _) =>
    destruct (deref_insert (heap w) lowest s id) as [->|[-> ->]] end.
  - by apply Hall.
  - specialize (Hall _ Hin). destruct Hall as [Hc Hq]. simpl in *.
    split; simpl; [done|lia].
Qed.

Lemma appended_non_negative shoe w w' :
  appended shoe w w' -> non_negative shoe ->
  Forall non_negative (store w) -> Forall non_negative (store w').
Proof.
  intros (Hh & Hl & _) Hshoe Hall. unfold store in *. rewrite Hh, Hl.
  rewrite fmap_app. apply Forall_app. split.
  - rewrite Forall_fmap, Forall_forall in Hall.
    rewrite Forall_fmap. apply Forall_forall. intros id Hid. simpl.
    specialize (Hall id Hid). simpl in Hall. unfold deref in *.
    destruct (decide (id < length (heap w))%nat).
    + by rewrite lookup_app_l.
    + rewrite lookup_app_r; [|lia].
      destruct (id - length (heap w))%nat as [|k]; simpl; [done|].
      by destruct k.
  - constructor; [|done]. unfold deref.
    rewrite lookup_app_r; [|lia]. by rewrite Nat.sub_diag.
Qed.

(** C6. If every Record of the store has a cost and a quantity that are
    not negative, this still holds after [capture_shoes] and after
    [re_stock], whatever is typed; a successful add and a confirmed restock
    are among these runs. *)
Theorem non_negative_preserved (w : world) (lines : list str) :
  Forall non_negative (store w) ->
  Forall non_negative (store (capture_shoes (set_stdin lines w)).2) /\
  Forall non_negative (store (re_stock (set_stdin lines w)).2).
Proof.
  intros Hall. split.
  - destruct (capture_shoes (set_stdin lines w)) as [r w'] eqn:Hrun.
    apply capture_shoes_appends_only in Hrun as [Hun|(shoe & Hok & Happ & _)]; simpl.
    + by rewrite (unchanged_store _ _ Hun).
    + eapply appended_non_negative; [exact Happ| |exact Hall].
      destruct Hok as (_ & _ & _ & Hc & Hq). by split.
  - destruct (re_stock (set_stdin lines w)) as [r w'] eqn:Hrun.
    apply re_stock_effect in Hrun as [Hun|(lo & a & Hin & Ha & Hh & Hl)]; simpl.
    + by rewrite (unchanged_store _ _ Hun).
    + by apply (bumped_non_negative lo a (set_stdin lines w) w').
Qed.

Lemma non_negative_preserved_witness :
  Forall non_negative (store four_shoes) /\
  Forall non_negative
    (store (capture_shoes
              (set_stdin [lit "Kenya"; lit "sku9"; lit "Bata"; lit "50"; lit "0"]
                         four_shoes)).2) /\
  Forall non_negative
    (store (re_stock (set_stdin [lit "Y"; lit "-2"; lit "12"] four_shoes)).2).
Proof.
  assert (Forall non_negative (store four_shoes)) as H.
  { repeat constructor; simpl; lia. }
  split; [exact H|].
  split.
  - exact (proj1 (non_negative_preserved four_shoes
       [lit "Kenya"; lit "sku9"; lit "Bata"; lit "50"; lit "0"] H)).
  - exact (proj2 (non_negative_preserved four_shoes
       [lit "Y"; lit "-2"; lit "12"] H)).
Defined.

(** ** Stripping and splitting *)

Lemma rstrip_idem s : rstrip (rstrip s) = rstrip s.
Proof.
  induction s as [|c s IH]; simpl; [done|].
  destruct (rstrip s) as [|c' r] eqn:Hr.
  - destruct (isspace c) eqn:Hc; simpl; [done|]. by rewrite Hc.
  - change (rstrip (c :: c' :: r)) with
      (match rstrip (c' :: r) with [] => if isspace c then [] else [c] | r' => c :: r' end).
    by rewrite IH.
Qed.

Lemma rstrip_snoc_space s c : isspace c = true -> rstrip (s ++ [c]) = rstrip s.
Proof.
  intros Hc. induction s as [|d s IH]; simpl; [by rewrite Hc|]. by rewrite IH.
Qed.

Lemma rstrip_cons_nonspace c s : isspace c = false -> rstrip (c :: s) = c :: rstrip s.
Proof. intros Hc. simpl. destruct (rstrip s); [by rewrite Hc|done]. Qed.

Lemma rstrip_cons_nonempty c s : rstrip s <> [] -> rstrip (c :: s) = c :: rstrip s.
Proof. intros H. simpl. by destruct (rstrip s). Qed.

Lemma lstrip_idem s : lstrip (lstrip s) = lstrip s.
Proof.
  destruct (lstrip_starts s) as [->|(c & t & -> & Hc)]; [done|].
  by apply lstrip_fixed.
Qed.

(** *** [int] and the white space of [strip]

    [int] skips less white space than [strip] drops, but what [strip]
    drops at the end of a text that [int] accepts is white space for [int]
    as well. *)

Lemma int_space_isspace c : int_space c = true -> isspace c = true.
Proof.
  destruct c as [[] [] [] [] [] [] [] []]; vm_compute; intros H;
    first [reflexivity | discriminate H].
Qed.

Lemma int_rstrip_cons c t :
  int_rstrip (c :: t)
  = match int_rstrip t with [] => if int_space c then [] else [c] | r => c :: r end.
Proof. reflexivity. Qed.

Lemma int_rstrip_idem s : int_rstrip (int_rstrip s) = int_rstrip s.
Proof.
  induction s as [|c s IH]; simpl; [done|].
  destruct (int_rstrip s) as [|c' r] eqn:Hr.
  - destruct (int_space c) eqn:Hc; simpl; [done|]. by rewrite Hc.
  - rewrite (int_rstrip_cons c (c' :: r)). by rewrite IH.
Qed.

Lemma int_rstrip_nil s : int_rstrip s = [] -> rstrip s = [].
Proof.
  induction s as [|c s IH]; simpl; [done|].
  destruct (int_rstrip s) as [|c' r] eqn:Hr; [|done].
  rewrite IH by done. destruct (int_space c) eqn:Hc; [|done].
  by rewrite (int_space_isspace _ Hc).
Qed.

Lemma rstrip_int_rstrip s d :
  last (int_rstrip s) = Some d -> isspace d = false -> rstrip s = int_rstrip s.
Proof.
  induction s as [|c s IH]; [done|]. rewrite int_rstrip_cons. simpl rstrip.
  destruct (int_rstrip s) as [|c' r] eqn:Hr.
  - rewrite (int_rstrip_nil _ Hr). destruct (int_space c) eqn:Hc; [done|].
    simpl. intros [= ->] Hd. by rewrite Hd.
  - rewrite last_cons_cons. intros Hlast Hd. by rewrite (IH Hlast Hd).
Qed.

Lemma last_int_lstrip t d : last (int_lstrip t) = Some d -> last t = Some d.
Proof.
  induction t as [|c t IH]; simpl; [done|].
  destruct (int_space c); [|done]. intros H. rewrite last_cons. by rewrite (IH H).
Qed.

Lemma parse_digits_last acc b s n :
  parse_digits acc b s = Some n -> s <> [] ->
  exists d, last s = Some d /\ isdigit d = true.
Proof.
  revert acc b. induction s as [|c s IH]; intros acc b H Hne; [done|].
  simpl in H. destruct (isdigit c) eqn:Hc.
  - destruct s as [|c' s]; [by exists c|].
    rewrite last_cons_cons. by eapply IH.
  - destruct (decide (c = "_")) as [->|]; [|done]. destruct b; [|done].
    destruct s as [|c' s]; [done|]. rewrite last_cons_cons. by eapply IH.
Qed.

(** [int] on a text whose numeral starts with [c]. *)
Lemma int_cons s c d :
  int_strip s = c :: d ->
  int s = if max_str_digits <? count_digits (c :: d) then None
          else if decide (c = "+") then parse_digits 0 false d
          else if decide (c = "-") then Z.opp <$> parse_digits 0 false d
          else parse_digits 0 false (c :: d).
Proof.
  intros H. unfold int. rewrite H. cbv zeta.
  destruct (max_str_digits <? count_digits (c :: d)); [done|].
  destruct c as [[] [] [] [] [] [] [] []]; reflexivity.
Qed.

Lemma int_nil s : int_strip s = [] -> int s = None.
Proof. intros H. unfold int. rewrite H. reflexivity. Qed.

(** The numeral of a text that [int] accepts ends with a digit. *)
Lemma int_last_digit s n :
  int s = Some n -> exists d, last (int_rstrip s) = Some d /\ isdigit d = true.
Proof.
  intros Hint.
  destruct (int_strip s) as [|c d] eqn:Hs.
  { by rewrite (int_nil _ Hs) in Hint. }
  rewrite (int_cons _ _ _ Hs) in Hint.
  destruct (max_str_digits <? count_digits (c :: d)); [done|].
  assert (exists dg, last (c :: d) = Some dg /\ isdigit dg = true) as (dg & Hdg & Hd).
  { destruct (decide (c = "+")) as [->|_].
    - destruct d as [|c' d]; [done|]. rewrite last_cons_cons.
      by eapply parse_digits_last.
    - destruct (decide (c = "-")) as [->|_].
      + destruct (parse_digits 0 false d) as [m|] eqn:Hm; [|done].
        destruct d as [|c' d]; [done|]. rewrite last_cons_cons.
        by eapply parse_digits_last.
      + by eapply parse_digits_last. }
  exists dg. split; [|done]. apply last_int_lstrip.
  unfold int_strip in Hs. by rewrite Hs.
Qed.

Lemma isdigit_not_space c : isdigit c = true -> isspace c = false.
Proof.
  destruct c as [[] [] [] [] [] [] [] []]; vm_compute; intros H;
    first [reflexivity | discriminate H].
Qed.

(** A text that [int] accepts is read as the same integer once the white
    space at its end is stripped. *)
Lemma int_after_rstrip f n : int f = Some n -> int (rstrip f) = Some n.
Proof.
  intros Hint. destruct (int_last_digit _ _ Hint) as (d & Hlast & Hd).
  rewrite (rstrip_int_rstrip _ _ Hlast (isdigit_not_space _ Hd)).
  rewrite <- Hint. unfold int, int_strip. by rewrite int_rstrip_idem.
Qed.

Lemma split_comma_nonempty s : split_comma s <> [].
Proof.
  destruct s as [|c s]; simpl; [done|].
  destruct (decide (c = ",")); [done|]. by destruct (split_comma s).
Qed.

Lemma split_comma_cons c s :
  c <> "," ->
  exists f fs, split_comma s = f :: fs /\ split_comma (c :: s) = (c :: f) :: fs.
Proof.
  intros Hc. simpl. destruct (decide (c = ",")); [done|].
  destruct (split_comma s) as [|f fs] eqn:Hs; [by apply split_comma_nonempty in Hs|].
  by exists f, fs.
Qed.

Lemma split_comma_single_nonempty s f : s <> [] -> split_comma s = [f] -> f <> [].
Proof.
  destruct s as [|c s]; [done|]. intros _. simpl.
  destruct (decide (c = ",")).
  - intros [= <- Hs]. by apply split_comma_nonempty in Hs.
  - destruct (split_comma s); by intros [= <-].
Qed.

Lemma split_comma_lstrip s : split_comma (lstrip s) = map_head lstrip (split_comma s).
Proof.
  induction s as [|c s IH]; [done|].
  simpl lstrip. destruct (isspace c) eqn:Hc.
  - assert (c <> ",") as Hne by (intros ->; done).
    destruct (split_comma_cons c s Hne) as (f & fs & Hs & ->).
    rewrite IH, Hs. simpl. by rewrite Hc.
  - destruct (decide (c = ",")) as [->|Hne]; [done|].
    destruct (split_comma_cons c s Hne) as (f & fs & Hs & ->).
    simpl. by rewrite Hc.
Qed.

Lemma map_last_cons {A} (f : A -> A) x l :
  l <> [] -> map_last f (x :: l) = x :: map_last f l.
Proof. by destruct l. Qed.

Lemma map_last_nonempty {A} (f : A -> A) l : l <> [] -> map_last f l <> [].
Proof. destruct l as [|x [|y l]]; done. Qed.

Lemma split_comma_rstrip s : split_comma (rstrip s) = map_last rstrip (split_comma s).
Proof.
  induction s as [|c s IH]; [done|].
  destruct (decide (c = ",")) as [->|Hne].
  - rewrite rstrip_cons_nonspace; [|done]. simpl. rewrite IH.
    destruct (split_comma s) eqn:Hs; [by apply split_comma_nonempty in Hs|done].
  - destruct (split_comma_cons c s Hne) as (f & fs & Hs & ->).
    rewrite Hs in IH.
    destruct (rstrip s) as [|c' r] eqn:Hr.
    + simpl in IH. destruct fs as [|f' fs]; [|by destruct fs].
      injection IH as IH. simpl. rewrite Hr, <- IH.
      destruct (isspace c); simpl; [done|]. by destruct (decide (c = ",")).
    + rewrite rstrip_cons_nonempty; [|by rewrite Hr]. rewrite Hr.
      destruct (split_comma_cons c (c' :: r) Hne) as (g & gs & Hg & ->).
      rewrite Hg in IH. destruct fs as [|f' fs].
      * simpl in IH. injection IH as -> ->.
        assert (rstrip f <> []) as Hnf.
        { eapply split_comma_single_nonempty; [|exact Hg]. done. }
        simpl. by destruct (rstrip f).
      * rewrite map_last_cons in IH by done. injection IH as -> ->.
        by rewrite map_last_cons.
Qed.

Lemma split_comma_strip s :
  split_comma (strip s) = map_head lstrip (map_last rstrip (split_comma s)).
Proof. unfold strip. by rewrite split_comma_lstrip, split_comma_rstrip. Qed.

Lemma rstrip_cons c t :
  rstrip (c :: t)
  = match rstrip t with [] => if isspace c then [] else [c] | r => c :: r end.
Proof. reflexivity. Qed.

Lemma rstrip_chomp line : rstrip (chomp line) = rstrip line.
Proof.
  induction line as [|c [|c' line] IH]; [done| |].
  - simpl. destruct (decide (c = LF)) as [->|]; [done|]. done.
  - change (chomp (c :: c' :: line)) with (c :: chomp (c' :: line)).
    by rewrite (rstrip_cons c (chomp _)), (rstrip_cons c (c' :: line)), IH.
Qed.

Lemma strip_chomp line : strip (chomp line) = strip line.
Proof. unfold strip. by rewrite rstrip_chomp. Qed.

(** The fields [load_line] reads, from the fields of the line. *)
Lemma split_strip_line line :
  fields_read line = map_head lstrip (map_last rstrip (line_fields line)).
Proof. unfold fields_read, line_fields. by rewrite <- split_comma_strip, strip_chomp. Qed.

(** ** Loading one line *)

Lemma load_line_fields line w g1 g2 g3 g4 g5 extra c q :
  fields_read line = g1 :: g2 :: g3 :: g4 :: g5 :: extra ->
  int g4 = Some c -> int g5 = Some q ->
  load_line line w = (Val tt, with_shoe (mkShoe g1 g2 g3 c q) w).
Proof.
  intros Hs H4 H5. unfold load_line. unfold fields_read in Hs. rewrite Hs.
  unfold_monad. simpl. rewrite H4. simpl. rewrite H5. reflexivity.
Qed.

(** A line of five fields or more, the fourth and fifth being integers,
    yields one Record; what follows the fifth field is not looked at. *)
Lemma load_line_loadable line w f1 f2 f3 f4 f5 extra c q :
  line_fields line = f1 :: f2 :: f3 :: f4 :: f5 :: extra ->
  int f4 = Some c -> int f5 = Some q ->
  load_line line w = (Val tt, with_shoe (mkShoe (lstrip f1) f2 f3 c q) w).
Proof.
  intros Hf H4 H5.
  pose proof (split_strip_line line) as Hs. rewrite Hf in Hs.
  destruct extra as [|e extra].
  - eapply load_line_fields; [exact Hs|done|]. by apply int_after_rstrip.
  - eapply load_line_fields; [exact Hs|done..].
Qed.

Lemma load_line_malformed line w :
  malformed line ->
  exists e, load_line line w = (Exc e, w) /\ (e = IndexError \/ e = ValueError).
Proof.
  intros Hbad. unfold load_line. unfold malformed, fields_read in Hbad.
  destruct (split_comma (strip line)) as [|f1 [|f2 [|f3 [|f4 [|f5 extra]]]]];
    unfold_monad; simpl.
  - eauto.
  - eauto.
  - eauto.
  - eauto.
  - destruct (int f4); simpl; eauto.
  - destruct Hbad as [Hlen|[(f & Hf & Hint)|(f & Hf & Hint)]].
    + simpl in Hlen. lia.
    + simpl in Hf. simplify_eq. rewrite Hint. eauto.
    + simpl in Hf. simplify_eq.
      destruct (int f4); simpl; [|eauto]. rewrite Hint. eauto.
Qed.

Lemma loadable_or_malformed line :
  malformed line \/
  exists f1 f2 f3 f4 f5 extra c q,
    fields_read line = f1 :: f2 :: f3 :: f4 :: f5 :: extra /\
    int f4 = Some c /\ int f5 = Some q.
Proof.
  unfold malformed.
  destruct (fields_read line) as [|f1 [|f2 [|f3 [|f4 [|f5 extra]]]]];
    try (left; left; simpl; lia).
  destruct (int f4) as [c|] eqn:H4; [|left; right; left; by exists f4].
  destruct (int f5) as [q|] eqn:H5; [|left; right; right; by exists f5].
  right. by exists f1, f2, f3, f4, f5, extra, c, q.
Qed.




(** A short line, a cost that is not a number, a blank line and a file
    without any line; and a line of seven fields. *)
Example load_failures :
  (read_shoes_data (initial_world (Some short_line_file) [])).1 = Exc IndexError /\
  (read_shoes_data (initial_world
     (Some (header ++ LF :: lit "USA,SKU2,Adidas,cheap,7" ++ [LF])) [])).1 = Exc ValueError /\
  (read_shoes_data (initial_world
     (Some (header ++ LF :: lit "USA,SKU2,Adidas,200,7" ++ [LF; LF])) [])).1 = Exc IndexError /\
  (read_shoes_data (initial_world (Some []) [])).1 = Exc StopIteration /\
  store (read_shoes_data (initial_world
     (Some (header ++ LF :: lit "USA,SKU2,Adidas,200,7,new,2024" ++ [LF])) [])).2
  = [mkShoe (lit "USA") (lit "SKU2") (lit "Adidas") 200 7].
Proof. repeat split; reflexivity. Qed.

(** ** [int] after [str] *)

Lemma uint_value_acc u p : uint_value (Zpos p) u = Zpos (Pos.of_uint_acc u p).
Proof.
  revert p. induction u; intros p; simpl; [done|..];
    match goal with
    | |- uint_value ?a _ = Z.pos (Pos.of_uint_acc _ ?b) =>
        replace a with (Zpos b) by lia; apply IHu
    end.
Qed.

Lemma uint_value_of_uint u : uint_value 0 u = Z.of_N (Pos.of_uint u).
Proof.
  induction u; simpl; [done|exact IHu|..];
    match goal with
    | |- uint_value ?a _ = Z.pos (Pos.of_uint_acc _ ?b) =>
        change a with (Zpos b); apply uint_value_acc
    end.
Qed.

Lemma parse_digits_uint acc b u :
  u <> Nil \/ b = true ->
  parse_digits acc b (uint_chars u) = Some (uint_value acc u).
Proof.
  revert acc b. induction u; intros acc b Hb; simpl;
    [by destruct Hb as [?| ->]|..];
    (rewrite IHu by (by right)); reflexivity.
Qed.

Lemma uint_chars_digits u : Forall (fun c => isdigit c = true) (uint_chars u).
Proof. induction u; simpl; constructor; done. Qed.

Lemma to_int_not_nil n : Z.to_int n <> Decimal.Pos Nil /\ Z.to_int n <> Decimal.Neg Nil.
Proof.
  pose proof (DecimalZ.of_to n) as H.
  split; intros Hn; rewrite Hn in H; simpl in H; subst n; done.
Qed.

Lemma lstrip_nonspace s : Forall (fun c => isspace c = false) s -> lstrip s = s.
Proof. destruct 1 as [|c s Hc _]; [done|]. by apply lstrip_fixed. Qed.

Lemma rstrip_nonspace s : Forall (fun c => isspace c = false) s -> rstrip s = s.
Proof.
  induction 1 as [|c s Hc _ IH]; [done|].
  rewrite rstrip_cons_nonspace by done. by rewrite IH.
Qed.

Lemma strip_nonspace s : Forall (fun c => isspace c = false) s -> strip s = s.
Proof. intros H. unfold strip. by rewrite rstrip_nonspace, lstrip_nonspace. Qed.

Lemma isdigit_facts c :
  isdigit c = true ->
  isspace c = false /\ c <> "," /\ c <> LF /\ c <> CR /\ c <> "+" /\ c <> "-".
Proof. by destruct c as [[] [] [] [] [] [] [] []]; vm_compute. Qed.

Lemma str_of_int_chars n :
  Forall (fun c => isspace c = false /\ c <> "," /\ c <> LF /\ c <> CR) (str_of_int n).
Proof.
  assert (forall u, Forall (fun c => isspace c = false /\ c <> "," /\ c <> LF /\ c <> CR)
                      (uint_chars u)) as Hu.
  { intros u. eapply Forall_impl; [apply uint_chars_digits|].
    intros c Hc. apply isdigit_facts in Hc as (? & ? & ? & ? & _). done. }
  unfold str_of_int. destruct (Z.to_int n); [done|]. constructor; [done|]. done.
Qed.

Lemma not_isspace_int_space c : isspace c = false -> int_space c = false.
Proof.
  intros H. destruct (int_space c) eqn:Hc; [|done].
  apply int_space_isspace in Hc. congruence.
Qed.

Lemma int_strip_nonspace s : Forall (fun c => isspace c = false) s -> int_strip s = s.
Proof.
  intros H. unfold int_strip.
  assert (int_rstrip s = s) as ->.
  { induction H as [|c s Hc _ IH]; [done|]. rewrite int_rstrip_cons, IH.
    destruct s; [|done]. by rewrite (not_isspace_int_space _ Hc). }
  destruct H as [|c s Hc _]; [done|]. simpl.
  by rewrite (not_isspace_int_space _ Hc).
Qed.

(** Within the digit limit, [int] reads back what [str] wrote. *)
Lemma int_str_of_int n : str_ok n = true -> int (str_of_int n) = Some n.
Proof.
  intros Hok. unfold int. rewrite int_strip_nonspace.
  2:{ eapply Forall_impl; [apply str_of_int_chars|]. by intros c [? _]. }
  cbv zeta. unfold str_ok in Hok. apply Z.leb_le in Hok.
  destruct (Z.ltb_spec max_str_digits (count_digits (str_of_int n))) as [Hlt|_]; [lia|].
  clear Hok.
  pose proof (DecimalZ.of_to n) as Hn.
  destruct (to_int_not_nil n) as [Hp Hm].
  unfold str_of_int. destruct (Z.to_int n) as [u|u].
  - assert (u <> Nil) as Hu by congruence.
    assert (parse_digits 0 false (uint_chars u) = Some n) as Hparse.
    { rewrite parse_digits_uint by (by left). rewrite uint_value_of_uint.
      simpl in Hn. unfold Z.of_uint in Hn. by rewrite Hn. }
    destruct u; try done; simpl in *; exact Hparse.
  - assert (u <> Nil) as Hu by congruence.
    rewrite parse_digits_uint by (by left). rewrite uint_value_of_uint.
    simpl in Hn. unfold Z.of_uint in Hn. simpl. f_equal. lia.
Qed.

(** ** The lines of a file *)

Lemma universal_newlines_id s : CR ∉ s -> universal_newlines s = s.
Proof.
  induction s as [|c s IH]; [done|]. intros [Hc Hs]%not_elem_of_cons. simpl.
  destruct (decide (c = CR)); [done|]. by rewrite IH.
Qed.

Lemma file_lines_terminated b rest :
  LF ∉ b -> file_lines (b ++ LF :: rest) = (b ++ [LF]) :: file_lines rest.
Proof.
  induction b as [|c b IH]; simpl.
  - intros _. by destruct (decide (LF = LF)).
  - intros [Hc Hb]%not_elem_of_cons.
    destruct (decide (c = LF)); [done|]. by rewrite IH.
Qed.

Lemma file_lines_text bodies :
  Forall (fun b => LF ∉ b) bodies ->
  file_lines (text_of_lines bodies) = map (fun b => b ++ [LF]) bodies.
Proof.
  unfold text_of_lines. induction 1 as [|b bodies Hb _ IH]; simpl; [done|].
  rewrite <- app_assoc. simpl. rewrite file_lines_terminated by done.
  by rewrite IH.
Qed.

Lemma chomp_terminated b : chomp (b ++ [LF]) = b.
Proof.
  induction b as [|c b IH]; simpl.
  - by destruct (decide (LF = LF)).
  - rewrite IH. by destruct b.
Qed.

Lemma split_comma_plain f : "," ∉ f -> split_comma f = [f].
Proof.
  induction f as [|c f IH]; [done|]. intros [Hc Hf]%not_elem_of_cons. simpl.
  destruct (decide (c = ",")); [done|]. by rewrite IH.
Qed.

Lemma split_comma_app f s :
  "," ∉ f -> split_comma (f ++ "," :: s) = f :: split_comma s.
Proof.
  induction f as [|c f IH]; simpl.
  - intros _. by destruct (decide ("," = ",")).
  - intros [Hc Hf]%not_elem_of_cons.
    destruct (decide (c = ",")); [done|]. by rewrite IH.
Qed.

Lemma line_fields_row r :
  valid_row r ->
  line_fields (row_line r ++ [LF])
  = [row_country r; row_code r; row_product r; row_cost r; row_quantity r].
Proof.
  intros ((H1 & _) & (H2 & _) & (H3 & _) & (H4 & _) & (H5 & _) & _).
  unfold line_fields, row_line. rewrite chomp_terminated.
  rewrite !split_comma_app by done. by rewrite split_comma_plain.
Qed.

Lemma load_line_row r w :
  valid_row r -> load_line (row_line r ++ [LF]) w = (Val tt, with_shoe (row_shoe r) w).
Proof.
  intros Hr. pose proof (line_fields_row r Hr) as Hf.
  destruct Hr as (_ & _ & _ & _ & _ & [c Hc] & [q Hq]).
  rewrite (load_line_loadable _ w _ _ _ _ _ _ c q Hf Hc Hq).
  unfold row_shoe. by rewrite Hc, Hq.
Qed.

(** [load_line] looks at a line through [strip] only. *)
Lemma load_line_strip l1 l2 : strip l1 = strip l2 -> load_line l1 = load_line l2.
Proof. intros H. unfold load_line. by rewrite H. Qed.

Lemma for_each_load_line_strip ls1 ls2 :
  map strip ls1 = map strip ls2 -> for_each load_line ls1 = for_each load_line ls2.
Proof.
  revert ls2. induction ls1 as [|l1 ls1 IH]; intros [|l2 ls2] H; try done.
  simpl in H. injection H as H1 H. simpl.
  by rewrite (load_line_strip _ _ H1), (IH _ H).
Qed.

Lemma for_each_load_rows rows w :
  Forall valid_row rows ->
  for_each load_line (map (fun r => row_line r ++ [LF]) rows) w
  = (Val tt, fold_left (fun w r => with_shoe (row_shoe r) w) rows w).
Proof.
  intros Hrows. revert w. induction Hrows as [|r rows Hr _ IH]; intros w; [done|].
  simpl. unfold mbind, M_bind, bind. rewrite (load_line_row r w Hr). apply IH.
Qed.

(** ** The store after loading *)

Lemma with_shoe_well_formed shoe w : well_formed w -> well_formed (with_shoe shoe w).
Proof.
  unfold well_formed. simpl. intros H. rewrite length_app. simpl.
  apply Forall_app. split.
  - eapply Forall_impl; [exact H|]. simpl. intros. lia.
  - constructor; [lia|done].
Qed.

Lemma deref_app_l h h' id : (id < length h)%nat -> deref (h ++ h') id = deref h id.
Proof. intros H. unfold deref. by rewrite lookup_app_l. Qed.

Lemma with_shoe_store shoe w :
  well_formed w -> store (with_shoe shoe w) = store w ++ [shoe].
Proof.
  unfold well_formed, store. simpl. intros H. rewrite fmap_app. f_equal.
  - apply Forall_fmap_ext_1. eapply Forall_impl; [exact H|].
    simpl. intros id Hid. by apply deref_app_l.
  - simpl. unfold deref. rewrite lookup_app_r by lia. by rewrite Nat.sub_diag.
Qed.

Lemma fold_with_shoe_store {A} (f : A -> Shoe) xs w :
  well_formed w ->
  well_formed (fold_left (fun w x => with_shoe (f x) w) xs w) /\
  store (fold_left (fun w x => with_shoe (f x) w) xs w) = store w ++ map f xs.
Proof.
  revert w. induction xs as [|x xs IH]; intros w Hw; simpl.
  - by rewrite app_nil_r.
  - destruct (IH (with_shoe (f x) w)) as [Hwf Hstore].
    { by apply with_shoe_well_formed. }
    split; [done|]. rewrite Hstore, with_shoe_store by done.
    by rewrite <- app_assoc.
Qed.

Lemma fold_with_shoe_streams {A} (f : A -> Shoe) xs w :
  stdin (fold_left (fun w x => with_shoe (f x) w) xs w) = stdin w /\
  stdout (fold_left (fun w x => with_shoe (f x) w) xs w) = stdout w /\
  inventory_txt (fold_left (fun w x => with_shoe (f x) w) xs w) = inventory_txt w.
Proof.
  revert w. induction xs as [|x xs IH]; intros w; simpl; [done|].
  destruct (IH (with_shoe (f x) w)) as (-> & -> & ->). done.
Qed.

(** ** A last line without its line feed *)

Lemma file_lines_last_line s :
  s <> [] -> last s <> Some LF ->
  exists ls l, file_lines s = ls ++ [l] /\ file_lines (s ++ [LF]) = ls ++ [l ++ [LF]].
Proof.
  induction s as [|c s IH]; [done|]. intros _ Hlast.
  destruct s as [|c' s].
  - simpl in Hlast. simpl. destruct (decide (c = LF)) as [->|Hc]; [done|].
    destruct (decide (LF = LF)); [|done]. by exists [], [c].
  - rewrite last_cons_cons in Hlast.
    destruct IH as (ls & l & Hs & Hs'); [done..|].
    change ((c :: c' :: s) ++ [LF]) with (c :: ((c' :: s) ++ [LF])).
    remember (c' :: s) as t. simpl. rewrite Hs, Hs'.
    destruct (decide (c = LF)).
    + by exists ([LF] :: ls), l.
    + destruct ls as [|l0 ls]; simpl.
      * by exists [], (c :: l).
      * by exists ((c :: l0) :: ls), l.
Qed.

Lemma strip_terminated l : strip (l ++ [LF]) = strip l.
Proof. unfold strip. by rewrite rstrip_snoc_space. Qed.

Lemma file_lines_snoc s :
  s <> [] -> last s <> Some LF ->
  map strip (file_lines (s ++ [LF])) = map strip (file_lines s).
Proof.
  intros Hs Hlast. destruct (file_lines_last_line s Hs Hlast) as (ls & l & -> & ->).
  rewrite !map_app. simpl. by rewrite strip_terminated.
Qed.

Lemma text_of_lines_snoc init b :
  text_of_lines (init ++ [b]) = (text_of_lines init ++ b) ++ [LF].
Proof.
  unfold text_of_lines. rewrite map_app, concat_app. simpl.
  by rewrite app_nil_r, app_assoc.
Qed.

Lemma not_elem_of_text c bodies :
  c <> LF -> Forall (fun b => c ∉ b) bodies -> c ∉ text_of_lines bodies.
Proof.
  intros Hc. unfold text_of_lines. induction 1 as [|b bodies Hb _ IH]; simpl.
  - apply not_elem_of_nil.
  - rewrite <- app_assoc. simpl.
    rewrite not_elem_of_app, not_elem_of_cons. done.
Qed.

Lemma row_line_plain c r :
  c <> "," -> c ∉ row_country r -> c ∉ row_code r -> c ∉ row_product r ->
  c ∉ row_cost r -> c ∉ row_quantity r -> c ∉ row_line r.
Proof.
  intros. unfold row_line.
  rewrite !not_elem_of_app, !not_elem_of_cons, !not_elem_of_app, !not_elem_of_cons.
  repeat split; try done;
    rewrite ?not_elem_of_app, ?not_elem_of_cons, ?not_elem_of_app, ?not_elem_of_cons;
    repeat split; try done;
    rewrite ?not_elem_of_app, ?not_elem_of_cons; repeat split; done.
Qed.

Lemma valid_row_line r :
  valid_row r -> (LF ∉ row_line r) /\ (CR ∉ row_line r) /\ row_line r <> [].
Proof.
  intros ((? & ? & ?) & (? & ? & ?) & (? & ? & ?) & (? & ? & ?) & (? & ? & ?) & _).
  split; [by apply row_line_plain|]. split; [by apply row_line_plain|].
  unfold row_line. by destruct (row_country r).
Qed.

Lemma inventory_text_lines head rows final_newline :
  LF ∉ head -> CR ∉ head -> Forall valid_row rows ->
  inventory_text head rows final_newline <> [] ->
  exists h data,
    file_lines (universal_newlines (inventory_text head rows final_newline)) = h :: data /\
    map strip data = map strip (map (fun r => row_line r ++ [LF]) rows).
Proof.
  intros Hlf Hcr Hrows Hne.
  assert (Forall (fun b => (LF ∉ b) /\ (CR ∉ b)) (head :: map row_line rows)) as Hbodies.
  { constructor; [done|]. rewrite Forall_fmap.
    eapply Forall_impl; [exact Hrows|]. intros r Hr. simpl.
    destruct (valid_row_line r Hr) as (? & ? & _). done. }
  assert (file_lines (text_of_lines (head :: map row_line rows))
          = (head ++ [LF]) :: map (fun r => row_line r ++ [LF]) rows) as Hfull.
  { rewrite file_lines_text.
    - simpl. by rewrite map_map.
    - eapply Forall_impl; [exact Hbodies|]. by intros b [? _]. }
  assert (CR ∉ text_of_lines (head :: map row_line rows)) as Hcr_text.
  { apply not_elem_of_text; [done|].
    eapply Forall_impl; [exact Hbodies|]. by intros b [_ ?]. }
  unfold inventory_text in *. destruct final_newline.
  { rewrite universal_newlines_id by done. rewrite Hfull. by eexists _, _. }
  destruct (exists_last (l := head :: map row_line rows)) as (init & b & Hsplit); [done|].
  rewrite Hsplit in Hbodies, Hfull, Hcr_text, Hne |- *.
  rewrite text_of_lines_snoc in Hfull, Hcr_text, Hne |- *.
  rewrite removelast_last in Hne |- *.
  apply Forall_app in Hbodies as [_ Hb]. apply Forall_singleton in Hb as [Hb_lf Hb_cr].
  apply not_elem_of_app in Hcr_text as [Hcr_x _].
  rewrite universal_newlines_id by done.
  assert (last (text_of_lines init ++ b) <> Some LF) as Hlast.
  { rewrite last_app. destruct (last b) as [y|] eqn:Hy.
    - intros [= ->]. by apply last_Some_elem_of in Hy.
    - apply last_None in Hy. subst b. exfalso.
      destruct init as [|i0 init].
      + by rewrite app_nil_r in Hne.
      + simpl in Hsplit. injection Hsplit as _ Hsplit.
        assert ([] ∈ map row_line rows) as Hin.
        { rewrite Hsplit. apply elem_of_app. right. by left. }
        apply list_elem_of_fmap in Hin as (r & Hr & Hin).
        rewrite Forall_forall in Hrows. specialize (Hrows r Hin).
        destruct (valid_row_line r Hrows) as (_ & _ & Hnonempty). done. }
  pose proof (file_lines_snoc _ Hne Hlast) as Hsnoc. rewrite Hfull in Hsnoc.
  destruct (file_lines (text_of_lines init ++ b)) as [|h data]; [done|].
  simpl in Hsnoc. injection Hsnoc as _ Hdata. by exists h, data.
Qed.

(** C4, as stated, fails on a line whose first field starts with white
    space: the line is stripped before it is split, so the country loaded
    from " ZA,SKU1,Nike,100,5" is "ZA", not the field " ZA". *)
Lemma load_strips_country :
  exists w shoe,
    valid_row spaced_row /\
    read_shoes_data (initial_world (Some (inventory_text header [spaced_row] true)) [])
    = (Val tt, w) /\
    store w = [shoe] /\
    line_fields (row_line spaced_row ++ [LF]) !! 0%nat = Some (lit " ZA") /\
    country shoe = lit "ZA" /\
    country shoe <> row_country spaced_row.
Proof.
  do 2 eexists. split.
  { unfold valid_row, plain. repeat split; compute_done. }
  repeat split; vm_compute; (reflexivity || discriminate).
Qed.

(** Loading a header line and valid rows. *)
Lemma load_inventory_text head rows final_newline lines :
  LF ∉ head -> CR ∉ head -> Forall valid_row rows ->
  inventory_text head rows final_newline <> [] ->
  exists w,
    read_shoes_data
      (initial_world (Some (inventory_text head rows final_newline)) lines)
    = (Val tt, w) /\
    store w = map row_shoe rows /\ stdout w = [].
Proof.
  intros Hlf Hcr Hrows Hne.
  destruct (inventory_text_lines head rows final_newline Hlf Hcr Hrows Hne)
    as (h & data & Hlines & Hdata).
  unfold read_shoes_data. simpl. rewrite Hlines.
  rewrite (for_each_load_line_strip _ _ Hdata), for_each_load_rows by done.
  eexists. split; [reflexivity|].
  destruct (fold_with_shoe_store row_shoe rows
              (initial_world (Some (inventory_text head rows final_newline)) lines))
    as [_ Hstore]; [by constructor|].
  rewrite Hstore. simpl. split; [done|].
  by destruct (fold_with_shoe_streams row_shoe rows
                 (initial_world (Some (inventory_text head rows final_newline)) lines))
    as (_ & -> & _).
Qed.

(** C4 (amended). A file of ASCII text made of a header line and N rows of
    five fields without comma or line end, whose fourth and fifth fields
    are integers, loads as N Records in the order of the file: the country
    is the first field without the white space in front of it, code and
    product are the second and third field, cost and quantity the integers
    of the fourth and fifth. The line feed after the last line may be
    missing. Without a file, the load prints that the file was not found
    and leaves an empty store. *)
Theorem load_valid_file (head : str) (rows : list Row) (final_newline : bool)
    (lines : list str) :
  isascii head = true -> LF ∉ head -> CR ∉ head ->
  Forall valid_row rows -> Forall ascii_row rows ->
  inventory_text head rows final_newline <> [] ->
  (exists w,
      read_shoes_data
        (initial_world (Some (inventory_text head rows final_newline)) lines)
      = (Val tt, w) /\
      store w = map row_shoe rows /\ length (store w) = length rows /\
      stdout w = []) /\
  (exists w,
      read_shoes_data (initial_world None lines) = (Val tt, w) /\
      store w = [] /\ stdout w = [Print file_not_found]).
Proof.
  intros _ Hlf Hcr Hrows _ Hne. split.
  - destruct (load_inventory_text head rows final_newline lines Hlf Hcr Hrows Hne)
      as (w & Hrun & Hstore & Hout).
    exists w. split; [done|]. split; [done|]. split; [|done].
    by rewrite Hstore, length_map.
  - eexists. split; [reflexivity|]. done.
Qed.

Lemma load_valid_file_witness :
  (exists w,
      read_shoes_data
        (initial_world (Some (inventory_text header [spaced_row; spaced_row] false)) [])
      = (Val tt, w) /\
      store w = map row_shoe [spaced_row; spaced_row] /\
      length (store w) = length [spaced_row; spaced_row] /\
      stdout w = []) /\
  (exists w,
      read_shoes_data (initial_world None []) = (Val tt, w) /\
      store w = [] /\ stdout w = [Print file_not_found]).
Proof.
  apply (load_valid_file header [spaced_row; spaced_row] false []).
  - reflexivity.
  - compute_done.
  - compute_done.
  - repeat constructor; compute_done.
  - repeat constructor.
  - vm_compute. discriminate.
Defined.

(** ** What the operations of the menu do to the state *)

(** A loop of renderings goes through, or stops at the first one that
    raises; the state is as it was. *)
Lemma for_each_checks {A} (f : A -> M unit) xs w r w' :
  (forall x w0 r0 w0', f x w0 = (r0, w0') -> w0' = w0) ->
  for_each f xs w = (r, w') ->
  w' = w /\ (r = Val tt \/ exists x e, x ∈ xs /\ r = Exc e /\ f x w = (Exc e, w)).
Proof.
  intros Hf. induction xs as [|x xs IH]; simpl.
  - unfold mret, M_ret, ret. intros [= <- <-]. by split; [|left].
  - unfold mbind, M_bind, bind. destruct (f x w) as [[[]|e] w1] eqn:Hx.
    + pose proof (Hf _ _ _ _ Hx) as ->. intros Hrun.
      destruct (IH Hrun) as [-> [->|(y & e & Hy & -> & Hfy)]]; split; try done; [by left|].
      right. exists y, e. split; [by right|done].
    + pose proof (Hf _ _ _ _ Hx) as ->. intros [= <- <-]. split; [done|].
      right. exists x, e. split; [by left|done].
Qed.

Lemma view_all_effect w r w' :
  view_all w = (r, w') ->
  unchanged w w' /\ stdin w' = stdin w /\
  (r = Val tt \/ r = Exc ValueError \/
   (r = Exc OverflowError /\ exists shoe, shoe ∈ store w /\ float_ok (cost shoe) = false)).
Proof.
  unfold view_all. unfold mbind at 1 2, M_bind at 1 2, bind at 1 2, get_world.
  destruct (for_each _ (store w) w) as [r1 w1] eqn:H1.
  apply for_each_checks in H1 as [-> H1].
  2:{ intros x w0 r0 w0' H. by apply format_2f_cases in H as [? _]. }
  destruct H1 as [->|(shoe & e & Hin & -> & Hshoe)].
  2:{ apply format_2f_cases in Hshoe as [_ [?|[[= ->] Hc]]]; [done|].
      intros [= <- <-]. split; [done|]. split; [done|]. right; right.
      split; [done|]. by exists shoe. }
  unfold mbind, M_bind, bind.
  destruct (for_each _ (store w) w) as [r2 w2] eqn:H2.
  apply for_each_checks in H2 as [-> H2].
  2:{ intros x w0 r0 w0' H. by apply str_int_cases in H as [? _]. }
  destruct H2 as [->|(shoe & e & Hin & -> & Hshoe)].
  2:{ apply str_int_cases in Hshoe as [_ [?|[= ->]]]; [done|].
      intros [= <- <-]. split; [done|]. split; [done|]. by right; left. }
  unfold print, modify. intros [= <- <-]. split; [done|]. split; [done|]. by left.
Qed.

Lemma value_line_cases shoe w :
  (format_2f (cost shoe * quantity shoe);;
   print (PrintValue (code shoe) (cost shoe * quantity shoe))) w
  = (Val tt, set_stdout (stdout w ++ [PrintValue (code shoe) (cost shoe * quantity shoe)]) w)
  \/ (float_ok (cost shoe * quantity shoe) = false /\
      (format_2f (cost shoe * quantity shoe);;
       print (PrintValue (code shoe) (cost shoe * quantity shoe))) w
      = (Exc OverflowError, w)).
Proof.
  unfold format_2f. destruct (float_ok (cost shoe * quantity shoe)); [by left|by right].
Qed.

Lemma value_loop_effect shoes w r w' :
  for_each (fun shoe =>
              let value := cost shoe * quantity shoe in
              format_2f value;; print (PrintValue (code shoe) value)) shoes w = (r, w') ->
  unchanged w w' /\ stdin w' = stdin w /\
  (r = Val tt \/
   (r = Exc OverflowError /\
    exists shoe, shoe ∈ shoes /\ float_ok (cost shoe * quantity shoe) = false)).
Proof.
  revert w. induction shoes as [|shoe shoes IH]; intros w; simpl.
  - unfold mret, M_ret, ret. intros [= <- <-]. split; [done|]. split; [done|]. by left.
  - destruct (value_line_cases shoe w) as [Hline|[Hc Hline]].
    + rewrite (bind_val _ _ _ _ _ Hline). intros Hrun.
      apply IH in Hrun as (Hun & Hin & Hr).
      split; [exact Hun|]. split; [exact Hin|].
      destruct Hr as [->|[-> (s & Hs & Hc)]]; [by left|].
      right. split; [done|]. exists s. split; [by right|done].
    + rewrite (bind_exc _ _ _ _ _ Hline). intros [= <- <-]. split; [done|]. split; [done|].
      right. split; [done|]. exists shoe. split; [by left|done].
Qed.

Lemma value_per_item_effect w r w' :
  value_per_item w = (r, w') ->
  unchanged w w' /\ stdin w' = stdin w /\
  (r = Val tt \/
   (r = Exc OverflowError /\
    exists shoe, shoe ∈ store w /\ float_ok (cost shoe * quantity shoe) = false)).
Proof. unfold value_per_item. unfold_monad. apply value_loop_effect. Qed.

Lemma highest_qty_effect w r w' :
  highest_qty w = (r, w') ->
  unchanged w w' /\ stdin w' = stdin w /\
  (r = Val tt \/ r = Exc ValueError \/
   (r = Exc IndexError /\ shoe_list w = []) \/
   (r = Exc OverflowError /\ exists shoe, shoe ∈ store w /\ float_ok (cost shoe) = false)).
Proof.
  destruct (decide (shoe_list w = [])) as [Hnil|Hne].
  { rewrite highest_qty_empty by done. intros [= <- <-].
    split; [done|]. split; [done|]. by right; right; left. }
  destruct (sorted_descending_pick (quantity_of w) _ Hne) as (i & hi & Hhi & (Hi & _)).
  unfold highest_qty. unfold mbind at 1 2, M_bind at 1 2, bind at 1 2, get_world, getitem.
  rewrite Hhi. unfold ret. unfold mbind, M_bind, bind.
  destruct (__str__ _ w) as [r1 w1] eqn:Hstr.
  apply str_cases in Hstr as [-> [->|[->|[-> Hc]]]].
  - unfold print, modify. intros [= <- <-]. split; [done|]. split; [done|]. by left.
  - intros [= <- <-]. split; [done|]. split; [done|]. by right; left.
  - intros [= <- <-]. split; [done|]. split; [done|]. right; right; right.
    split; [done|]. exists (deref (heap w) hi). split; [|done].
    apply store_elem. by eapply list_elem_of_lookup_2.
Qed.

Lemma search_shoe_effect w r w' :
  search_shoe w = (r, w') ->
  unchanged w w' /\ (length (stdin w') <= length (stdin w))%nat /\
  (r = Val tt \/ r = Exc EOFError \/ r = Exc ValueError \/
   (r = Exc OverflowError /\ exists shoe, shoe ∈ store w /\ float_ok (cost shoe) = false)).
Proof.
  destruct (stdin w) as [|x rest] eqn:Hin.
  { unfold search_shoe. unfold_monad. rewrite Hin. intros [= <- <-].
    split; [done|]. split; [by rewrite Hin|]. by right; left. }
  replace w with (set_stdin (x :: rest) w) at 1 by (destruct w; simpl in *; by subst).
  rewrite search_shoe_run. unfold mbind, M_bind, bind.
  destruct (search_loop _ _ _) as [r1 w1] eqn:Hloop.
  apply search_loop_effect in Hloop as [[o ->] Hr].
  destruct Hr as [->|[->|[->|[-> Hc]]]]; simpl.
  - unfold mret, M_ret, ret. intros [= <- <-]. split; [done|]. split; [simpl; lia|]. by left.
  - unfold print, modify. intros [= <- <-]. split; [done|]. split; [simpl; lia|]. by left.
  - intros [= <- <-]. split; [done|]. split; [simpl; lia|]. by right; right; left.
  - intros [= <- <-]. split; [done|]. split; [simpl; lia|]. right; right; right. done.
Qed.

Lemma view_all_unchanged w r w' : view_all w = (r, w') -> unchanged w w'.
Proof. by intros (? & _)%view_all_effect. Qed.

Lemma value_per_item_unchanged w r w' : value_per_item w = (r, w') -> unchanged w w'.
Proof. by intros (? & _)%value_per_item_effect. Qed.

Lemma highest_qty_unchanged w r w' : highest_qty w = (r, w') -> unchanged w w'.
Proof. by intros (? & _)%highest_qty_effect. Qed.

Lemma search_shoe_unchanged w r w' : search_shoe w = (r, w') -> unchanged w w'.
Proof. by intros (? & _)%search_shoe_effect. Qed.

Lemma evolves_unchanged_r w1 w2 w3 : evolves w1 w2 -> unchanged w2 w3 -> evolves w1 w3.
Proof.
  intros [Hun|[(shoe & Hok & Hh & Hl & Hf)|(lo & a & Hin & Ha & Hh & Hl)]]
         (Hh' & Hl' & Hf').
  - left. eapply unchanged_trans; [exact Hun|done].
  - right. left. exists shoe. split; [done|]. repeat split; congruence.
  - right. right. exists lo, a. rewrite Hh', Hl'. done.
Qed.

Lemma evolves_unchanged_l w1 w2 w3 : unchanged w1 w2 -> evolves w2 w3 -> evolves w1 w3.
Proof.
  intros (Hh' & Hl' & Hf')
    [Hun|[(shoe & Hok & Hh & Hl & Hf)|(lo & a & Hin & Ha & Hh & Hl)]].
  - left. eapply unchanged_trans; [done|exact Hun].
  - right. left. exists shoe. split; [done|]. repeat split; congruence.
  - right. right. exists lo, a. rewrite Hh', Hl' in *. done.
Qed.

Lemma capture_shoes_evolves w r w' : capture_shoes w = (r, w') -> evolves w w'.
Proof.
  intros [Hun|(shoe & Hok & Happ & _)]%capture_shoes_appends_only.
  - by left.
  - right. left. by exists shoe.
Qed.

Lemma re_stock_evolves w r w' : re_stock w = (r, w') -> evolves w w'.
Proof.
  intros [Hun|(lo & a & Hin & Ha & Hh & Hl)]%re_stock_effect.
  - by left.
  - right. right. by exists lo, a.
Qed.

Lemma then_false_evolves (op : M unit) w r w' :
  (forall r1 w1, op w = (r1, w1) -> evolves w w1) ->
  (op;; mret false) w = (r, w') -> evolves w w'.
Proof.
  intros Hop. unfold mbind, M_bind, bind, mret, M_ret, ret.
  destruct (op w) as [[[]|e] w1] eqn:Hrun; intros [= <- <-]; by eapply Hop.
Qed.

Lemma dispatch_evolves n w r w' : dispatch n w = (r, w') -> evolves w w'.
Proof.
  unfold dispatch.
  repeat (match goal with |- context [decide ?P] => destruct (decide P) as [_|_] end).
  - apply then_false_evolves. intros r1 w1 H. left. by eapply view_all_unchanged.
  - apply then_false_evolves. intros r1 w1. apply capture_shoes_evolves.
  - apply then_false_evolves. intros r1 w1. apply re_stock_evolves.
  - apply then_false_evolves. intros r1 w1 H. left. by eapply search_shoe_unchanged.
  - apply then_false_evolves. intros r1 w1 H. left. by eapply value_per_item_unchanged.
  - apply then_false_evolves. intros r1 w1 H. left. by eapply highest_qty_unchanged.
  - unfold_monad. intros [= <- <-]. by left.
  - unfold_monad. intros [= <- <-]. by left.
Qed.

Lemma menu_iteration_evolves w r w' : menu_iteration w = (r, w') -> evolves w w'.
Proof.
  unfold menu_iteration, try_except_ValueError.
  unfold mbind at 1, M_bind at 1, bind at 1, input.
  destruct (stdin w) as [|x rest] eqn:Hin.
  { intros [= <- <-]. by left. }
  unfold mbind at 1, M_bind at 1, bind at 1, int_or_raise.
  destruct (int x) as [n|].
  - unfold ret.
    destruct (dispatch n (set_stdin rest w)) as [r1 w1] eqn:Hrun.
    apply dispatch_evolves in Hrun.
    assert (evolves w w1) as Hev.
    { eapply evolves_unchanged_l; [|exact Hrun]. done. }
    destruct r1 as [b|[]]; intros [= <- <-]; exact Hev.
  - unfold raise. unfold_monad. intros [= <- <-]. by left.
Qed.

(** ** An invariant of the reachable states *)

Lemma elem_of_lstrip c s : c ∈ lstrip s -> c ∈ s.
Proof.
  induction s as [|c0 s IH]; simpl; [done|].
  destruct (isspace c0); [|done]. intros H. right. by apply IH.
Qed.

Lemma elem_of_rstrip c s : c ∈ rstrip s -> c ∈ s.
Proof.
  induction s as [|c0 s IH]; [done|]. rewrite rstrip_cons.
  destruct (rstrip s) as [|c1 r].
  - destruct (isspace c0); [by intros ?%elem_of_nil|].
    intros ->%list_elem_of_singleton. by left.
  - intros [->|H]%elem_of_cons; [by left|]. right. by apply IH.
Qed.

Lemma elem_of_chomp c line : c ∈ chomp line -> c ∈ line.
Proof.
  induction line as [|c0 [|c1 line] IH]; [done| |].
  - simpl. destruct (decide (c0 = LF)); [by intros ?%elem_of_nil|done].
  - change (chomp (c0 :: c1 :: line)) with (c0 :: chomp (c1 :: line)).
    intros [->|H]%elem_of_cons; [by left|]. right. by apply IH.
Qed.

Lemma elem_of_split_comma c f s :
  f ∈ split_comma s -> c ∈ f -> c ∈ s /\ c <> ",".
Proof.
  revert f. induction s as [|c0 s IH]; intros f; simpl.
  - intros ->%list_elem_of_singleton. by intros ?%elem_of_nil.
  - destruct (decide (c0 = ",")) as [->|Hne].
    + intros [->|Hf]%elem_of_cons Hc; [by apply elem_of_nil in Hc|].
      destruct (IH f Hf Hc). split; [by right|done].
    + destruct (split_comma s) as [|g gs] eqn:Hs.
      { intros ->%list_elem_of_singleton [->|Hc]%elem_of_cons; [|by apply elem_of_nil in Hc].
        split; [by left|done]. }
      intros [->|Hf]%elem_of_cons Hc.
      * apply elem_of_cons in Hc as [->|Hc]; [split; [by left|done]|].
        destruct (IH g) as [? ?]; [by left|done|]. split; [by right|done].
      * destruct (IH f) as [? ?]; [by right|done|]. split; [by right|done].
Qed.

Lemma universal_newlines_no_cr s : CR ∉ universal_newlines s.
Proof.
  induction s as [|c s IH]; simpl; [apply not_elem_of_nil|].
  destruct (decide (c = CR)) as [->|Hc].
  - destruct s as [|c' s]; [by apply not_elem_of_cons|].
    destruct (decide (c' = LF)); [done|]. by apply not_elem_of_cons.
  - by apply not_elem_of_cons.
Qed.

Lemma file_lines_shape s line :
  line ∈ file_lines s -> (forall c, c ∈ line -> c ∈ s) /\ (LF ∉ chomp line).
Proof.
  revert line. induction s as [|c0 s IH]; intros line; simpl.
  { by intros ?%elem_of_nil. }
  destruct (decide (c0 = LF)) as [->|Hne].
  - intros [->|Hl]%elem_of_cons.
    + split; [|simpl; destruct (decide (LF = LF)); [apply not_elem_of_nil|done]].
      intros c ->%list_elem_of_singleton. by left.
    + destruct (IH line Hl) as [Hsub Hlf]. split; [|done].
      intros c Hc. right. by apply Hsub.
  - destruct (file_lines s) as [|l ls] eqn:Hs.
    + intros ->%list_elem_of_singleton. split.
      * intros c ->%list_elem_of_singleton. by left.
      * simpl. destruct (decide (c0 = LF)); [done|].
        by apply not_elem_of_cons; split; [|apply not_elem_of_nil].
    + intros [->|Hl]%elem_of_cons.
      * destruct (IH l) as [Hsub Hlf]; [by left|]. split.
        -- intros c [->|Hc]%elem_of_cons; [by left|]. right. by apply Hsub.
        -- destruct l as [|c1 l].
           ++ simpl. destruct (decide (c0 = LF)); [done|].
              by apply not_elem_of_cons; split; [|apply not_elem_of_nil].
           ++ change (chomp (c0 :: c1 :: l)) with (c0 :: chomp (c1 :: l)).
              apply not_elem_of_cons. split; [done|exact Hlf].
      * destruct (IH line) as [Hsub Hlf]; [by right|]. split; [|done].
        intros c Hc. right. by apply Hsub.
Qed.

Lemma file_lines_universal_shape text line :
  line ∈ file_lines (universal_newlines text) -> file_line_shape line.
Proof.
  intros Hl. destruct (file_lines_shape _ _ Hl) as [Hsub Hlf]. split; [|done].
  intros Hc. apply Hsub in Hc. by apply universal_newlines_no_cr in Hc.
Qed.

Lemma line_field_plain line f :
  file_line_shape line -> f ∈ line_fields line -> plain f.
Proof.
  intros [Hcr Hlf] Hf. unfold plain.
  assert (forall c, c ∈ f -> c ∈ chomp line /\ c <> ",") as Hsub.
  { intros c Hc. by eapply elem_of_split_comma. }
  split; [|split].
  - intros Hc. by destruct (Hsub _ Hc).
  - intros Hc. by destruct (Hsub _ Hc).
  - intros Hc. destruct (Hsub _ Hc) as [Hin _]. by apply elem_of_chomp in Hin.
Qed.

Lemma plain_lstrip f : plain f -> plain (lstrip f).
Proof.
  intros (H1 & H2 & H3). repeat split; intros Hc; by apply elem_of_lstrip in Hc.
Qed.

Lemma file_safe_set_quantity q shoe : file_safe shoe -> file_safe (set_quantity q shoe).
Proof. done. Qed.

Lemma file_safe_no_object : file_safe no_object.
Proof. unfold file_safe, plain. simpl. repeat split; apply not_elem_of_nil. Qed.

Lemma file_safe_deref h id : Forall file_safe h -> file_safe (deref h id).
Proof.
  intros Hh. unfold deref. destruct (h !! id) as [shoe|] eqn:Hid; simpl.
  - rewrite Forall_forall in Hh. apply Hh. by eapply list_elem_of_lookup_2.
  - apply file_safe_no_object.
Qed.

Lemma with_shoe_state_ok shoe w : file_safe shoe -> state_ok w -> state_ok (with_shoe shoe w).
Proof.
  intros Hs [Hwf Hh]. split; [by apply with_shoe_well_formed|].
  simpl. apply Forall_app. split; [done|]. by constructor.
Qed.

Lemma fields_read_plain line g :
  file_line_shape line -> g ∈ fields_read line -> plain g.
Proof.
  intros [Hcr Hlf] Hg. unfold fields_read in Hg. rewrite <- strip_chomp in Hg.
  assert (forall c, c ∈ g -> c ∈ chomp line /\ c <> ",") as Hsub.
  { intros c Hc. destruct (elem_of_split_comma c g _ Hg Hc) as [Hin Hne].
    split; [|done]. unfold strip in Hin. by apply elem_of_lstrip, elem_of_rstrip in Hin. }
  split; [|split].
  - intros Hc. by destruct (Hsub _ Hc).
  - intros Hc. by destruct (Hsub _ Hc).
  - intros Hc. destruct (Hsub _ Hc) as [Hin _]. by apply elem_of_chomp in Hin.
Qed.

Lemma fields_read_head line g gs : fields_read line = g :: gs -> lstrip g = g.
Proof.
  unfold fields_read, strip. rewrite split_comma_lstrip.
  destruct (split_comma (rstrip line)) as [|f fs]; simpl; [done|].
  intros [= <- _]. apply lstrip_idem.
Qed.

Lemma load_line_state_ok line w r w' :
  file_line_shape line -> load_line line w = (r, w') -> state_ok w -> state_ok w'.
Proof.
  intros Hshape Hrun Hok.
  destruct (loadable_or_malformed line)
    as [Hbad|(f1 & f2 & f3 & f4 & f5 & extra & c & q & Hf & H4 & H5)].
  - destruct (load_line_malformed line w Hbad) as (e & He & _).
    rewrite He in Hrun. by simplify_eq.
  - rewrite (load_line_fields _ _ _ _ _ _ _ _ _ _ Hf H4 H5) in Hrun. simplify_eq.
    apply with_shoe_state_ok; [|done].
    assert (forall f, f ∈ [f1; f2; f3] -> plain f) as Hplain.
    { intros f Hin. apply (fields_read_plain line); [done|]. rewrite Hf.
      apply elem_of_cons in Hin as [->|Hin]; [by left|].
      apply elem_of_cons in Hin as [->|Hin]; [right; by left|].
      apply list_elem_of_singleton in Hin as ->. right. right. by left. }
    split; [|split; [|split]]; simpl.
    + apply Hplain. by left.
    + apply Hplain. right. by left.
    + apply Hplain. right. right. by left.
    + by eapply fields_read_head.
Qed.

Lemma for_each_load_line_state_ok data w r w' :
  Forall file_line_shape data ->
  for_each load_line data w = (r, w') -> state_ok w -> state_ok w'.
Proof.
  intros Hdata. revert w. induction Hdata as [|line data Hline _ IH]; intros w; simpl.
  - unfold mret, M_ret, ret. by intros [= <- <-].
  - unfold mbind, M_bind, bind.
    destruct (load_line line w) as [[[]|e] w1] eqn:Hrun.
    + intros Hrest Hok. eapply IH; [exact Hrest|]. by eapply load_line_state_ok.
    + intros [= <- <-] Hok. by eapply load_line_state_ok.
Qed.

Lemma read_shoes_data_state_ok file lines r w :
  read_shoes_data (initial_world file lines) = (r, w) -> state_ok w.
Proof.
  assert (state_ok (initial_world file lines)) as Hinit.
  { split; constructor. }
  unfold read_shoes_data. simpl. destruct file as [text|].
  - destruct (file_lines (universal_newlines text)) as [|h data] eqn:Hlines.
    + unfold raise. by intros [= <- <-].
    + intros Hrun. eapply for_each_load_line_state_ok; [|exact Hrun|exact Hinit].
      apply Forall_forall. intros line Hin.
      apply (file_lines_universal_shape text). rewrite Hlines. by right.
  - unfold print, modify. intros [= <- <-]. split; constructor.
Qed.

Lemma letter_or_space_facts c :
  letter_or_space c -> c <> "," /\ c <> LF /\ c <> CR.
Proof.
  intros [Hc| ->]; [|done].
  by destruct c as [[] [] [] [] [] [] [] []]; vm_compute in Hc.
Qed.

Lemma valid_text_plain s : valid_text s -> plain s.
Proof.
  intros (_ & Hall & _). rewrite Forall_forall in Hall. unfold plain.
  repeat split; intros Hc; apply Hall, letter_or_space_facts in Hc as (? & ? & ?); done.
Qed.

Lemma valid_code_plain s : valid_code s -> plain s.
Proof.
  intros (d & ds & -> & Hall). rewrite Forall_forall in Hall. unfold plain.
  assert (forall c, c ∈ lit "SKU" ++ d :: ds -> c <> "," /\ c <> LF /\ c <> CR) as H.
  { intros c [Hc|Hc]%elem_of_app.
    - change (lit "SKU") with ["S"; "K"; "U"] in Hc.
      apply elem_of_cons in Hc as [->|Hc]; [done|].
      apply elem_of_cons in Hc as [->|Hc]; [done|].
      by apply list_elem_of_singleton in Hc as ->.
    - apply Hall, isdigit_facts in Hc as (_ & ? & ? & ? & _). done. }
  repeat split; intros Hc; apply H in Hc as (? & ? & ?); done.
Qed.

Lemma validated_file_safe shoe : validated shoe -> file_safe shoe.
Proof.
  intros (Hc & Hk & Hp & _). split; [by apply valid_text_plain|].
  split; [by apply valid_code_plain|]. split; [by apply valid_text_plain|].
  by destruct Hc as (_ & _ & ?).
Qed.

Lemma evolves_state_ok w w' : evolves w w' -> state_ok w -> state_ok w'.
Proof.
  intros [(Hh & Hl & _)|[(shoe & Hok & Hh & Hl & _)|(lo & a & Hin & Ha & Hh & Hl)]]
         [Hwf Hsafe]; unfold state_ok, well_formed in *.
  - by rewrite Hh, Hl.
  - rewrite Hh, Hl, length_app. simpl. split.
    + apply Forall_app. split; [|constructor; [lia|done]].
      eapply Forall_impl; [exact Hwf|]. simpl. intros. lia.
    + apply Forall_app. split; [done|]. constructor; [|done].
      by apply validated_file_safe.
  - rewrite Hh. unfold bumped. rewrite length_insert. split.
    + apply Forall_forall. intros id Hid.
      rewrite Forall_forall in Hwf.
      destruct Hl as [Hl|Hl]; rewrite Hl in Hid; [by apply Hwf|].
      apply replace_first_match_subset in Hid as [->|Hid]; by apply Hwf.
    + apply Forall_insert; [done|]. apply file_safe_set_quantity.
      by apply file_safe_deref.
Qed.

(** Every state the program reaches satisfies the invariant. *)
Lemma reachable_state_ok w : reachable w -> state_ok w.
Proof.
  induction 1 as [file lines w Hload|w lines w' _ IH Hturn].
  - by eapply read_shoes_data_state_ok.
  - apply menu_iteration_evolves in Hturn. eapply evolves_state_ok; [exact Hturn|].
    exact IH.
Qed.

(** ** Writing the file and reading it back *)

Lemma file_line_row shoe : file_line shoe = row_line (shoe_row shoe) ++ [LF].
Proof.
  unfold file_line, row_line, shoe_row. simpl.
  repeat (rewrite <- app_assoc; simpl). reflexivity.
Qed.

Lemma file_text_inventory shoes :
  file_text shoes = inventory_text header (map shoe_row shoes) true.
Proof.
  unfold file_text, inventory_text, text_of_lines. cbn [map concat].
  rewrite <- app_assoc. cbn [app]. do 2 f_equal.
  rewrite !map_map. f_equal. apply map_ext. intros shoe. apply file_line_row.
Qed.

Lemma str_of_int_plain n : plain (str_of_int n).
Proof.
  pose proof (str_of_int_chars n) as H. rewrite Forall_forall in H.
  unfold plain. repeat split; intros Hc; apply H in Hc as (? & ? & ? & ?); done.
Qed.

Lemma shoe_row_valid shoe :
  file_safe shoe -> within_digits shoe -> valid_row (shoe_row shoe).
Proof.
  intros (H1 & H2 & H3 & _) [Hc Hq]. unfold valid_row. simpl.
  split; [done|]. split; [done|]. split; [done|].
  split; [apply str_of_int_plain|]. split; [apply str_of_int_plain|].
  rewrite !int_str_of_int by done. split; by eexists.
Qed.

Lemma row_shoe_row shoe :
  file_safe shoe -> within_digits shoe -> row_shoe (shoe_row shoe) = shoe.
Proof.
  intros (_ & _ & _ & Hc) [Hcost Hq]. destruct shoe as [country code product cost quantity].
  unfold row_shoe, shoe_row. simpl in *. by rewrite !int_str_of_int, Hc by done.
Qed.

Lemma store_file_safe w : Forall file_safe (heap w) -> Forall file_safe (store w).
Proof.
  intros Hh. unfold store. rewrite Forall_fmap. apply Forall_forall.
  intros id _. simpl. by apply file_safe_deref.
Qed.

(** Loading what [write_inventory] wrote gives the Records that were
    written. *)
Lemma load_file_text shoes lines :
  Forall file_safe shoes -> Forall within_digits shoes ->
  exists w, read_shoes_data (initial_world (Some (file_text shoes)) lines) = (Val tt, w) /\
            store w = shoes.
Proof.
  intros Hsafe Hdigits. rewrite file_text_inventory.
  assert (Forall (fun shoe => file_safe shoe /\ within_digits shoe) shoes) as Hboth.
  { apply Forall_forall. intros shoe Hin. rewrite Forall_forall in Hsafe, Hdigits. eauto. }
  destruct (load_inventory_text header (map shoe_row shoes) true lines)
    as (w & Hrun & Hstore & _).
  - compute_done.
  - compute_done.
  - rewrite Forall_fmap. eapply Forall_impl; [exact Hboth|].
    intros shoe [? ?]. by apply shoe_row_valid.
  - done.
  - exists w. split; [done|]. rewrite Hstore, map_map.
    rewrite <- (map_id shoes) at 2. apply Forall_fmap_ext_1.
    eapply Forall_impl; [exact Hboth|]. intros shoe [? ?]. by apply row_shoe_row.
Qed.

(** The numbers of the store after a commit are those of the store
    before, and the raised quantity. *)
Lemma restocked_within_digits lo a w :
  well_formed w -> lo ∈ shoe_list w ->
  Forall (restockable a) (store w) ->
  str_ok (quantity (deref (bumped lo a (heap w)) lo)) = true /\
  Forall within_digits (store (restocked lo a w)).
Proof.
  intros Hwf Hin Hall. rewrite Forall_forall in Hall.
  pose proof (well_formed_lookup w lo Hwf Hin) as Hheap.
  destruct (bumped_insert _ _ _ a Hheap) as [Hb Hq].
  destruct (Hall _ (store_elem w lo Hin)) as (_ & [Hlc Hlq] & Hla).
  split; [by rewrite Hq|].
  unfold store, restocked. simpl. rewrite Forall_fmap. apply Forall_forall.
  intros id Hid. simpl.
  assert (id ∈ shoe_list w) as Hid'.
  { apply replace_first_match_subset in Hid as [->|?]; done. }
  match goal with |- within_digits (deref (<[_ := ?s]> _) _) =>
    destruct (deref_insert (heap w) lo s id) as [->|[-> ->]] end.
  - by destruct (Hall _ (store_elem w id Hid')) as (_ & ? & _).
  - split; simpl; done.
Qed.

(** A confirmed restock that goes through: the answer "Y", error lines,
    then an amount, on a store whose Records are [restockable]. *)
Lemma re_stock_commits w answer retries amount a rest :
  well_formed w -> shoe_list w <> [] -> Forall (restockable a) (store w) ->
  upper (strip answer) = lit "Y" ->
  Forall restock_retry retries -> int amount = Some a -> 0 <= a ->
  exists i lo o,
    first_min (quantity_of w) (shoe_list w) i lo /\
    re_stock (set_stdin (answer :: retries ++ amount :: rest) w)
    = (Val tt, restocked lo a (set_stdin rest (set_stdout (stdout w ++ o) w))).
Proof.
  intros Hwf Hne Hall Hyes Hretries Hint Ha.
  destruct (sorted_ascending_pick (quantity_of w) _ Hne) as (i & lo & Hlo & Hmin).
  pose proof Hmin as (Hi & _).
  assert (lo ∈ shoe_list w) as Hin by (by eapply list_elem_of_lookup_2).
  assert (printable (deref (heap w) lo)) as Hplo.
  { rewrite Forall_forall in Hall. by destruct (Hall _ (store_elem w lo Hin)) as (? & _). }
  rewrite (re_stock_run _ _ _ _ Hlo Hplo).
  destruct (decide (upper (strip answer) = lit "Y")); [|done].
  destruct (restock_confirmed_amount lo retries amount a rest
              (restock_shown lo [] w) Hretries Hint Ha) as [o Hconf].
  exists i, lo, ([Print lowest_stock_message; PrintShoe (deref (heap w) lo)] ++ o).
  split; [done|].
  change (restock_shown lo (retries ++ amount :: rest) w)
    with (set_stdin (retries ++ amount :: rest) (restock_shown lo [] w)).
  rewrite Hconf.
  match goal with |- restock_commit lo a ?w1 = _ =>
    destruct (restocked_within_digits lo a w1) as [Hq Hw]; [done..|];
    rewrite (restock_commit_run lo a w1 Hq Hw) end.
  f_equal. unfold restocked, restock_shown. cbn. by rewrite <- !app_assoc.
Qed.

(** C3. In a state the program can reach, whose Records are ASCII text and
    can be rendered, after a confirmed restock (the answer "Y", any error
    lines, then an amount that is not negative) loading the file that
    [re_stock] wrote gives a store equal to the store in memory: as many
    Records, in the same order, with the same five fields. *)
Theorem restock_reload_round_trip (w : world) (answer : str) (retries : list str)
    (amount : str) (a : Z) (rest lines : list str) :
  reachable w -> shoe_list w <> [] ->
  Forall ascii_shoe (store w) -> Forall (restockable a) (store w) ->
  ascii_lines (answer :: retries ++ [amount]) ->
  upper (strip answer) = lit "Y" ->
  Forall restock_retry retries -> int amount = Some a -> 0 <= a ->
  exists w' text w2,
    re_stock (set_stdin (answer :: retries ++ amount :: rest) w) = (Val tt, w') /\
    inventory_txt w' = Some text /\
    read_shoes_data (initial_world (Some text) lines) = (Val tt, w2) /\
    store w2 = store w' /\ length (store w') = length (store w).
Proof.
  intros Hreach Hne _ Hall _ Hyes Hretries Hint Ha.
  destruct (reachable_state_ok w Hreach) as [Hwf Hsafe].
  destruct (re_stock_commits w answer retries amount a rest Hwf Hne Hall Hyes Hretries
              Hint Ha) as (i & lo & o & Hmin & Hrun).
  pose proof Hmin as (Hi & _).
  assert (lo ∈ shoe_list w) as Hin by (by eapply list_elem_of_lookup_2).
  match type of Hrun with _ = (_, ?x) => set (w' := x) in * end.
  assert (state_ok w') as [_ Hsafe'].
  { eapply evolves_state_ok; [eapply re_stock_evolves; exact Hrun|]. by split. }
  destruct (restocked_within_digits lo a
              (set_stdin rest (set_stdout (stdout w ++ o) w))) as [_ Hdigits]; [done..|].
  destruct (load_file_text (store w') lines) as (w2 & Hload & Hstore).
  { by apply store_file_safe. }
  { exact Hdigits. }
  exists w', (file_text (store w')), w2.
  split; [done|]. split; [done|]. split; [done|]. split; [done|].
  unfold store, w', restocked. cbn. by rewrite !length_map, replace_first_match_length.
Qed.

Lemma reachable_loaded_sample : reachable loaded_sample.
Proof. by apply (reach_start (Some same_code_file) []). Qed.

Lemma restock_reload_round_trip_witness :
  exists w' text w2,
    re_stock (set_stdin (lit " y " :: [lit "many"; lit "-1"] ++ lit "12" :: [])
                        loaded_sample) = (Val tt, w') /\
    inventory_txt w' = Some text /\
    read_shoes_data (initial_world (Some text) []) = (Val tt, w2) /\
    store w2 = store w' /\ length (store w') = length (store loaded_sample).
Proof.
  apply (restock_reload_round_trip loaded_sample (lit " y ")
           [lit "many"; lit "-1"] (lit "12") 12 [] []).
  - exact reachable_loaded_sample.
  - vm_compute. discriminate.
  - repeat constructor.
  - repeat constructor.
  - repeat constructor.
  - reflexivity.
  - constructor; [|constructor; [|constructor]].
    + split; [vm_compute; discriminate|left; reflexivity].
    + split; [vm_compute; discriminate|].
      right. exists (-1). split; [reflexivity|lia].
  - reflexivity.
  - lia.
Defined.

(** ** Restocking when the codes are distinct *)

Lemma code_deref_insert h lo q id :
  code (deref (<[lo := set_quantity q (deref h lo)]> h) id) = code (deref h id).
Proof.
  destruct (deref_insert h lo (set_quantity q (deref h lo)) id) as [->|[-> ->]]; done.
Qed.

Lemma replace_first_match_self h lo l i :
  l !! i = Some lo ->
  (forall j id, (j < i)%nat -> l !! j = Some id ->
                code (deref h id) <> code (deref h lo)) ->
  replace_first_match h lo l = l.
Proof.
  revert i. induction l as [|x l IH]; intros i Hi Hbefore; [done|]. simpl.
  destruct i as [|i]; simpl in Hi.
  - simplify_eq. by destruct (decide (code (deref h lo) = code (deref h lo))).
  - destruct (decide (code (deref h x) = code (deref h lo))) as [Heq|_].
    + exfalso. apply (Hbefore 0%nat x); [lia|done|done].
    + f_equal. apply (IH i Hi). intros j id Hj Hid.
      apply (Hbefore (S j) id); [lia|done].
Qed.

(** The store after [restock_commit], when the references of the store
    are distinct and the shoe picked at index [i] is the first with its
    code: one quantity has grown, nothing else has changed. *)
Lemma restocked_store w i lo a :
  well_formed w -> NoDup (shoe_list w) ->
  shoe_list w !! i = Some lo ->
  (forall j id, (j < i)%nat -> shoe_list w !! j = Some id ->
                code (deref (heap w) id) <> code (deref (heap w) lo)) ->
  shoe_list (restocked lo a w) = shoe_list w /\
  store (restocked lo a w)
  = <[i := set_quantity (quantity (deref (heap w) lo) + a) (deref (heap w) lo)]> (store w).
Proof.
  intros Hwf Hnodup Hi Hbefore.
  assert (shoe_list (restocked lo a w) = shoe_list w) as Hlist.
  { unfold restocked. simpl. apply (replace_first_match_self _ _ _ i Hi).
    intros j id Hj Hid. rewrite !code_deref_insert. by apply (Hbefore j). }
  split; [done|]. unfold store. rewrite Hlist. unfold restocked. simpl.
  apply list_eq. intros j. rewrite list_lookup_fmap.
  assert (lo < length (heap w))%nat as Hlo.
  { unfold well_formed in Hwf. rewrite Forall_forall in Hwf.
    apply Hwf. by eapply list_elem_of_lookup_2. }
  destruct (decide (i = j)) as [<-|Hne].
  - rewrite Hi. simpl. rewrite list_lookup_insert_eq.
    + unfold deref at 1. by rewrite list_lookup_insert_eq.
    + rewrite length_map. by eapply lookup_lt_Some.
  - rewrite list_lookup_insert_ne by done. rewrite list_lookup_fmap.
    destruct (shoe_list w !! j) as [id|] eqn:Hj; simpl; [|done].
    f_equal. unfold deref. rewrite list_lookup_insert_ne; [done|].
    intros <-. apply Hne. by eapply NoDup_lookup.
Qed.

(** When no two Records of the store share a code, a confirmed restock
    with amount [a] adds [a] to the quantity of the earliest Record of
    minimal quantity and leaves every other Record, and the order of the
    store, as they were; the file then holds the new store. *)
Theorem restock_changes_one_record (w : world) (answer : str) (retries : list str)
    (amount : str) (a : Z) (rest : list str) :
  well_formed w -> NoDup (map code (store w)) -> shoe_list w <> [] ->
  Forall ascii_shoe (store w) -> Forall (restockable a) (store w) ->
  ascii_lines (answer :: retries ++ [amount]) ->
  upper (strip answer) = lit "Y" ->
  Forall restock_retry retries -> int amount = Some a -> 0 <= a ->
  exists i shoe w',
    first_min quantity (store w) i shoe /\
    re_stock (set_stdin (answer :: retries ++ amount :: rest) w) = (Val tt, w') /\
    store w' = <[i := set_quantity (quantity shoe + a) shoe]> (store w) /\
    inventory_txt w' = Some (file_text (store w')) /\
    stdin w' = rest.
Proof.
  intros Hwf Hcodes Hne _ Hall _ Hyes Hretries Hint Ha.
  destruct (re_stock_commits w answer retries amount a rest Hwf Hne Hall Hyes Hretries
              Hint Ha) as (i & lo & o & Hmin & Hrun).
  pose proof Hmin as (Hi & _).
  assert (NoDup (shoe_list w)) as Hnodup.
  { unfold store in Hcodes. rewrite map_map in Hcodes.
    by apply NoDup_fmap_1 in Hcodes. }
  destruct (restocked_store (set_stdin rest (set_stdout (stdout w ++ o) w)) i lo a
              Hwf Hnodup Hi) as [Hlist Hstore].
  { intros j id Hj Hid Hcode. simpl in Hid, Hcode.
    assert (map code (store w) !! j = Some (code (deref (heap w) id))) as H1.
    { unfold store. by rewrite !list_lookup_fmap, Hid. }
    assert (map code (store w) !! i = Some (code (deref (heap w) lo))) as H2.
    { unfold store. by rewrite !list_lookup_fmap, Hi. }
    rewrite Hcode in H1.
    pose proof (NoDup_lookup _ _ _ _ Hcodes H1 H2). lia. }
  eexists i, (deref (heap w) lo), _.
  split; [by apply first_min_store|].
  split; [exact Hrun|]. split; [exact Hstore|]. done.
Qed.

Lemma restock_changes_one_record_witness :
  exists i shoe w',
    first_min quantity (store four_shoes) i shoe /\
    re_stock (set_stdin (lit "y" :: [lit "ten"] ++ lit "10" :: [lit "7"]) four_shoes)
    = (Val tt, w') /\
    store w' = <[i := set_quantity (quantity shoe + 10) shoe]> (store four_shoes) /\
    inventory_txt w' = Some (file_text (store w')) /\
    stdin w' = [lit "7"].
Proof.
  apply (restock_changes_one_record four_shoes (lit "y") [lit "ten"] (lit "10") 10
           [lit "7"]).
  - repeat constructor; simpl; lia.
  - compute_done.
  - simpl. discriminate.
  - repeat constructor.
  - repeat constructor.
  - repeat constructor.
  - reflexivity.
  - constructor; [|constructor].
    split; [vm_compute; discriminate|left; reflexivity].
  - reflexivity.
  - lia.
Defined.

(** ** Giving up a restock at the amount prompt *)

(** After the answer "Y" and any number of rejected amounts, the line "x"
    or "X" ends [re_stock] with heap, store and file as they were. *)
Theorem restock_amount_cancel (w : world) (answer : str) (retries : list str)
    (x : str) (rest : list str) :
  shoe_list w <> [] -> Forall printable (store w) -> Forall ascii_shoe (store w) ->
  ascii_lines (answer :: retries ++ [x]) ->
  upper (strip answer) = lit "Y" ->
  Forall restock_retry retries -> lower x = lit "x" ->
  exists w' o,
    re_stock (set_stdin (answer :: retries ++ x :: rest) w) = (Val tt, w') /\
    unchanged w w' /\ store w' = store w /\ stdin w' = rest /\
    stdout w' = stdout w ++ o ++ [Print (lit "Restock cancelled.")].
Proof.
  intros Hne Hprint _ _ Hyes Hretries Hx.
  destruct (sorted_ascending_pick (quantity_of w) _ Hne) as (i & lo & Hlo & (Hi & _)).
  rewrite (re_stock_run w answer (retries ++ x :: rest) lo Hlo).
  2:{ apply printable_pick; [done|]. by eapply list_elem_of_lookup_2. }
  destruct (decide (upper (strip answer) = lit "Y")); [|done].
  destruct (while_input_retry restock_body retries (x :: rest)) as [o Ho].
  { eapply Forall_impl; [exact Hretries|]. apply restock_retry_continue. }
  unfold restock_confirmed, or_return, prompt, restock_shown.
  assert (restock_body x = (Return, [Print (lit "Restock cancelled.")])) as Hbody.
  { unfold restock_body. by destruct (decide (lower x = lit "x")). }
  unfold mbind, M_bind, bind. cbn [stdin set_stdin]. rewrite Ho.
  cbn [while_input]. rewrite Hbody. cbv beta iota zeta.
  unfold mret, M_ret, ret.
  exists (set_stdout
            ((stdout w ++ [Print lowest_stock_message; PrintShoe (deref (heap w) lo)])
               ++ o ++ [Print (lit "Restock cancelled.")])
            (set_stdin rest w)).
  exists ([Print lowest_stock_message; PrintShoe (deref (heap w) lo)] ++ o).
  split; [reflexivity|].
  split; [done|]. split; [done|]. split; [done|].
  cbn [stdout set_stdout]. by rewrite <- !app_assoc.
Qed.

Lemma restock_amount_cancel_witness :
  exists w' o,
    re_stock (set_stdin (lit "Y" :: [lit " x"; lit "-4"] ++ lit "X" :: [lit "1"])
                        four_shoes) = (Val tt, w') /\
    unchanged four_shoes w' /\ store w' = store four_shoes /\ stdin w' = [lit "1"] /\
    stdout w' = stdout four_shoes ++ o ++ [Print (lit "Restock cancelled.")].
Proof.
  apply (restock_amount_cancel four_shoes (lit "Y") [lit " x"; lit "-4"] (lit "X")
           [lit "1"]).
  - simpl. discriminate.
  - repeat constructor.
  - repeat constructor.
  - repeat constructor.
  - reflexivity.
  - constructor; [|constructor; [|constructor]].
    + split; [vm_compute; discriminate|left; reflexivity].
    + split; [vm_compute; discriminate|].
      right. exists (-4). split; [reflexivity|lia].
  - reflexivity.
Defined.

(** ** A selection that is not on the menu *)

(** A line of ASCII text that is no integer, or an integer outside 1..7,
    prints the message of its case and changes nothing; the loop goes
    on. *)
Theorem menu_invalid_selection (w : world) (x : str) (rest : list str) :
  isascii x = true ->
  (int x = None ->
     menu_iteration (set_stdin (x :: rest) w)
     = (Val false,
        set_stdin rest
          (set_stdout (stdout w ++ [Print (lit "Invalid input. Select a valid number")])
                      w))) /\
  (forall n, int x = Some n -> n < 1 \/ 7 < n ->
     menu_iteration (set_stdin (x :: rest) w)
     = (Val false,
        set_stdin rest
          (set_stdout
             (stdout w ++ [Print (lit "Invalid input given. Select a valid number")])
             w))).
Proof.
  intros _. split.
  - intros Hint. unfold menu_iteration, try_except_ValueError. unfold_monad.
    cbn [stdin set_stdin]. rewrite Hint. reflexivity.
  - intros n Hint Hn. rewrite (menu_iteration_run _ _ _ n Hint).
    unfold try_except_ValueError, dispatch.
    repeat (match goal with |- context [decide ?P] => destruct (decide P) as [?|_] end;
            [lia|]).
    reflexivity.
Qed.

Lemma menu_invalid_selection_witness :
  menu_iteration (set_stdin [lit "seven"] four_shoes)
  = (Val false,
     set_stdin []
       (set_stdout [Print (lit "Invalid input. Select a valid number")] four_shoes)) /\
  menu_iteration (set_stdin [lit "8"] four_shoes)
  = (Val false,
     set_stdin []
       (set_stdout [Print (lit "Invalid input given. Select a valid number")]
                   four_shoes)).
Proof.
  destruct (menu_invalid_selection four_shoes (lit "seven") [] eq_refl) as [H1 _].
  destruct (menu_invalid_selection four_shoes (lit "8") [] eq_refl) as [_ H2].
  split.
  - apply H1. reflexivity.
  - apply (H2 8); [reflexivity|lia].
Defined.

(** ** The exceptions of a menu turn *)

Lemma only_eof_or_return {A} (body : str -> ctl A * list output) (k : A -> M unit) :
  (forall a, only_eof (k a)) -> only_eof (or_return (prompt body) k).
Proof.
  intros Hk w e w'. unfold or_return, prompt, mbind, M_bind, bind.
  destruct (while_input body (stdin w)) as [[[[a|]|e0] rest] o] eqn:Hloop.
  - apply Hk.
  - done.
  - intros [= <- <-]. by destruct (while_input_exc _ _ _ _ _ Hloop).
Qed.

Lemma only_eof_total {A} (k : M A) : (forall w, exists a w', k w = (Val a, w')) -> only_eof k.
Proof. intros Hk w e w' Hrun. destruct (Hk w) as (a & w1 & H). congruence. Qed.

Lemma capture_shoes_only_eof : only_eof capture_shoes.
Proof.
  intros w e w'. unfold capture_shoes.
  unfold mbind at 1, M_bind at 1, bind at 1, print, modify.
  apply only_eof_or_return. intros country.
  apply only_eof_or_return. intros code.
  apply only_eof_or_return. intros product.
  apply only_eof_or_return. intros cost.
  apply only_eof_or_return. intros quantity.
  apply only_eof_total. intros w0. by eexists _, _.
Qed.

Lemma with_own_stdin w : set_stdin (stdin w) w = w.
Proof. by destruct w. Qed.

Lemma re_stock_exceptions w e w' :
  re_stock w = (Exc e, w') -> may_raise w e.
Proof.
  destruct (decide (shoe_list w = [])) as [Hnil|Hne].
  { rewrite re_stock_empty by done. intros [= <- <-]. by right; right; left. }
  destruct (sorted_ascending_pick (quantity_of w) _ Hne) as (i & lo & Hlo & (Hi & _)).
  unfold re_stock. unfold mbind at 1 2, M_bind at 1 2, bind at 1 2, get_world, getitem.
  rewrite Hlo. unfold ret.
  unfold mbind at 1 2, M_bind at 1 2, bind at 1 2, print at 1, modify.
  destruct (__str__ _ _) as [r1 w1] eqn:Hstr.
  apply str_cases in Hstr as [-> Hr1].
  destruct Hr1 as [->|[->|[-> Hc]]].
  - unfold mbind at 1 2, M_bind at 1 2, bind at 1 2, print at 1, modify, input.
    cbn [stdin set_stdout].
    destruct (stdin w) as [|answer rest] eqn:Hstdin.
    { intros [= <- <-]. by left. }
    destruct (decide (upper (strip answer) = lit "Y")) as [_|_].
    2:{ unfold print, modify. intros [= <-]. }
    match goal with |- restock_confirmed lo ?w0 = _ -> _ =>
      destruct (restock_confirmed_effect lo w0) as (r0 & w0' & o & Hrun & _ & _ & Hr & _) end.
    rewrite Hrun. intros [= -> <-].
    destruct Hr as [?|[[= ->]|[= ->]]]; [done|by right; left|by left].
  - intros [= <- <-]. by right; left.
  - intros [= <- <-]. right; right; right. split; [done|].
    exists (deref (heap w) lo). split; [|by left].
    apply store_elem. by eapply list_elem_of_lookup_2.
Qed.

Lemma then_false_exc (op : M unit) w e w' :
  (op;; mret false) w = (Exc e, w') -> op w = (Exc e, w').
Proof.
  unfold mbind, M_bind, bind, mret, M_ret, ret.
  destruct (op w) as [[[]|e0] w1]; by intros [= <- <-].
Qed.

(** What an operation of the menu can raise. *)
Lemma dispatch_exceptions n w e w' :
  dispatch n w = (Exc e, w') -> may_raise w e.
Proof.
  unfold dispatch.
  repeat (match goal with |- context [decide ?P] => destruct (decide P) as [_|_] end).
  - intros H%then_false_exc. apply view_all_effect in H as (_ & _ & Hr).
    destruct Hr as [?|[[= ->]|[[= ->] (shoe & Hin & Hc)]]]; [done|by right; left|].
    right; right; right. split; [done|]. exists shoe. split; [done|by left].
  - intros H%then_false_exc. left. by eapply capture_shoes_only_eof.
  - intros H%then_false_exc. by apply re_stock_exceptions in H.
  - intros H%then_false_exc. apply search_shoe_effect in H as (_ & _ & Hr).
    destruct Hr as [?|[[= ->]|[[= ->]|[[= ->] (shoe & Hin & Hc)]]]];
      [done|by left|by right; left|].
    right; right; right. split; [done|]. exists shoe. split; [done|by left].
  - intros H%then_false_exc. apply value_per_item_effect in H as (_ & _ & Hr).
    destruct Hr as [?|[[= ->] (shoe & Hin & Hc)]]; [done|].
    right; right; right. split; [done|]. exists shoe. split; [done|by right].
  - intros H%then_false_exc. apply highest_qty_effect in H as (_ & _ & Hr).
    destruct Hr as [?|[[= ->]|[[[= ->] Hnil]|[[= ->] (shoe & Hin & Hc)]]]];
      [done|by right; left|by right; right; left|].
    right; right; right. split; [done|]. exists shoe. split; [done|by left].
  - unfold_monad. done.
  - unfold_monad. done.
Qed.

Lemma renderable_float_ok w shoe :
  renderable w -> shoe ∈ store w ->
  float_ok (cost shoe) = true /\ float_ok (cost shoe * quantity shoe) = true.
Proof.
  intros Hr Hin. unfold renderable in Hr. rewrite Forall_forall in Hr.
  destruct (Hr _ Hin) as [Hc Hv]. split; by apply float_range_ok.
Qed.

(** A menu turn ends with an exception in two cases only: the input has
    come to its end ([EOFError]), or the store is empty and the selection
    was 3 or 6 ([IndexError]). On a store that is not empty, nothing but
    the end of the input stops the program. *)
Theorem menu_turn_exceptions (w : world) (e : exn) (w' : world) :
  renderable w ->
  menu_iteration w = (Exc e, w') ->
  e = EOFError \/ (e = IndexError /\ shoe_list w = []).
Proof.
  intros Hrender. unfold menu_iteration, try_except_ValueError.
  unfold mbind at 1, M_bind at 1, bind at 1, input.
  destruct (stdin w) as [|x rest] eqn:Hin.
  { intros [= <- <-]. by left. }
  unfold mbind at 1, M_bind at 1, bind at 1, int_or_raise.
  destruct (int x) as [n|].
  - unfold ret.
    destruct (dispatch n (set_stdin rest w)) as [r1 w1] eqn:Hrun.
    destruct r1 as [b|e1]; [done|].
    apply dispatch_exceptions in Hrun.
    destruct Hrun as [->|[->|[[-> Hnil]|[-> (shoe & Hshoe & Hc)]]]].
    + intros [= <- <-]. by left.
    + unfold_monad. done.
    + intros [= <- <-]. by right.
    + destruct (renderable_float_ok w shoe Hrender Hshoe) as [H1 H2].
      destruct Hc; congruence.
  - unfold raise. unfold_monad. done.
Qed.

Lemma menu_turn_exceptions_witness :
  IndexError = EOFError \/ (IndexError = IndexError /\ shoe_list (initial_world None []) = []).
Proof.
  apply (menu_turn_exceptions (set_stdin [lit "6"] (initial_world None [])) IndexError
           (initial_world None [])).
  - constructor.
  - reflexivity.
Defined.

(** ** The program ends *)

Lemma reads_only_ret {A} (a : A) : reads_only (mret a : M A).
Proof. intros w r w'. unfold mret, M_ret, ret. by intros [= <- <-]. Qed.

Lemma reads_only_bind {A B} (m : M A) (f : A -> M B) :
  reads_only m -> (forall a, reads_only (f a)) -> reads_only (m ≫= f).
Proof.
  intros Hm Hf w r w'. unfold mbind, M_bind, bind.
  destruct (m w) as [[a|e] w1] eqn:Hrun.
  - intros Hrun'. apply Hm in Hrun. apply Hf in Hrun'. lia.
  - intros [= <- <-]. by apply Hm in Hrun.
Qed.

Lemma reads_only_modify (f : world -> world) :
  (forall w, stdin (f w) = stdin w) -> reads_only (modify f).
Proof. intros Hf w r w'. unfold modify. intros [= <- <-]. by rewrite Hf. Qed.

Lemma reads_only_print o : reads_only (print o).
Proof. by apply reads_only_modify. Qed.

Lemma reads_only_raise {A} e : reads_only (raise e : M A).
Proof. intros w r w'. unfold raise. by intros [= <- <-]. Qed.

Lemma reads_only_format_2f n : reads_only (format_2f n).
Proof. intros w r w' H. by apply format_2f_cases in H as [-> _]. Qed.

Lemma reads_only_str_int n : reads_only (str_int n).
Proof. intros w r w' H. by apply str_int_cases in H as [-> _]. Qed.

Lemma reads_only_str shoe : reads_only (__str__ shoe).
Proof. intros w r w' H. by apply str_cases in H as [-> _]. Qed.

Lemma reads_only_get_world : reads_only get_world.
Proof. intros w r w'. unfold get_world. by intros [= <- <-]. Qed.

Lemma reads_only_getitem {A} (l : list A) i : reads_only (getitem l i).
Proof.
  intros w r w'. unfold getitem, ret, raise. destruct (l !! i); by intros [= <- <-].
Qed.

Lemma reads_only_input : reads_only input.
Proof.
  intros w r w'. unfold input. destruct (stdin w) as [|x rest] eqn:Hin.
  - intros [= <- <-]. by rewrite Hin.
  - intros [= <- <-]. simpl. lia.
Qed.

Lemma reads_only_prompt {A} (body : str -> ctl A * list output) : reads_only (prompt body).
Proof.
  intros w r w'. unfold prompt.
  destruct (while_input body (stdin w)) as [[r0 rest] o] eqn:Hloop.
  intros [= <- <-]. simpl. by eapply while_input_length.
Qed.

Lemma reads_only_or_return {A} (body : str -> ctl A * list output) (k : A -> M unit) :
  (forall a, reads_only (k a)) -> reads_only (or_return (prompt body) k).
Proof.
  intros Hk. unfold or_return. apply reads_only_bind; [apply reads_only_prompt|].
  intros [a|]; [apply Hk|apply reads_only_ret].
Qed.

Lemma reads_only_for_each {A} (body : A -> M unit) xs :
  (forall x, reads_only (body x)) -> reads_only (for_each body xs).
Proof.
  intros Hbody. induction xs as [|x xs IH]; simpl.
  - apply reads_only_ret.
  - apply reads_only_bind; [apply Hbody|]. intros _. apply IH.
Qed.

Lemma reads_only_view_all : reads_only view_all.
Proof. intros w r w' H. apply view_all_effect in H as (_ & -> & _). done. Qed.

Lemma reads_only_capture_shoes : reads_only capture_shoes.
Proof.
  unfold capture_shoes. apply reads_only_bind; [apply reads_only_print|]. intros _.
  do 5 (apply reads_only_or_return; intros ?).
  apply reads_only_bind.
  - intros w r w'. unfold new_shoe. by intros [= <- <-].
  - intros obj. apply reads_only_bind; [by apply reads_only_modify|].
    intros _. apply reads_only_print.
Qed.

Lemma reads_only_re_stock : reads_only re_stock.
Proof.
  unfold re_stock. apply reads_only_bind; [apply reads_only_get_world|]. intros w.
  apply reads_only_bind; [apply reads_only_getitem|]. intros lo.
  apply reads_only_bind; [apply reads_only_print|]. intros _.
  apply reads_only_bind; [apply reads_only_str|]. intros _.
  apply reads_only_bind; [apply reads_only_print|]. intros _.
  apply reads_only_bind; [apply reads_only_input|]. intros answer.
  destruct (decide (upper (strip answer) = lit "Y")); [|apply reads_only_print].
  intros w0 r w' Hrun.
  destruct (restock_confirmed_effect lo w0) as (r0 & w0' & o & Hrun' & _ & Hlen & _).
  rewrite Hrun in Hrun'. by simplify_eq.
Qed.

Lemma reads_only_search_shoe : reads_only search_shoe.
Proof. intros w r w' H. by apply search_shoe_effect in H as (_ & ? & _). Qed.

Lemma reads_only_value_per_item : reads_only value_per_item.
Proof. intros w r w' H. apply value_per_item_effect in H as (_ & -> & _). done. Qed.

Lemma reads_only_highest_qty : reads_only highest_qty.
Proof. intros w r w' H. apply highest_qty_effect in H as (_ & -> & _). done. Qed.

Lemma reads_only_dispatch n : reads_only (dispatch n).
Proof.
  unfold dispatch.
  repeat (match goal with |- context [decide ?P] => destruct (decide P) as [_|_] end);
    (apply reads_only_bind; [|intros _; apply reads_only_ret]).
  - apply reads_only_view_all.
  - apply reads_only_capture_shoes.
  - apply reads_only_re_stock.
  - apply reads_only_search_shoe.
  - apply reads_only_value_per_item.
  - apply reads_only_highest_qty.
  - apply reads_only_print.
  - apply reads_only_print.
Qed.

(** A menu turn that does not raise has read at least one line. *)
Lemma menu_iteration_reads w b w' :
  menu_iteration w = (Val b, w') -> (length (stdin w') < length (stdin w))%nat.
Proof.
  unfold menu_iteration, try_except_ValueError.
  unfold mbind at 1, M_bind at 1, bind at 1, input.
  destruct (stdin w) as [|x rest] eqn:Hin; [done|].
  unfold mbind at 1, M_bind at 1, bind at 1, int_or_raise.
  destruct (int x) as [n|].
  - unfold ret.
    destruct (dispatch n (set_stdin rest w)) as [r1 w1] eqn:Hrun.
    apply reads_only_dispatch in Hrun. simpl in Hrun.
    destruct r1 as [b1|[]]; try done.
    + intros [= <- <-]. simpl. lia.
    + unfold_monad. intros [= <- <-]. simpl. lia.
  - unfold raise. unfold_monad. intros [= <- <-]. simpl. lia.
Qed.

Lemma menu_iteration_reads_only : reads_only menu_iteration.
Proof.
  intros w r w'. unfold menu_iteration, try_except_ValueError.
  destruct ((x ← input; menu_input ← int_or_raise x; dispatch menu_input) w)
    as [r1 w1] eqn:Hrun.
  assert (length (stdin w1) <= length (stdin w))%nat as Hle.
  { revert Hrun. apply reads_only_bind; [apply reads_only_input|]. intros x.
    apply reads_only_bind; [|apply reads_only_dispatch].
    intros w0 r0 w0'. unfold int_or_raise, ret, raise.
    destruct (int x); by intros [= <- <-]. }
  destruct r1 as [b|[]]; by intros [= <- <-].
Qed.

Lemma menu_loop_fuel fuel w :
  (length (stdin w) < fuel)%nat ->
  exists r w', menu_loop fuel w = Some (r, w') /\
               (length (stdin w') <= length (stdin w))%nat.
Proof.
  revert w. induction fuel as [|fuel IH]; intros w Hfuel; [lia|]. simpl.
  destruct (menu_iteration w) as [[[]|e] w1] eqn:Hturn.
  - exists (Val tt), w1. split; [done|]. apply menu_iteration_reads in Hturn. lia.
  - apply menu_iteration_reads in Hturn.
    destruct (IH w1) as (r & w' & Hloop & Hle); [lia|].
    exists r, w'. split; [done|]. lia.
  - exists (Exc e), w1. split; [done|]. by apply menu_iteration_reads_only in Hturn.
Qed.

Lemma read_shoes_data_streams w r w' :
  read_shoes_data w = (r, w') -> stdin w' = stdin w /\ inventory_txt w' = inventory_txt w.
Proof.
  assert (forall data w r w', for_each load_line data w = (r, w') ->
            stdin w' = stdin w /\ inventory_txt w' = inventory_txt w) as Hloop.
  { induction data as [|line data IH]; intros w0 r0 w0'; simpl.
    - unfold mret, M_ret, ret. by intros [= <- <-].
    - unfold mbind, M_bind, bind.
      destruct (loadable_or_malformed line)
        as [Hbad|(f1 & f2 & f3 & f4 & f5 & extra & c & q & Hf & H4 & H5)].
      + destruct (load_line_malformed line w0 Hbad) as (e & -> & _).
        by intros [= <- <-].
      + rewrite (load_line_fields _ _ _ _ _ _ _ _ _ _ Hf H4 H5).
        intros Hrun. by apply IH in Hrun. }
  unfold read_shoes_data. destruct (inventory_txt w) as [text|] eqn:Hfile.
  - destruct (file_lines (universal_newlines text)) as [|h data].
    + unfold raise. by intros [= <- <-].
    + intros Hrun. apply Hloop in Hrun as [? ?]. split; congruence.
  - unfold print, modify. by intros [= <- <-].
Qed.

(** Whatever the file and whatever is typed, the script comes to an end:
    the menu loop reads at least one line per turn, so the lines typed
    bound the number of turns. *)
Theorem program_terminates (file : option str) (lines : list str) :
  exists r w, program file lines = Some (r, w) /\
              (length (stdin w) <= length lines)%nat.
Proof.
  unfold program.
  destruct (read_shoes_data (initial_world file lines)) as [[[]|e] w] eqn:Hload;
    apply read_shoes_data_streams in Hload as [Hin _]; simpl in Hin.
  - destruct (menu_loop_fuel (S (length (stdin w))) w) as (r & w' & Hloop & Hle); [lia|].
    exists r, w'. split; [done|]. by rewrite <- Hin.
  - exists (Exc e), w. split; [done|]. by rewrite Hin.
Qed.

(** ** When the load succeeds *)

Lemma file_lines_nil s : file_lines s = [] -> s = [].
Proof.
  destruct s as [|c s]; [done|]. simpl.
  destruct (decide (c = LF)); [done|]. by destruct (file_lines s).
Qed.

Lemma universal_newlines_nil s : universal_newlines s = [] -> s = [].
Proof.
  induction s as [|c s IH]; [done|]. simpl.
  destruct (decide (c = CR)); [|done].
  destruct s as [|c' s]; [done|].
  destruct (decide (c' = LF)); [|done]. intros H. by apply IH in H.
Qed.

Lemma loadable_not_malformed line f1 f2 f3 f4 f5 extra c q :
  fields_read line = f1 :: f2 :: f3 :: f4 :: f5 :: extra ->
  int f4 = Some c -> int f5 = Some q -> ~ malformed line.
Proof.
  intros Hf H4 H5 [Hlen|[(f & Hl & Hint)|(f & Hl & Hint)]]; rewrite Hf in *.
  - simpl in Hlen. lia.
  - simpl in Hl. congruence.
  - simpl in Hl. congruence.
Qed.

Lemma for_each_load_line_outcome data w :
  exists r w',
    for_each load_line data w = (r, w') /\
    (r = Val tt <-> Forall (fun line => ~ malformed line) data) /\
    (r = Val tt \/ r = Exc IndexError \/ r = Exc ValueError) /\
    (r = Val tt -> length (shoe_list w') = (length (shoe_list w) + length data)%nat) /\
    stdout w' = stdout w.
Proof.
  revert w. induction data as [|line data IH]; intros w; simpl.
  - exists (Val tt), w. unfold mret, M_ret, ret.
    split; [done|]. split; [by split|]. split; [by left|]. split; [|done].
    intros _. lia.
  - unfold mbind, M_bind, bind.
    destruct (loadable_or_malformed line)
      as [Hbad|(f1 & f2 & f3 & f4 & f5 & extra & c & q & Hf & H4 & H5)].
    + destruct (load_line_malformed line w Hbad) as (e & -> & He).
      exists (Exc e), w. split; [done|]. split; [|split; [|done]].
      * split; [done|]. intros [Hgood _]%Forall_cons. done.
      * right. by destruct He as [->| ->]; [left|right].
    + rewrite (load_line_fields _ _ _ _ _ _ _ _ _ _ Hf H4 H5).
      destruct (IH (with_shoe (mkShoe f1 f2 f3 c q) w))
        as (r & w' & Hrun & Hiff & Hcases & Hlen & Hout).
      exists r, w'. split; [done|]. split; [|split; [done|split; [|done]]].
      * rewrite Hiff. split.
        -- intros Hrest. constructor; [|done]. by eapply loadable_not_malformed.
        -- by intros [_ ?]%Forall_cons.
      * intros Hr. rewrite (Hlen Hr). simpl. rewrite length_app. simpl. lia.
Qed.

(** For a file of ASCII text that exists, the load ends well exactly when
    the file has a first line and none of the lines after it is malformed;
    the store then holds one Record per data line. A file without any line
    raises [StopIteration]. Nothing is printed, read or written. *)
Theorem load_succeeds_iff (text : str) (lines : list str) :
  isascii text = true ->
  exists r w,
    read_shoes_data (initial_world (Some text) lines) = (r, w) /\
    (r = Val tt <->
       text <> [] /\ Forall (fun line => ~ malformed line) (data_lines text)) /\
    (r = Exc StopIteration <-> text = []) /\
    (r = Val tt -> length (store w) = length (data_lines text)) /\
    stdout w = [] /\ stdin w = lines /\ inventory_txt w = Some text.
Proof.
  intros _.
  destruct (read_shoes_data (initial_world (Some text) lines)) as [r w] eqn:Hrun.
  exists r, w. split; [done|].
  destruct (read_shoes_data_streams _ _ _ Hrun) as [Hin Hfile]. simpl in Hin, Hfile.
  unfold read_shoes_data in Hrun. simpl in Hrun. unfold data_lines.
  destruct (file_lines (universal_newlines text)) as [|h data] eqn:Hlines.
  - apply file_lines_nil, universal_newlines_nil in Hlines. subst text.
    unfold raise in Hrun. injection Hrun as <- <-. simpl.
    split; [by split; [|intros [? _]]|]. done.
  - assert (text <> []) as Hne by (by intros ->).
    destruct (for_each_load_line_outcome data (initial_world (Some text) lines))
      as (r' & w' & Hrun' & Hiff & Hcases & Hlen & Hout).
    rewrite Hrun' in Hrun. injection Hrun as <- <-. simpl in *.
    split; [|split; [|split; [|done]]].
    + rewrite Hiff. by split; [|intros [_ ?]].
    + split; [|done]. by destruct Hcases as [->|[->| ->]].
    + intros Hr. unfold store. rewrite length_map. by rewrite (Hlen Hr).
Qed.

Lemma load_succeeds_iff_witness :
  exists r w,
    read_shoes_data (initial_world (Some short_line_file) [lit "7"]) = (r, w) /\
    (r = Val tt <->
       short_line_file <> [] /\
       Forall (fun line => ~ malformed line) (data_lines short_line_file)) /\
    (r = Exc StopIteration <-> short_line_file = []) /\
    (r = Val tt -> length (store w) = length (data_lines short_line_file)) /\
    stdout w = [] /\ stdin w = [lit "7"] /\ inventory_txt w = Some short_line_file.
Proof. apply (load_succeeds_iff short_line_file [lit "7"]). reflexivity. Defined.

(** ** What a menu turn does to the objects *)

(** A menu turn never changes the country, code, product or cost of an
    object that exists, and its quantity can only grow. The store keeps
    its length or grows by one entry. (Which object an entry of the store
    refers to can still change: see the restock with a repeated code.) *)
Theorem menu_turn_keeps_objects (w : world) (r : outcome bool) (w' : world) :
  menu_iteration w = (r, w') ->
  (forall id shoe,
      heap w !! id = Some shoe ->
      exists shoe',
        heap w' !! id = Some shoe' /\
        country shoe' = country shoe /\ code shoe' = code shoe /\
        product shoe' = product shoe /\ cost shoe' = cost shoe /\
        quantity shoe <= quantity shoe') /\
  (length (shoe_list w') = length (shoe_list w) \/
   length (shoe_list w') = S (length (shoe_list w))).
Proof.
  intros Hturn. apply menu_iteration_evolves in Hturn
    as [(Hh & Hl & _)|[(new & _ & Hh & Hl & _)|(lo & a & _ & Ha & Hh & Hl)]].
  - rewrite Hh, Hl. split; [|by left].
    intros id shoe Hid. exists shoe. repeat split; [done|lia].
  - rewrite Hh, Hl. split.
    + intros id shoe Hid. exists shoe. split; [by apply lookup_app_l_Some|].
      repeat split; lia.
    + right. rewrite length_app. simpl. lia.
  - rewrite Hh. unfold bumped. split.
    + intros id shoe Hid. destruct (decide (lo = id)) as [->|Hne].
      * eexists. split.
        { apply list_lookup_insert_eq. by eapply lookup_lt_Some. }
        unfold deref. rewrite Hid. simpl. repeat split; lia.
      * exists shoe. rewrite list_lookup_insert_ne by done.
        split; [done|]. repeat split; lia.
    + left. destruct Hl as [->| ->]; [done|]. apply replace_first_match_length.
Qed.

Lemma menu_turn_keeps_objects_witness :
  (forall id shoe,
      heap four_shoes !! id = Some shoe ->
      exists shoe',
        heap (menu_iteration (set_stdin [lit "3"; lit "y"; lit "6"] four_shoes)).2 !! id
        = Some shoe' /\
        country shoe' = country shoe /\ code shoe' = code shoe /\
        product shoe' = product shoe /\ cost shoe' = cost shoe /\
        quantity shoe <= quantity shoe') /\
  (length (shoe_list (menu_iteration (set_stdin [lit "3"; lit "y"; lit "6"] four_shoes)).2)
   = length (shoe_list four_shoes) \/
   length (shoe_list (menu_iteration (set_stdin [lit "3"; lit "y"; lit "6"] four_shoes)).2)
   = S (length (shoe_list four_shoes))).
Proof.
  apply (menu_turn_keeps_objects (set_stdin [lit "3"; lit "y"; lit "6"] four_shoes)
           (menu_iteration (set_stdin [lit "3"; lit "y"; lit "6"] four_shoes)).1).
  by destruct (menu_iteration (set_stdin [lit "3"; lit "y"; lit "6"] four_shoes)).
Defined.

(** ** The reachable states, for a user *)

(** In every state the program reaches, the references of the store point
    to objects, and no Record has a comma, a carriage return or a line
    feed in its country, code or product, nor white space in front of its
    country. *)
Theorem reachable_store_invariant (w : world) :
  reachable w ->
  well_formed w /\ Forall file_safe (heap w) /\ Forall file_safe (store w) /\
  length (store w) = length (shoe_list w).
Proof.
  intros [Hwf Hsafe]%reachable_state_ok.
  split; [done|]. split; [done|]. split; [by apply store_file_safe|].
  unfold store. by rewrite length_map.
Qed.

Lemma reachable_store_invariant_witness :
  well_formed loaded_sample /\ Forall file_safe (heap loaded_sample) /\
  Forall file_safe (store loaded_sample) /\
  length (store loaded_sample) = length (shoe_list loaded_sample).
Proof.
  apply (reachable_store_invariant loaded_sample).
  exact (reach_start (Some same_code_file) [] loaded_sample eq_refl).
Defined.

(** ** A capture that goes through *)

Lemma or_return_break {A} (body : str -> ctl A * list output) (k : A -> M unit)
    x a o rest w :
  body x = (Break a, o) ->
  or_return (prompt body) k (set_stdin (x :: rest) w)
  = k a (set_stdin rest (set_stdout (stdout w ++ o) w)).
Proof.
  intros Hx. unfold or_return, prompt, mbind, M_bind, bind.
  cbn [stdin set_stdin while_input]. by rewrite Hx.
Qed.

Lemma letters_and_spaces_body_accepts msg x :
  accepted_text x -> letters_and_spaces_body msg x = (Break (title (strip x)), []).
Proof.
  intros [Hs Halpha]. unfold letters_and_spaces_body.
  rewrite cancel_capture_other.
  2:{ rewrite lower_title. exact Hs. }
  rewrite Halpha. simpl. rewrite orb_false_r.
  destruct (title (strip x)) eqn:Ht; [done|]. by rewrite bool_decide_eq_false_2.
Qed.

Lemma code_body_accepts x :
  accepted_code x -> code_body x = (Break (upper (strip x)), []).
Proof.
  intros Hm. unfold code_body. rewrite cancel_capture_other.
  - unfold accepted_code in Hm. by rewrite Hm.
  - apply fullmatch_sku_inv in Hm as (d & ds & -> & _). done.
Qed.

Lemma number_body_accepts m1 m2 x n :
  int (strip x) = Some n -> 0 <= n -> number_body m1 m2 x = (Break n, []).
Proof.
  intros Hint Hn. unfold number_body. rewrite cancel_capture_other.
  - rewrite Hint. by destruct (Z.ltb_spec n 0); [lia|].
  - intros Hx%lower_x_not_int. congruence.
Qed.

Lemma appended_store shoe w w' :
  appended shoe w w' -> well_formed w -> store w' = store w ++ [shoe].
Proof.
  intros (Hh & Hl & _) Hwf. unfold store. rewrite Hh, Hl, fmap_app. f_equal.
  - apply Forall_fmap_ext_1. eapply Forall_impl; [exact Hwf|].
    simpl. intros id Hid. by apply deref_app_l.
  - simpl. unfold deref. rewrite lookup_app_r by lia. by rewrite Nat.sub_diag.
Qed.

(** Five accepted lines in a row append one Record: the country and the
    product stripped and in title case, the code stripped and in upper
    case, cost and quantity as integers. The file is not written. *)
Theorem capture_appends_normalised (w : world) (c k p cost quantity : str)
    (cost_value quantity_value : Z) (rest : list str) :
  accepted_text c -> accepted_code k -> accepted_text p ->
  int (strip cost) = Some cost_value -> 0 <= cost_value ->
  int (strip quantity) = Some quantity_value -> 0 <= quantity_value ->
  exists w',
    capture_shoes (set_stdin (c :: k :: p :: cost :: quantity :: rest) w) = (Val tt, w') /\
    appended (mkShoe (title (strip c)) (upper (strip k)) (title (strip p))
                     cost_value quantity_value) w w' /\
    (well_formed w ->
     store w' = store w ++
                [mkShoe (title (strip c)) (upper (strip k)) (title (strip p))
                        cost_value quantity_value]) /\
    stdin w' = rest.
Proof.
  intros Hc Hk Hp Hcost Hcn Hq Hqn. unfold capture_shoes.
  unfold country_body, product_body, cost_body, quantity_body.
  unfold mbind at 1, M_bind at 1, bind at 1, print, modify.
  change (set_stdout ?o (set_stdin ?i w)) with (set_stdin i (set_stdout o w)).
  rewrite (or_return_break _ _ c _ [] _ _ (letters_and_spaces_body_accepts _ c Hc)).
  rewrite (or_return_break _ _ k _ [] _ _ (code_body_accepts k Hk)).
  rewrite (or_return_break _ _ p _ [] _ _ (letters_and_spaces_body_accepts _ p Hp)).
  rewrite (or_return_break _ _ cost _ [] _ _ (number_body_accepts _ _ cost _ Hcost Hcn)).
  rewrite (or_return_break _ _ quantity _ [] _ _
             (number_body_accepts _ _ quantity _ Hq Hqn)).
  eexists. split; [reflexivity|]. split; [done|]. split; [|done].
  intros Hwf. by apply appended_store.
Qed.

Lemma capture_appends_normalised_witness :
  exists w',
    capture_shoes (set_stdin [lit " south africa "; lit "sku77"; lit "nike AIR";
                              lit " 1_200 "; lit "0"; lit "7"] four_shoes)
    = (Val tt, w') /\
    appended (mkShoe (lit "South Africa") (lit "SKU77") (lit "Nike Air") 1200 0)
             four_shoes w' /\
    (well_formed four_shoes ->
     store w' = store four_shoes ++
                [mkShoe (lit "South Africa") (lit "SKU77") (lit "Nike Air") 1200 0]) /\
    stdin w' = [lit "7"].
Proof.
  apply (capture_appends_normalised four_shoes (lit " south africa ") (lit "sku77")
           (lit "nike AIR") (lit " 1_200 ") (lit "0") 1200 0 [lit "7"]).
  - split; [vm_compute; discriminate|reflexivity].
  - reflexivity.
  - split; [vm_compute; discriminate|reflexivity].
  - reflexivity.
  - lia.
  - reflexivity.
  - lia.
Defined.

(** ** The sentinel with white space around it *)

Lemma elem_of_int_rstrip c s : c ∈ s -> c ∈ int_rstrip s \/ int_space c = true.
Proof.
  induction s as [|c0 s IH]; [by intros ?%elem_of_nil|].
  rewrite int_rstrip_cons. intros [->|Hin]%elem_of_cons.
  - destruct (int_rstrip s); [|left; by left].
    destruct (int_space c0) eqn:Hc; [by right|left; by left].
  - destruct (IH Hin) as [Hr|?]; [|by right]. left.
    destruct (int_rstrip s); [by apply elem_of_nil in Hr|by right].
Qed.

Lemma elem_of_int_lstrip c s : c ∈ s -> c ∈ int_lstrip s \/ int_space c = true.
Proof.
  induction s as [|c0 s IH]; [by intros ?%elem_of_nil|]. simpl.
  destruct (int_space c0) eqn:Hc0.
  - intros [->|Hin]%elem_of_cons; [by right|by apply IH].
  - by left.
Qed.

Lemma parse_digits_chars acc b s n :
  parse_digits acc b s = Some n -> Forall (fun c => isdigit c = true \/ c = "_") s.
Proof.
  revert acc b. induction s as [|c s IH]; intros acc b H; [constructor|].
  simpl in H. destruct (isdigit c) eqn:Hc.
  - constructor; [by left|by eapply IH].
  - destruct (decide (c = "_")) as [->|]; [|done]. destruct b; [|done].
    constructor; [by right|by eapply IH].
Qed.

(** A text that [int] accepts holds digits, underscores, a sign and white
    space only. *)
Lemma int_chars s n c :
  int s = Some n -> c ∈ s ->
  isdigit c = true \/ c = "_" \/ c = "+" \/ c = "-" \/ int_space c = true.
Proof.
  intros Hint Hc.
  destruct (elem_of_int_rstrip _ _ Hc) as [Hr|?]; [|by eauto 6].
  destruct (elem_of_int_lstrip _ _ Hr) as [Hl|?]; [|by eauto 6].
  fold (int_strip s) in Hl.
  destruct (int_strip s) as [|c0 d] eqn:Hs; [by apply elem_of_nil in Hl|].
  rewrite (int_cons _ _ _ Hs) in Hint.
  destruct (max_str_digits <? count_digits (c0 :: d)); [done|].
  assert (forall m t, parse_digits 0 false t = Some m -> c ∈ t ->
                      isdigit c = true \/ c = "_") as Hparse.
  { intros m t Ht Hin. apply parse_digits_chars in Ht.
    rewrite Forall_forall in Ht. by apply Ht. }
  destruct (decide (c0 = "+")) as [->|_].
  { apply elem_of_cons in Hl as [->|Hl]; [by eauto 6|].
    destruct (Hparse _ _ Hint Hl); eauto 6. }
  destruct (decide (c0 = "-")) as [->|_].
  { apply elem_of_cons in Hl as [->|Hl]; [by eauto 6|].
    destruct (parse_digits 0 false d) as [m|] eqn:Hm; [|done].
    destruct (Hparse _ _ Hm Hl); eauto 6. }
  destruct (Hparse _ _ Hint Hl); eauto 6.
Qed.

Lemma sentinel_not_int s : is_sentinel s -> int s = None.
Proof.
  intros Hs. destruct (int s) as [n|] eqn:Hint; [|done]. exfalso.
  assert (exists c, (c = "x" \/ c = "X") /\ c ∈ s) as (c & Hc & Hin).
  { unfold is_sentinel in Hs. apply lower_x_inv in Hs.
    assert (forall c, c ∈ strip s -> c ∈ s) as Hsub.
    { intros c Hc. unfold strip in Hc. by apply elem_of_lstrip, elem_of_rstrip in Hc. }
    destruct Hs as [Hs|Hs]; rewrite Hs in Hsub.
    - exists "x". split; [by left|]. apply Hsub. by left.
    - exists "X". split; [by right|]. apply Hsub. by left. }
  pose proof (int_chars _ _ _ Hint Hin) as Hchar.
  destruct Hc as [-> | ->]; vm_compute in Hchar; intuition discriminate.
Qed.

(** [cancel_capture] answers [True] for "x" and "X" and for nothing
    else. In [capture_shoes] the line is stripped first, so the sentinel
    with white space around it ends each of its loops; the amount loop of
    [re_stock] does not strip, so there such a line is a wrong number:
    the error is printed and the loop goes on. *)
Theorem cancel_capture_exactly (s : str) :
  isascii s = true ->
  ((cancel_capture s).1 = true <-> s = lit "x" \/ s = lit "X") /\
  (is_sentinel s ->
     forall invalid negative not_integer,
       (letters_and_spaces_body invalid s).1 = Return /\
       (code_body s).1 = Return /\
       (number_body negative not_integer s).1 = Return) /\
  (is_sentinel s -> s <> lit "x" -> s <> lit "X" ->
     restock_body s = (Continue, [Print (lit "Error: Please enter a valid integer.")])).
Proof.
  intros _. split; [|split].
  - unfold cancel_capture. destruct (decide (lower s = lit "x")) as [Hs|Hs]; simpl.
    + split; [intros _; by apply lower_x_inv|done].
    + split; [done|]. by intros [->| ->].
  - intros Hs invalid negative not_integer.
    destruct (letters_and_spaces_body_sentinel invalid s Hs) as [o1 ->].
    destruct (code_body_sentinel s Hs) as [o2 ->].
    destruct (number_body_sentinel negative not_integer s Hs) as [o3 ->]. done.
  - intros Hs Hx1 Hx2. unfold restock_body.
    destruct (decide (lower s = lit "x")) as [Hl|_].
    { by apply lower_x_inv in Hl as [?|?]. }
    by rewrite (sentinel_not_int _ Hs).
Qed.

Lemma cancel_capture_exactly_witness :
  (code_body (lit " x")).1 = Return /\
  restock_body (lit " x") = (Continue, [Print (lit "Error: Please enter a valid integer.")]).
Proof.
  destruct (cancel_capture_exactly (lit " x") eq_refl) as (_ & Hcapture & Hrestock).
  split.
  - destruct (Hcapture eq_refl [] [] []) as (_ & H & _). exact H.
  - apply Hrestock; [reflexivity|vm_compute; discriminate|vm_compute; discriminate].
Defined.

(** ** A cost that cannot be rendered *)

Lemma str_overflow shoe w :
  float_ok (cost shoe) = false -> __str__ shoe w = (Exc OverflowError, w).
Proof. intros H. unfold __str__, format_2f. by rewrite H. Qed.

Lemma first_min_nonempty w i lowest :
  first_min quantity (store w) i lowest -> shoe_list w <> [].
Proof.
  intros (Hi & _) Hnil. unfold store in Hi. by rewrite Hnil in Hi.
Qed.

Lemma first_max_nonempty w j highest :
  first_max quantity (store w) j highest -> shoe_list w <> [].
Proof.
  intros (Hj & _) Hnil. unfold store in Hj. by rewrite Hnil in Hj.
Qed.

Lemma re_stock_overflow w lowest_stock_shoe :
  sorted (quantity_of w) (shoe_list w) false !! 0%nat = Some lowest_stock_shoe ->
  float_ok (cost (deref (heap w) lowest_stock_shoe)) = false ->
  re_stock w
  = (Exc OverflowError, set_stdout (stdout w ++ [Print lowest_stock_message]) w).
Proof.
  intros Hpick Hc. unfold re_stock. unfold_monad. simpl.
  rewrite Hpick. simpl. by rewrite (str_overflow _ _ Hc).
Qed.

Lemma highest_qty_overflow w first :
  sorted (quantity_of w) (shoe_list w) true !! 0%nat = Some first ->
  float_ok (cost (deref (heap w) first)) = false ->
  highest_qty w = (Exc OverflowError, w).
Proof.
  intros Hpick Hc. unfold highest_qty. unfold_monad. simpl.
  rewrite Hpick. simpl. by rewrite (str_overflow _ _ Hc).
Qed.

(** When the cost of the Record that [re_stock] or [highest_qty] picks
    does not convert to a float, rendering the Record raises
    [OverflowError]: [re_stock] has printed its heading only and has not
    read the answer, [highest_qty] has printed nothing, and the menu, which
    handles [ValueError] only, ends with the exception. *)
Theorem unrenderable_pick_raises (w : world) (lines : list str) :
  (forall i lowest,
      first_min quantity (store w) i lowest -> float_ok (cost lowest) = false ->
      menu_iteration (set_stdin (lit "3" :: lines) w)
      = (Exc OverflowError,
         set_stdout (stdout w ++ [Print lowest_stock_message]) (set_stdin lines w))) /\
  (forall j highest,
      first_max quantity (store w) j highest -> float_ok (cost highest) = false ->
      menu_iteration (set_stdin (lit "6" :: lines) w)
      = (Exc OverflowError, set_stdin lines w)).
Proof.
  split.
  - intros i lowest Hmin Hc.
    pose proof (first_min_nonempty _ _ _ Hmin) as Hne.
    destruct (sorted_ascending_pick (quantity_of w) _ Hne) as (i' & lo & Hlo & Hmin').
    apply first_min_store in Hmin'.
    destruct (first_min_unique _ _ _ _ _ _ Hmin Hmin') as [-> ->].
    rewrite (menu_iteration_run _ _ _ 3); [|done].
    unfold try_except_ValueError, dispatch. simpl.
    unfold mbind at 1, M_bind at 1, bind at 1.
    by rewrite (re_stock_overflow (set_stdin lines w) lo Hlo Hc).
  - intros j highest Hmax Hc.
    pose proof (first_max_nonempty _ _ _ Hmax) as Hne.
    destruct (sorted_descending_pick (quantity_of w) _ Hne) as (j' & hi & Hhi & Hmax').
    apply first_max_store in Hmax'.
    destruct (first_max_unique _ _ _ _ _ _ Hmax Hmax') as [-> ->].
    rewrite (menu_iteration_run _ _ _ 6); [|done].
    unfold try_except_ValueError, dispatch. simpl.
    unfold mbind at 1, M_bind at 1, bind at 1.
    by rewrite (highest_qty_overflow (set_stdin lines w) hi Hhi Hc).
Qed.

Lemma unrenderable_pick_raises_witness :
  menu_iteration (set_stdin [lit "3"; lit "y"] priceless)
  = (Exc OverflowError,
     set_stdout [Print lowest_stock_message] (set_stdin [lit "y"] priceless)) /\
  menu_iteration (set_stdin [lit "6"; lit "y"] priceless)
  = (Exc OverflowError, set_stdin [lit "y"] priceless).
Proof.
  destruct (unrenderable_pick_raises priceless [lit "y"]) as [Hlow Hhigh].
  assert (forall j y, store priceless !! j = Some y ->
                      y = mkShoe (lit "ZA") (lit "SKU1") (lit "Nike") (2 ^ 1024 - 2 ^ 970) 5)
    as Hone.
  { intros [|j] y Hy; [by injection Hy|discriminate Hy]. }
  split.
  - apply (Hlow 0%nat (mkShoe (lit "ZA") (lit "SKU1") (lit "Nike") (2 ^ 1024 - 2 ^ 970) 5));
      [|vm_compute; reflexivity].
    split; [reflexivity|]. split.
    + intros j y Hy. rewrite (Hone _ _ Hy). simpl. lia.
    + intros j y Hj. lia.
  - apply (Hhigh 0%nat (mkShoe (lit "ZA") (lit "SKU1") (lit "Nike") (2 ^ 1024 - 2 ^ 970) 5));
      [|vm_compute; reflexivity].
    split; [reflexivity|]. split.
    + intros j y Hy. rewrite (Hone _ _ Hy). simpl. lia.
    + intros j y Hj. lia.
Defined.
